(** * LibreChat: OpenAI/Azure client initialisation, the user-key routes and
      the server entry point

    A shallow embedding of
      - [api/server/services/Endpoints/openAI/initialize.js] ([initializeClient])
      - [api/server/routes/keys.js] (the [PUT], [DELETE] and [GET] handlers)
      - [api/server/index.js] (the handler that serves index.html and the
        handler of uncaught errors)
    JavaScript objects live in a heap of string-keyed maps, so that the
    in-place updates of the source (and the sharing they create) are part of
    the model.  Evaluation is a state-and-exception monad over that heap and
    the user-key store. *)

From stdpp Require Import gmap strings list fin_maps pretty.
From Stdlib Require Import ZArith.

(** ** JavaScript values *)

Abbreviation loc := nat.

(** The only function value the source creates: the arrow function of
    initialize.js:151-153, which closes over the variable [clientOptions]. *)
Inductive closure :=
| ThrottleHook (clientOptions : loc).

(** Numbers are the integers (stream rates and status codes); an object (an
    array is an object keyed by its indices) is a reference into the heap. *)
Inductive value :=
| VUndef
| VNull
| VBool (b : bool)
| VNum (n : Z)
| VStr (s : string)
| VRef (l : loc)
| VFun (f : closure).

Abbreviation obj := (gmap string value).

(** ** The user-key store (UserService) and the process state *)

Record KeyRecord := { key_value : value; key_expiresAt : value }.

Abbreviation KeyStore := (gmap (string * string) KeyRecord).

Record state := { heap : list obj; userKeys : KeyStore }.

Definition set_heap (h : list obj) (s : state) : state :=
  {| heap := h; userKeys := userKeys s |}.

Definition set_userKeys (k : KeyStore) (s : state) : state :=
  {| heap := heap s; userKeys := k |}.

(** ** Exceptions and the evaluation monad *)

Inductive ConfigErrorKind := UnknownModel | UnknownGroup.

(** [Stuck] is not a JavaScript exception: it marks a run that the model
    does not follow, namely a read through a reference that the heap does
    not hold (an ill-formed input), or a method call on an object that may
    be an array. *)
Inductive exn :=
| TypeError
| Error (message : string)
| ConfigError (kind : ConfigErrorKind)
| Stuck.

Inductive outcome (A : Type) :=
| Return (a : A) (s : state)
| Throw (e : exn) (s : state).

Arguments Return {A} a s.
Arguments Throw {A} e s.

Definition M (A : Type) : Type := state -> outcome A.

Definition ret {A} (a : A) : M A := fun s => Return a s.

Definition throw {A} (e : exn) : M A := fun s => Throw e s.

Definition bind {A B} (m : M A) (k : A -> M B) : M B :=
  fun s => match m s with
           | Return a s' => k a s'
           | Throw e s' => Throw e s'
           end.

Notation "x <- m ;; k" := (bind m (fun x => k))
  (at level 100, m at next level, right associativity).

(** ** Operators *)

Definition truthy (v : value) : bool :=
  match v with
  | VUndef | VNull => false
  | VBool b => b
  | VNum n => negb (Z.eqb n 0)
  | VStr s => negb (String.eqb s "")
  | VRef _ | VFun _ => true
  end.

Definition nullish (v : value) : bool :=
  match v with
  | VUndef | VNull => true
  | _ => false
  end.

(** [a ?? b] with [b] already a value. *)
Definition coalesce (a b : value) : value := if nullish a then b else a.

(** [a ?? b] where [b] is only evaluated when [a] is nullish. *)
Definition coalesceM (a : value) (b : M value) : M value :=
  if nullish a then b else ret a.

(** [a && b] with [b] already a value. *)
Definition js_and (a b : value) : value := if truthy a then b else a.

Definition js_not (a : value) : value := VBool (negb (truthy a)).

(** [a === b]; the source compares with string and boolean literals only, so
    the identity of function values is left out. *)
Definition strict_eq (a b : value) : bool :=
  match a, b with
  | VUndef, VUndef | VNull, VNull => true
  | VBool x, VBool y => Bool.eqb x y
  | VNum x, VNum y => Z.eqb x y
  | VStr x, VStr y => String.eqb x y
  | VRef x, VRef y => Nat.eqb x y
  | _, _ => false
  end.

(** ToString, as used by template literals and computed property names
    (plain objects print as [object Object]). *)
Definition to_string (v : value) : string :=
  match v with
  | VUndef => "undefined"
  | VNull => "null"
  | VBool true => "true"
  | VBool false => "false"
  | VNum n => pretty n
  | VStr s => s
  | VRef _ => "[object Object]"
  | VFun _ => "async () => { ... }"
  end.

Fixpoint starts_with (p s : string) : bool :=
  match p, s with
  | EmptyString, _ => true
  | String a p', String b s' => Ascii.eqb a b && starts_with p' s'
  | String _ _, EmptyString => false
  end.

(** [s.includes(sub)]: literal, case-sensitive containment. *)
Fixpoint includes (s sub : string) : bool :=
  starts_with sub s ||
  match s with
  | EmptyString => false
  | String _ s' => includes s' sub
  end.

(** ** Heap primitives *)

(** [v[k]] (own properties only; nothing the source reads is inherited). *)
Definition getprop (v : value) (k : string) : M value := fun s =>
  match v with
  | VUndef | VNull => Throw TypeError s
  | VRef l =>
      match heap s !! l with
      | Some o => Return (default VUndef (o !! k)) s
      | None => Throw Stuck s
      end
  | _ => Return VUndef s
  end.

(** [v[k] = x]; the files are not in strict mode, so a write to a property
    of a primitive is dropped silently. *)
Definition setprop (v : value) (k : string) (x : value) : M unit := fun s =>
  match v with
  | VUndef | VNull => Throw TypeError s
  | VRef l =>
      match heap s !! l with
      | Some o => Return tt (set_heap (<[l := <[k := x]> o]> (heap s)) s)
      | None => Throw Stuck s
      end
  | _ => Return tt s
  end.

(** A fresh object, answered as a reference to it. *)
Definition alloc (o : obj) : M value := fun s =>
  Return (VRef (length (heap s))) (set_heap (heap s ++ [o]) s).

(** The same, for an object whose address a closure captures. *)
Definition alloc_at (o : obj) : M loc := fun s =>
  Return (length (heap s)) (set_heap (heap s ++ [o]) s).

(** The own enumerable properties of a one-character-per-index string. *)
Fixpoint string_props (i : nat) (s : string) : obj :=
  match s with
  | EmptyString => ∅
  | String c s' => <[pretty i := VStr (String c EmptyString)]> (string_props (S i) s')
  end.

(** [{ ...v }]: the own properties that a spread of [v] copies. *)
Definition spread (v : value) : M obj := fun s =>
  match v with
  | VRef l =>
      match heap s !! l with
      | Some o => Return o s
      | None => Throw Stuck s
      end
  | VStr str => Return (string_props 0 str) s
  | _ => Return ∅ s
  end.

(** A property of a local object literal. *)
Definition field (o : obj) (k : string) : value := default VUndef (o !! k).

(** [[v0, v1, ...]]: the indexed elements of an array literal. *)
Fixpoint array_props (i : nat) (vs : list value) : obj :=
  match vs with
  | [] => ∅
  | v :: vs' => <[pretty i := v]> (array_props (S i) vs')
  end.

(** Lifting a collaborator that reads the heap and either fails or answers. *)
Definition call {A} (f : list obj -> exn + A) : M A := fun s =>
  match f (heap s) with
  | inl e => Throw e s
  | inr a => Return a s
  end.

(** [process.env.NAME] *)
Definition env_get (env : gmap string string) (k : string) : value :=
  match env !! k with
  | Some v => VStr v
  | None => VUndef
  end.

(** The character U+0022, for the one JSON text the source builds. *)
Definition dquote : string := String (Ascii.ascii_of_nat 34) EmptyString.

(** ** initialize.js *)

Module Initialize.

(** What [mapModelToAzureConfig] answers: [{ azureOptions, baseURL, headers,
    serverless }], with [headers] possibly left out. *)
Record MapperResult := {
  azureOptions : obj;
  baseURL : value;
  headers : option obj;
  serverless : value;
}.

(** What [getLLMConfig] answers: [{ llmConfig, configOptions }]. *)
Record LLMOptions := {
  llmConfig : obj;
  configOptions : obj;
}.

(** The facade built by [new OpenAIClient(apiKey, options)], kept as the
    arguments it was constructed with. *)
Record Client := {
  client_apiKey : value;
  client_options : value;
}.

(** What [initializeClient] resolves to: the options of options-only mode, or
    [{ client, openAIApiKey }]. *)
Inductive result :=
| OptionsOnly (options : LLMOptions)
| ClientPair (client : Client) (openAIApiKey : value).

(** The imports of initialize.js whose code is outside the two files: the
    constants of librechat-data-provider and the collaborating functions.
    Each function reads the heap it is given and builds fresh objects only.
    Each is the function of the one process environment of the run: what a
    collaborator reads of the environment by itself is part of the function,
    not an argument of it ([getAzureCredentials] apart).
    [getUserKeyValues] and [checkUserKeyExpiry] are imported and never
    called; [sleep] is the effect [Sleep] below and [new OpenAIClient] the
    record [Client] above. *)
Record Deps := {
  EModelEndpoint_openAI : string;
  EModelEndpoint_azureOpenAI : string;
  ErrorTypes_NO_USER_KEY : string;
  resolveHeaders : obj -> obj;
  mapModelToAzureConfig : list obj -> value -> value -> value -> exn + MapperResult;
  getUserKeyValues : KeyStore -> value -> value -> exn + obj;
  checkUserKeyExpiry : value -> value -> exn + unit;
  getLLMConfig : list obj -> value -> value -> LLMOptions;
  isEnabled : value -> bool;
  getAzureCredentials : gmap string string -> obj;
  JSON_parse : value -> exn + obj;
}.

(** The destructured parameter of [initializeClient]. *)
Record Args := {
  req : value;
  res : value;
  endpointOption : value;
  optionsOnly : value;
  overrideEndpoint : value;
  overrideModel : value;
}.

(** The effect of [await sleep(ms)]. *)
Inductive effect :=
| Sleep (ms : value).

(** Lines 48-53: the literals that switch the user-key path off. *)
Definition userProvidesKey : bool := false.
Definition userProvidesURL : bool := false.
Definition userValues : value := VNull.

(** The value of [userProvidesKey & !apiKey] (line 128). *)
Definition bit_and (a b : bool) : value := VNum (if a && b then 1 else 0).

Section WithDeps.

Variable deps : Deps.
Variable env : gmap string string.

(** [req.app.locals] *)
Definition appLocals (a : Args) : M value :=
  app <- getprop (req a) "app";;
  getprop app "locals".

(** Line 32: [overrideModel ?? req.body.model]. *)
Definition resolveModelName (a : Args) : M value :=
  coalesceM (overrideModel a)
    (body <- getprop (req a) "body";; getprop body "model").

(** Line 35: [overrideEndpoint ?? req.body.endpoint ?? EModelEndpoint.openAI]. *)
Definition resolveEndpoint (a : Args) : M value :=
  e <- coalesceM (overrideEndpoint a)
         (body <- getprop (req a) "body";; getprop body "endpoint");;
  ret (coalesce e (VStr (EModelEndpoint_openAI deps))).

(** Lines 56-58: the relay key and the relay URL. *)
Definition relayKey : value := env_get env "OPENROUTER_KEY".
Definition relayURL : value := VStr "https://openrouter.ai/api/v1".

(** Lines 60-66: the object literal, whose last member is the spread of
    [endpointOption]; in [m1 ∪ m2] the members of [m1] win. *)
Definition baseOptions (a : Args) : M obj :=
  let contextStrategy :=
    if isEnabled deps (env_get env "OPENAI_SUMMARIZE") then VStr "summarize" else VNull in
  ep <- spread (endpointOption a);;
  ret (ep ∪ <["contextStrategy" := contextStrategy]>
            (<["proxy" := coalesce (env_get env "PROXY") VNull]>
            (<["debug" := VBool (isEnabled deps (env_get env "DEBUG_OPENAI"))]>
            (<["reverseProxyUrl" := if truthy relayURL then relayURL else VNull]> ∅)))).

(** Lines 31-66.  The object literals [credentials] and [baseURLOptions] of
    lines 38-46 are built and never read. *)
Definition prologue (a : Args) : M (value * value * obj) :=
  body <- getprop (req a) "body";;
  expiresAt <- getprop body "key";;
  modelName <- resolveModelName a;;
  endpoint <- resolveEndpoint a;;
  clientOptions <- baseOptions a;;
  ret (modelName, endpoint, clientOptions).

(** Line 91: [modelName.includes('gpt-4') ? 30 : 17].  A model name that is
    a string answers by containment.  The other primitives and functions
    have no [includes], which is a TypeError.  An object may be an array,
    whose [includes] is membership: the heap does not tell arrays from
    other objects, so the model does not follow such a name. *)
Definition azureRate (modelName : value) : M value :=
  match modelName with
  | VStr m => ret (VNum (if includes m "gpt-4" then 30 else 17))
  | VRef _ => throw Stuck
  | _ => throw TypeError
  end.

(** Lines 97-99: [azureConfig.groupMap[groupName].k]. *)
Definition groupField (azureConfig groupName : value) (k : string) : M value :=
  groups <- getprop azureConfig "groupMap";;
  group <- getprop groups (to_string groupName);;
  getprop group k.

(** Line 86: the members of [...(clientOptions.headers ?? {})]. *)
Definition requestHeaders (clientOptions : obj) : M obj :=
  if nullish (field clientOptions "headers") then ret ∅
  else spread (field clientOptions "headers").

(** Lines 73-108: the branch taken for an Azure request with an Azure
    configuration. *)
Definition azureMapped (azureConfig modelName : value) (clientOptions : obj)
  : M (value * obj) :=
  modelGroupMap <- getprop azureConfig "modelGroupMap";;
  groupMap <- getprop azureConfig "groupMap";;
  r <- call (fun h => mapModelToAzureConfig deps h modelName modelGroupMap groupMap);;
  azOptions <- alloc (azureOptions r);;
  let hdrs := default ∅ (headers r) in
  let clientOptions :=
    <["reverseProxyUrl" := coalesce (baseURL r) (field clientOptions "reverseProxyUrl")]>
      clientOptions in
  own <- requestHeaders clientOptions;;
  resolved <- alloc (resolveHeaders deps (own ∪ hdrs));;
  let clientOptions := <["headers" := resolved]> clientOptions in
  titleConvo <- getprop azureConfig "titleConvo";;
  let clientOptions := <["titleConvo" := titleConvo]> clientOptions in
  titleModel <- getprop azureConfig "titleModel";;
  let clientOptions := <["titleModel" := titleModel]> clientOptions in
  rate <- azureRate modelName;;
  streamRate <- getprop azureConfig "streamRate";;
  let clientOptions := <["streamRate" := coalesce streamRate rate]> clientOptions in
  titleMethod <- getprop azureConfig "titleMethod";;
  let clientOptions :=
    <["titleMethod" := coalesce titleMethod (VStr "completion")]> clientOptions in
  entry <- getprop modelGroupMap (to_string modelName);;
  groupName <- getprop entry "group";;
  addParams <- groupField azureConfig groupName "addParams";;
  let clientOptions := <["addParams" := addParams]> clientOptions in
  dropParams <- groupField azureConfig groupName "dropParams";;
  let clientOptions := <["dropParams" := dropParams]> clientOptions in
  forcePrompt <- groupField azureConfig groupName "forcePrompt";;
  let clientOptions := <["forcePrompt" := forcePrompt]> clientOptions in
  apiKey <- getprop azOptions "azureOpenAIApiKey";;
  let clientOptions :=
    <["azure" := js_and (js_not (serverless r)) azOptions]> clientOptions in
  if strict_eq (serverless r) (VBool true) then
    version <- getprop azOptions "azureOpenAIApiVersion";;
    defaultQuery <- (if truthy version then alloc {["api-version" := version]}
                     else ret VUndef);;
    let clientOptions := <["defaultQuery" := defaultQuery]> clientOptions in
    _ <- setprop (field clientOptions "headers") "api-key" apiKey;;
    ret (apiKey, clientOptions)
  else ret (apiKey, clientOptions).

(** Lines 109-112: an Azure request without an Azure configuration. *)
Definition azureDefault (clientOptions : obj) : M (value * obj) :=
  creds <- (if userProvidesKey
            then (k <- getprop userValues "apiKey";; call (fun _ => JSON_parse deps k))
            else ret (getAzureCredentials deps env));;
  azure <- alloc creds;;
  let clientOptions := <["azure" := azure]> clientOptions in
  apiKey <- getprop (field clientOptions "azure") "azureOpenAIApiKey";;
  ret (apiKey, clientOptions).

(** Lines 68-112. *)
Definition azureLayer (a : Args) (modelName endpoint : value) (clientOptions : obj)
  : M (bool * value * obj) :=
  let isAzureOpenAI := strict_eq endpoint (VStr (EModelEndpoint_azureOpenAI deps)) in
  azureConfig <- (if isAzureOpenAI
                  then (locals <- appLocals a;;
                        getprop locals (EModelEndpoint_azureOpenAI deps))
                  else ret (VBool false));;
  if isAzureOpenAI && truthy azureConfig then
    r <- azureMapped azureConfig modelName clientOptions;;
    ret (isAzureOpenAI, r.1, r.2)
  else if isAzureOpenAI then
    r <- azureDefault clientOptions;;
    ret (isAzureOpenAI, r.1, r.2)
  else ret (isAzureOpenAI, relayKey, clientOptions).

(** Lines 114-126: the endpoint configuration of the application, then its
    configuration for all endpoints. *)
Definition configLayers (a : Args) (isAzureOpenAI : bool) (clientOptions : obj) : M obj :=
  locals <- appLocals a;;
  openAIConfig <- getprop locals (EModelEndpoint_openAI deps);;
  clientOptions <-
    (if negb isAzureOpenAI && truthy openAIConfig then
       streamRate <- getprop openAIConfig "streamRate";;
       titleModel <- getprop openAIConfig "titleModel";;
       ret (<["titleModel" := titleModel]> (<["streamRate" := streamRate]> clientOptions))
     else ret clientOptions);;
  locals <- appLocals a;;
  allConfig <- getprop locals "all";;
  if truthy allConfig then
    streamRate <- getprop allConfig "streamRate";;
    ret (<["streamRate" := streamRate]> clientOptions)
  else ret clientOptions.

(** Lines 128-138. *)
Definition checkCredential (endpoint apiKey : value) : M unit :=
  if truthy (bit_and userProvidesKey (negb (truthy apiKey))) then
    throw (Error ("{" +:+ dquote +:+ "type" +:+ dquote +:+ ":" +:+ dquote
                  +:+ ErrorTypes_NO_USER_KEY deps +:+ dquote +:+ "}"))
  else if negb (truthy apiKey) then
    throw (Error (to_string endpoint +:+ " API Key not provided."))
  else ret tt.

(** Lines 21-138: the model name, the credential and the merged options. *)
Definition resolveOptions (a : Args) : M (value * value * obj) :=
  p <- prologue a;;
  let '(modelName, endpoint, clientOptions) := p in
  q <- azureLayer a modelName endpoint clientOptions;;
  let '(isAzureOpenAI, apiKey, clientOptions) := q in
  clientOptions <- configLayers a isAzureOpenAI clientOptions;;
  _ <- checkCredential endpoint apiKey;;
  ret (modelName, apiKey, clientOptions).

(** Lines 149-155: [options.llmConfig.callbacks = [{ handleLLMNewToken }]]. *)
Definition attachThrottle (options : LLMOptions) (clientOptions : loc) : M LLMOptions :=
  handler <- alloc {["handleLLMNewToken" := VFun (ThrottleHook clientOptions)]};;
  callbacks <- alloc (array_props 0 [handler]);;
  ret {| llmConfig := <["callbacks" := callbacks]> (llmConfig options);
         configOptions := configOptions options |}.

(** Lines 141-144: the model parameters of the caller are stamped, and
    [clientOptions] becomes [Object.assign({ modelOptions }, clientOptions)]. *)
Definition stampModelOptions (a : Args) (modelName : value) (clientOptions : obj)
  : M loc :=
  modelOptions <- getprop (endpointOption a) "model_parameters";;
  _ <- setprop modelOptions "model" modelName;;
  clientOptions <- alloc_at (clientOptions ∪ {["modelOptions" := modelOptions]});;
  stamped <- getprop (VRef clientOptions) "modelOptions";;
  user <- getprop (req a) "user";;
  id <- getprop user "id";;
  _ <- setprop stamped "user" id;;
  ret clientOptions.

(** Lines 145-156. *)
Definition throttledOptions (apiKey : value) (clientOptions : loc) : M result :=
  options <- call (fun h => inr (getLLMConfig deps h apiKey (VRef clientOptions)));;
  streamRate <- getprop (VRef clientOptions) "streamRate";;
  if negb (truthy streamRate) then ret (OptionsOnly options)
  else
    options <- attachThrottle options clientOptions;;
    ret (OptionsOnly options).

(** Lines 140-157. *)
Definition optionsOnlyMode (a : Args) (modelName apiKey : value) (clientOptions : obj)
  : M result :=
  clientOptions <- stampModelOptions a modelName clientOptions;;
  throttledOptions apiKey clientOptions.

(** Lines 159-163. *)
Definition fullClientMode (a : Args) (apiKey : value) (clientOptions : obj) : M result :=
  options <- alloc (clientOptions ∪ <["req" := req a]> (<["res" := res a]> ∅));;
  ret (ClientPair {| client_apiKey := apiKey; client_options := options |} apiKey).

Definition initializeClient (a : Args) : M result :=
  r <- resolveOptions a;;
  let '(modelName, apiKey, clientOptions) := r in
  if truthy (optionsOnly a) then optionsOnlyMode a modelName apiKey clientOptions
  else fullClientMode a apiKey clientOptions.

(** The body of the hook: [await sleep(clientOptions.streamRate)]. *)
Definition call_closure (f : closure) : M (list effect) :=
  match f with
  | ThrottleHook clientOptions =>
      streamRate <- getprop (VRef clientOptions) "streamRate";;
      ret [Sleep streamRate]
  end.

(** [n] token-emission events, each calling the hook once. *)
Fixpoint onTokens (n : nat) (f : closure) : M (list effect) :=
  match n with
  | O => ret []
  | S n' =>
      es <- call_closure f;;
      rest <- onTokens n' f;;
      ret (es ++ rest)
  end.

End WithDeps.

End Initialize.

(** ** routes/keys.js *)

Module KeysRoute.

(** What the handler sends: [res.status(code).send(payload)]. *)
Record Response := {
  status : Z;
  payload : value;
}.

(** The import of keys.js that the [PUT /] handler calls. *)
Record UserService := {
  updateUserKey : obj -> M unit;
}.

(** Line 8: the provider whose key the administrator manages. *)
Definition lockedProvider : string := "openAI".

Section WithService.

Variable svc : UserService.

(** Lines 6-13, behind [requireJwtAuth]: the handler of [PUT /]. *)
Definition putKey (req : value) : M Response :=
  body <- getprop req "body";;
  name <- getprop body "name";;
  if strict_eq name (VStr lockedProvider) then
    error <- alloc {["error" := VStr "OpenAI API keys are managed by the system administrator"]};;
    ret {| status := 403; payload := error |}
  else
    user <- getprop req "user";;
    id <- getprop user "id";;
    body <- getprop req "body";;
    fields <- spread body;;
    _ <- updateUserKey svc (fields ∪ {["userId" := id]});;
    ret {| status := 201; payload := VUndef |}.

End WithService.

(** Modelled from the spec: [updateUserKey] of UserService, whose code is not
    in the two files.  The spec's key store holds one record per user and
    provider name ("UserKeyRecord: userId, provider name, key material,
    expiry timestamp") and the operation is an upsert of the record that its
    argument names. *)
Definition updateUserKey_spec (arg : obj) : M unit := fun s =>
  Return tt
    (set_userKeys
       (<[(to_string (field arg "userId"), to_string (field arg "name")) :=
            {| key_value := field arg "value";
               key_expiresAt := field arg "expiresAt" |}]> (userKeys s)) s).

Definition userService_spec : UserService :=
  {| updateUserKey := updateUserKey_spec |}.

(** The other two imports of keys.js from UserService, which the [DELETE]
    and [GET] handlers call. *)
Record UserKeyQueries := {
  deleteUserKey : obj -> M unit;
  getUserKeyExpiry : obj -> M value;
}.

Section WithQueries.

Variable queries : UserKeyQueries.

(** Lines 15-19: the handler of [DELETE /:name]. *)
Definition deleteKey (req : value) : M Response :=
  params <- getprop req "params";;
  name <- getprop params "name";;
  user <- getprop req "user";;
  id <- getprop user "id";;
  _ <- deleteUserKey queries (<["userId" := id]> (<["name" := name]> ∅));;
  ret {| status := 204; payload := VUndef |}.

(** Lines 21-31: the handler of [DELETE /]. *)
Definition deleteAllKeys (req : value) : M Response :=
  query <- getprop req "query";;
  all <- getprop query "all";;
  if negb (strict_eq all (VStr "true")) then
    error <- alloc {["error" := VStr "Specify either all=true to delete."]};;
    ret {| status := 400; payload := error |}
  else
    user <- getprop req "user";;
    id <- getprop user "id";;
    _ <- deleteUserKey queries (<["userId" := id]> (<["all" := VBool true]> ∅));;
    ret {| status := 204; payload := VUndef |}.

(** Lines 33-37: the handler of [GET /]. *)
Definition getKeyExpiry (req : value) : M Response :=
  query <- getprop req "query";;
  name <- getprop query "name";;
  user <- getprop req "user";;
  id <- getprop user "id";;
  response <- getUserKeyExpiry queries (<["userId" := id]> (<["name" := name]> ∅));;
  ret {| status := 200; payload := response |}.

End WithQueries.

(** Modelled from the spec: [deleteUserKey] and [getUserKeyExpiry] of
    UserService, whose code is not in the files.  The spec has the first
    "delete one named key for the caller" or "bulk-delete all keys for the
    caller", and the second "return the expiry metadata for the caller's
    named key", which is "empty/null if no such key". *)
Definition deleteUserKey_spec (arg : obj) : M unit := fun s =>
  let userId := to_string (field arg "userId") in
  Return tt
    (set_userKeys
       (if truthy (field arg "all")
        then filter (fun kv => kv.1.1 <> userId) (userKeys s)
        else delete (userId, to_string (field arg "name")) (userKeys s)) s).

Definition getUserKeyExpiry_spec (arg : obj) : M value := fun s =>
  match userKeys s !! (to_string (field arg "userId"), to_string (field arg "name")) with
  | Some r => alloc {["expiresAt" := key_expiresAt r]} s
  | None => Return VNull s
  end.

Definition userKeyQueries_spec : UserKeyQueries :=
  {| deleteUserKey := deleteUserKey_spec;
     getUserKeyExpiry := getUserKeyExpiry_spec |}.

End KeysRoute.

(** ** server/index.js *)

Module Server.

(** [a || b] with [b] already a value. *)
Definition js_or (a b : value) : value := if truthy a then a else b.

(** The characters that the handlers treat apart: the double quote, the
    comma, and the four that follow a dollar sign in a replacement text. *)
Definition quote : Ascii.ascii := Ascii.ascii_of_nat 34.
Definition comma : Ascii.ascii := Ascii.ascii_of_nat 44.
Definition dollar : Ascii.ascii := Ascii.ascii_of_nat 36.
Definition ampersand : Ascii.ascii := Ascii.ascii_of_nat 38.
Definition backtick : Ascii.ascii := Ascii.ascii_of_nat 96.
Definition apostrophe : Ascii.ascii := Ascii.ascii_of_nat 39.

(** Line 144: [s.split(',')[0]], the text before the first comma. *)
Fixpoint firstSegment (s : string) : string :=
  match s with
  | EmptyString => EmptyString
  | String c s' => if Ascii.eqb c comma then EmptyString else String c (firstSegment s')
  end.

(** Line 145: the replacement of every double quote (a global pattern) by
    [&quot;]; the replacement text holds no dollar sign, so it is inserted as
    it is. *)
Fixpoint escapeQuotes (s : string) : string :=
  match s with
  | EmptyString => EmptyString
  | String c s' =>
      if Ascii.eqb c quote then "&quot;" +:+ escapeQuotes s'
      else String c (escapeQuotes s')
  end.

(** The text that [String.prototype.replace] inserts for one match of a
    pattern without capture groups (GetSubstitution of ECMA-262): in the
    replacement text, [$$] stands for a dollar sign, [$&] for the matched
    text, [$`] for the text before the match and [$'] for the text after it;
    a dollar sign before any other character, a digit included, stands for
    itself. *)
Fixpoint getSubstitution (matched before after template : string) : string :=
  match template with
  | EmptyString => EmptyString
  | String c rest =>
      if Ascii.eqb c dollar then
        match rest with
        | EmptyString => String c EmptyString
        | String d rest' =>
            if Ascii.eqb d dollar then
              String dollar (getSubstitution matched before after rest')
            else if Ascii.eqb d ampersand then
              matched +:+ getSubstitution matched before after rest'
            else if Ascii.eqb d backtick then
              before +:+ getSubstitution matched before after rest'
            else if Ascii.eqb d apostrophe then
              after +:+ getSubstitution matched before after rest'
            else String c (getSubstitution matched before after rest)
        end
      else String c (getSubstitution matched before after rest)
  end.

Fixpoint dropChars (n : nat) (s : string) : string :=
  match n, s with
  | S n', String _ s' => dropChars n' s'
  | _, _ => s
  end.

(** The scan of [s.replace(/pat/g, template)] for a pattern of literal
    characters that is not empty: [before] is the text already scanned,
    [rest] the text ahead, and [skip] the number of characters of [rest] that
    belong to the match just replaced.  Matches are taken from left to right
    and do not overlap. *)
Fixpoint replaceFrom (pat template : string) (skip : nat) (before rest : string)
  : string :=
  match rest with
  | EmptyString => EmptyString
  | String c rest' =>
      match skip with
      | S skip' =>
          replaceFrom pat template skip' (before +:+ String c EmptyString) rest'
      | O =>
          if starts_with pat rest then
            getSubstitution pat before (dropChars (String.length pat) rest) template
            +:+ replaceFrom pat template (String.length pat - 1)
                  (before +:+ String c EmptyString) rest'
          else
            String c (replaceFrom pat template 0 (before +:+ String c EmptyString) rest')
      end
  end.

Definition replaceGlobal (pat template s : string) : string :=
  replaceFrom pat template 0 EmptyString s.

(** Line 146: the pattern [/lang="en-US"/g], all of whose characters are
    literal, and the template literal that replaces its matches. *)
Definition marker : string := "lang=" +:+ dquote +:+ "en-US" +:+ dquote.

Definition langAttribute (saneLang : string) : string :=
  "lang=" +:+ dquote +:+ saneLang +:+ dquote.

(** What the handler has sent: the headers of [res.set], the argument of
    [res.type] and the body of [res.send]. *)
Record Page := {
  responseHeaders : obj;
  contentType : string;
  body : string;
}.

(** Lines 137-149: the handler behind all routes, which serves index.html.
    [indexHTML] is the text that line 53 has read. *)
Definition serveIndex (env : gmap string string) (indexHTML : string) (req : value)
  : M Page :=
  let responseHeaders : obj :=
    <["Cache-Control" := js_or (env_get env "INDEX_CACHE_CONTROL")
                               (VStr "no-cache, no-store, must-revalidate")]>
      (<["Pragma" := js_or (env_get env "INDEX_PRAGMA") (VStr "no-cache")]>
      (<["Expires" := js_or (env_get env "INDEX_EXPIRES") (VStr "0")]> ∅)) in
  cookies <- getprop req "cookies";;
  cookie <- getprop cookies "lang";;
  lang <- (if truthy cookie then ret cookie
           else
             headers <- getprop req "headers";;
             accept <- getprop headers "accept-language";;
             first <- match accept with
                      | VUndef | VNull => ret VUndef
                      | VStr a => ret (VStr (firstSegment a))
                      | _ => throw TypeError
                      end;;
             ret (js_or first (VStr "en-US")));;
  match lang with
  | VStr l =>
      let saneLang := escapeQuotes l in
      let updatedIndexHtml := replaceGlobal marker (langAttribute saneLang) indexHTML in
      ret {| responseHeaders := responseHeaders;
             contentType := "html";
             body := updatedIndexHtml |}
  | _ => throw TypeError
  end.

(** What the handler of [uncaughtException] does, by the line that does
    it. *)
Inductive event :=
| ErrorUncaught      (* 173: logger.error('There was an uncaught error:', err) *)
| WarnAbort          (* 177 *)
| WarnGoogle         (* 182 *)
| WarnMeilisearch    (* 190 *)
| ErrorOpenAI        (* 198 *)
| Exit (code : Z).   (* 204: process.exit(1) *)

(** Lines 171-205: one call of the handler, for the [message] of the error
    and the counter of line 170; it answers its events and the counter.  A
    message that is not a string is taken to have no [includes]. *)
Definition onUncaughtException (message : value) (messageCount : Z)
  : exn + (list event * Z) :=
  match message with
  | VStr m =>
      let logged := if negb (includes m "fetch failed") then [ErrorUncaught] else [] in
      if includes m "abort" then inr (logged ++ [WarnAbort], messageCount)
      else if includes m "GoogleGenerativeAI" then inr (logged ++ [WarnGoogle], messageCount)
      else if includes m "fetch failed" then
        if Z.eqb messageCount 0
        then inr (logged ++ [WarnMeilisearch], (messageCount + 1)%Z)
        else inr (logged, messageCount)
      else if includes m "OpenAIError" || includes m "ChatCompletionMessage" then
        inr (logged ++ [ErrorOpenAI], messageCount)
      else inr (logged ++ [Exit 1], messageCount)
  | _ => inl TypeError
  end.

Definition exits (e : event) : bool :=
  match e with
  | Exit _ => true
  | _ => false
  end.

(** The events of a process that meets the uncaught errors with the given
    messages in turn, from the counter [messageCount] on: it ends with the
    call that exits, or with the one in which the handler itself throws. *)
Fixpoint uncaughtErrors (messages : list value) (messageCount : Z) : list event :=
  match messages with
  | [] => []
  | message :: rest =>
      match onUncaughtException message messageCount with
      | inl _ => []
      | inr (events, messageCount') =>
          events ++ (if existsb exits events then []
                     else uncaughtErrors rest messageCount')
      end
  end.

(** Line 170: the process starts with the counter at 0. *)
Definition processEvents (messages : list value) : list event :=
  uncaughtErrors messages 0.

End Server.

(** ** Collaborators for the worked scenarios *)

Module Scenario.

Import Initialize.

(** An own property of the object that [v] refers to. *)
Definition own (h : list obj) (v : value) (k : string) : option value :=
  match v with
  | VRef l => o ← h !! l; o !! k
  | _ => None
  end.

(** A setting that the configuration types as a string. *)
Definition stringOrUndefined (v : value) : value :=
  match v with
  | VStr x => VStr x
  | _ => VUndef
  end.

(** Modelled from the spec: [mapModelToAzureConfig] of librechat-data-provider
    (spec 4.1): "given (modelName, modelGroupMap, groupMap), produce
    { azureOptions, baseURL, headers, serverless }"; it "fails with
    ConfigError(UnknownModel) if modelName has no entry in modelGroupMap" and
    "with ConfigError(UnknownGroup) if the resolved group has no entry in
    groupMap"; "serverless is a boolean carried per-group", and the Azure
    options are "populated from the group's credentials".  The group record
    is read under the names of the configuration file (apiKey, version,
    baseURL, additionalHeaders, serverless). *)
Definition mapModelToAzureConfig_spec (h : list obj)
    (modelName modelGroupMap groupMap : value) : exn + MapperResult :=
  match own h modelGroupMap (to_string modelName) with
  | None => inl (ConfigError UnknownModel)
  | Some entry =>
      let groupName := default VUndef (own h entry "group") in
      match own h groupMap (to_string groupName) with
      | None => inl (ConfigError UnknownGroup)
      | Some group =>
          let get k := default VUndef (own h group k) in
          inr {| azureOptions :=
                   <["azureOpenAIApiKey" := stringOrUndefined (get "apiKey")]>
                     (<["azureOpenAIApiVersion" := stringOrUndefined (get "version")]> ∅);
                 baseURL := get "baseURL";
                 headers := match get "additionalHeaders" with
                            | VRef l => h !! l
                            | _ => None
                            end;
                 serverless := VBool (strict_eq (get "serverless") (VBool true)) |}
      end
  end.

(** The remaining collaborators, as simple as their role allows: headers
    without placeholders resolve to themselves, and the configuration that
    [getLLMConfig] builds keeps the credential and the base URL. *)
Definition deps : Deps :=
  {| EModelEndpoint_openAI := "openAI";
     EModelEndpoint_azureOpenAI := "azureOpenAI";
     ErrorTypes_NO_USER_KEY := "no_user_key";
     resolveHeaders := fun o => o;
     mapModelToAzureConfig := mapModelToAzureConfig_spec;
     getUserKeyValues := fun ks userId name =>
       match ks !! (to_string userId, to_string name) with
       | Some r => inr {["apiKey" := key_value r]}
       | None => inl (Error "no_user_key")
       end;
     checkUserKeyExpiry := fun _ _ => inr tt;
     getLLMConfig := fun h apiKey options =>
       {| llmConfig := <["apiKey" := apiKey]> (<["streaming" := VBool true]> ∅);
          configOptions :=
            <["baseURL" := default VUndef (own h options "reverseProxyUrl")]> ∅ |};
     isEnabled := fun v => strict_eq v (VStr "true");
     getAzureCredentials := fun env =>
       <["azureOpenAIApiKey" := env_get env "AZURE_API_KEY"]> ∅;
     JSON_parse := fun _ => inl (Error "SyntaxError") |}.

(** A request: heap cells 0-4 are [req], [req.body], [req.app],
    [req.app.locals] and [req.user]. *)
Definition request (body locals : obj) : list obj :=
  [ <["body" := VRef 1]> (<["app" := VRef 2]> (<["user" := VRef 4]> ∅));
    body;
    <["locals" := VRef 3]> ∅;
    locals;
    <["id" := VStr "user-1"]> ∅ ].

Definition args (endpointOption optionsOnly : value) : Args :=
  {| req := VRef 0; res := VNull; endpointOption := endpointOption;
     optionsOnly := optionsOnly; overrideEndpoint := VUndef;
     overrideModel := VUndef |}.

Definition relayEnv : gmap string string := <["OPENROUTER_KEY" := "sk-or-1"]> ∅.

(** The answer and the final state of a run. *)
Definition answer {A} (d : A) (o : outcome A) : A :=
  match o with
  | Return a _ => a
  | Throw _ _ => d
  end.

Definition final {A} (o : outcome A) : state :=
  match o with
  | Return _ s => s
  | Throw _ s => s
  end.

Definition noResult : result :=
  OptionsOnly {| llmConfig := ∅; configOptions := ∅ |}.

(** Four conflicting stream rates: 5 in the request-level endpoint options
    (cell 8), 10 in the Azure configuration (cell 5), 20 in the endpoint
    configuration (cell 6) and 40 in the configuration for all endpoints
    (cell 7); cell 9 holds the model parameters of the caller. *)
Definition fourLayers : state :=
  {| heap :=
       request (<["model" := VStr "gpt-4o"]> ∅)
               (<["azureOpenAI" := VRef 5]>
                  (<["openAI" := VRef 6]> (<["all" := VRef 7]> ∅)))
       ++ [ <["streamRate" := VNum 10]> ∅;
            <["streamRate" := VNum 20]> ∅;
            <["streamRate" := VNum 40]> ∅;
            <["streamRate" := VNum 5]> (<["model_parameters" := VRef 9]> ∅);
            ∅ ];
     userKeys := ∅ |}.

(** The same request where the configuration for all endpoints (cell 7) is
    an object without a stream rate. *)
Definition allWithoutRate : state :=
  {| heap :=
       request (<["model" := VStr "gpt-4o"]> ∅)
               (<["openAI" := VRef 6]> (<["all" := VRef 7]> ∅))
       ++ [ ∅;
            <["streamRate" := VNum 20]> ∅;
            <["titleModel" := VStr "gpt-4o-mini"]> ∅;
            <["streamRate" := VNum 5]> (<["model_parameters" := VRef 9]> ∅);
            ∅ ];
     userKeys := ∅ |}.

(** An Azure request for the model gpt-4-turbo, which the Azure
    configuration (cell 5) maps to the group g1 (cell 9).  Cell 10 holds the
    request-level endpoint options and cell 11 the model parameters of the
    caller; cells 12 and 13 are free for the headers of the group and of the
    request. *)
Definition azureRequest (locals config group endpointOption h12 h13 : obj) : state :=
  {| heap :=
       request (<["model" := VStr "gpt-4-turbo"]>
                  (<["endpoint" := VStr "azureOpenAI"]> ∅))
               (<["azureOpenAI" := VRef 5]> locals)
       ++ [ <["modelGroupMap" := VRef 6]> (<["groupMap" := VRef 7]> config);
            <["gpt-4-turbo" := VRef 8]> ∅;
            <["g1" := VRef 9]> ∅;
            <["group" := VStr "g1"]> ∅;
            group;
            endpointOption;
            ∅;
            h12;
            h13 ];
     userKeys := ∅ |}.

(** The group g1 holds a key and no stream rate; the Azure configuration of
    the application holds the stream rate 50. *)
Definition azureRate50 : state :=
  azureRequest ∅ (<["streamRate" := VNum 50]> ∅) (<["apiKey" := VStr "az-key"]> ∅)
    (<["model_parameters" := VRef 11]> ∅) ∅ ∅.

(** Neither the group nor the Azure configuration holds a stream rate. *)
Definition azureNoRate : state :=
  azureRequest ∅ ∅ (<["apiKey" := VStr "az-key"]> ∅)
    (<["model_parameters" := VRef 11]> ∅) ∅ ∅.

(** The group g1 and the request both supply the header X-Team. *)
Definition azureHeaderClash : state :=
  azureRequest ∅ ∅
    (<["apiKey" := VStr "az-key"]> (<["additionalHeaders" := VRef 12]> ∅))
    (<["model_parameters" := VRef 11]> (<["headers" := VRef 13]> ∅))
    (<["X-Team" := VStr "azure"]> ∅)
    (<["X-Team" := VStr "request"]> ∅).

(** The group g1 is serverless and has an API version. *)
Definition azureServerless : state :=
  azureRequest ∅ ∅
    (<["apiKey" := VStr "az-key"]>
       (<["serverless" := VBool true]> (<["version" := VStr "2024-02-01"]> ∅)))
    (<["model_parameters" := VRef 11]> ∅) ∅ ∅.


(** The Azure options and headers that the mapper answers for the group g1
    of [azureHeaderClash] and of [azureServerless]. *)
Definition mappedClash : MapperResult :=
  {| azureOptions :=
       <["azureOpenAIApiKey" := VStr "az-key"]>
         (<["azureOpenAIApiVersion" := VUndef]> ∅);
     baseURL := VUndef;
     headers := Some (<["X-Team" := VStr "azure"]> ∅);
     serverless := VBool false |}.

Definition mappedServerless : MapperResult :=
  {| azureOptions :=
       <["azureOpenAIApiKey" := VStr "az-key"]>
         (<["azureOpenAIApiVersion" := VStr "2024-02-01"]> ∅);
     baseURL := VUndef;
     headers := None;
     serverless := VBool true |}.

(** A [PUT /keys] request of the user user-1 (cell 2) whose body (cell 1)
    names the provider anthropic and carries a [userId] of its own; the
    store holds a key of the user victim for that provider. *)
Definition foreignUserId : state :=
  {| heap :=
       [ <["body" := VRef 1]> (<["user" := VRef 2]> ∅);
         <["name" := VStr "anthropic"]>
           (<["value" := VStr "sk-sent"]> (<["userId" := VStr "victim"]> ∅));
         <["id" := VStr "user-1"]> ∅ ];
     userKeys :=
       <[("victim", "anthropic") :=
           {| key_value := VStr "sk-victim"; key_expiresAt := VNull |}]> ∅ |}.

(** The same request without the [userId], and one that names the locked
    provider. *)
Definition ownKey : state :=
  {| heap :=
       [ <["body" := VRef 1]> (<["user" := VRef 2]> ∅);
         <["name" := VStr "anthropic"]> (<["value" := VStr "sk-sent"]> ∅);
         <["id" := VStr "user-1"]> ∅ ];
     userKeys := ∅ |}.

Definition lockedKey : state :=
  {| heap :=
       [ <["body" := VRef 1]> (<["user" := VRef 2]> ∅);
         <["name" := VStr "openAI"]> (<["value" := VStr "sk-sent"]> ∅);
         <["id" := VStr "user-1"]> ∅ ];
     userKeys :=
       <[("user-1", "openAI") :=
           {| key_value := VStr "sk-old"; key_expiresAt := VNull |}]> ∅ |}.

(** The merged options of a run of [resolveOptions]. *)
Definition merged (o : outcome (value * value * obj)) : obj :=
  (answer (VUndef, VUndef, ∅) o).2.

(** An environment that also sets the variables of a direct provider, which
    lines 21-30 destructure and nothing reads. *)
Definition directEnv : gmap string string :=
  <["OPENAI_API_KEY" := "sk-direct"]>
    (<["OPENAI_REVERSE_PROXY" := "https://proxy.test/v1"]>
    (<["AZURE_OPENAI_BASEURL" := "https://azure.test"]> relayEnv)).

(** An environment with an Azure key beside the relay key. *)
Definition azureEnv : gmap string string := <["AZURE_API_KEY" := "az-env"]> relayEnv.

(** Request-level endpoint options (cell 8) without model parameters. *)
Definition noModelParameters : state :=
  {| heap :=
       request (<["model" := VStr "gpt-4o"]> ∅) ∅
       ++ [ ∅; ∅; ∅; <["streamRate" := VNum 5]> ∅; ∅ ];
     userKeys := ∅ |}.

(** A request for the endpoint anthropic, where the application configures
    the endpoint openAI (cell 6) with a stream rate and no title model; the
    request-level endpoint options (cell 8) hold both. *)
Definition endpointConfigOnly : state :=
  {| heap :=
       request (<["model" := VStr "claude-3"]> (<["endpoint" := VStr "anthropic"]> ∅))
               (<["openAI" := VRef 6]> ∅)
       ++ [ ∅;
            <["streamRate" := VNum 20]> ∅;
            ∅;
            <["streamRate" := VNum 5]>
              (<["titleModel" := VStr "gpt-3.5-turbo"]>
              (<["model_parameters" := VRef 9]> ∅));
            ∅ ];
     userKeys := ∅ |}.

(** An Azure request where the application has no Azure configuration. *)
Definition azureUnconfigured : state :=
  {| heap :=
       request (<["model" := VStr "gpt-4-turbo"]>
                  (<["endpoint" := VStr "azureOpenAI"]> ∅)) ∅
       ++ [ ∅; ∅; ∅; <["model_parameters" := VRef 9]> ∅; ∅ ];
     userKeys := ∅ |}.

(** The Azure request of [azureNoRate] for a model that the Azure
    configuration does not map. *)
Definition unknownModel : Args :=
  {| req := VRef 0; res := VNull; endpointOption := VRef 10;
     optionsOnly := VBool false; overrideEndpoint := VUndef;
     overrideModel := VStr "gpt-5" |}.

(** The Azure request of [azureNoRate] with both overrides of the caller. *)
Definition overridden : Args :=
  {| req := VRef 0; res := VNull; endpointOption := VRef 10;
     optionsOnly := VBool false; overrideEndpoint := VStr "openAI";
     overrideModel := VStr "gpt-4o-mini" |}.

(** The Azure configuration holds title settings and the group g1 forces the
    prompt; the request-level endpoint options hold other values for the
    same names. *)
Definition azureSettings : state :=
  azureRequest ∅
    (<["titleConvo" := VBool true]> (<["titleModel" := VStr "current_model"]> ∅))
    (<["apiKey" := VStr "az-key"]> (<["forcePrompt" := VBool true]> ∅))
    (<["titleModel" := VStr "gpt-3.5-turbo"]>
       (<["titleMethod" := VStr "functions"]>
       (<["forcePrompt" := VBool false]>
       (<["model_parameters" := VRef 11]> ∅))))
    ∅ ∅.

(** A request of the user user-1 (cell 2) with the parameters of cell 1 and
    the query of cell 3; the store holds a key of user-1 and one of user-2. *)
Definition keyRequest (params query : obj) : state :=
  {| heap :=
       [ <["params" := VRef 1]> (<["query" := VRef 3]> (<["user" := VRef 2]> ∅));
         params;
         <["id" := VStr "user-1"]> ∅;
         query ];
     userKeys :=
       <[("user-1", "anthropic") :=
           {| key_value := VStr "sk-1"; key_expiresAt := VNum 1767225600000 |}]>
         (<[("user-2", "anthropic") :=
              {| key_value := VStr "sk-2"; key_expiresAt := VNull |}]> ∅) |}.

Definition namedKey : state :=
  keyRequest (<["name" := VStr "anthropic"]> ∅)
             (<["name" := VStr "anthropic"]> (<["all" := VStr "true"]> ∅)).

Definition bulkWithoutFlag : state := keyRequest ∅ (<["all" := VStr "yes"]> ∅).

(** A page with one marker, and a page with none. *)
Definition indexPage : string :=
  "<!DOCTYPE html><html " +:+ Server.marker +:+ "><body></body></html>".

Definition plainPage : string := "<html><body></body></html>".

(** A request for a page: cells 1 and 2 are [req.cookies] and
    [req.headers]. *)
Definition browser (cookies headers : obj) : state :=
  {| heap := [ <["cookies" := VRef 1]> (<["headers" := VRef 2]> ∅); cookies; headers ];
     userKeys := ∅ |}.

Definition noPage : Server.Page :=
  {| Server.responseHeaders := ∅; Server.contentType := EmptyString;
     Server.body := EmptyString |}.

Definition noResponse : KeysRoute.Response :=
  {| KeysRoute.status := 0; KeysRoute.payload := VUndef |}.

End Scenario.

(** * The vocabulary of the statements *)

Import Initialize.

#[global] Instance closure_eq_dec : EqDecision closure.
Proof. solve_decision. Defined.

#[global] Instance value_eq_dec : EqDecision value.
Proof. solve_decision. Defined.

#[global] Instance KeyRecord_eq_dec : EqDecision KeyRecord.
Proof. solve_decision. Defined.

#[global] Instance state_eq_dec : EqDecision state.
Proof. solve_decision. Defined.

#[global] Instance ConfigErrorKind_eq_dec : EqDecision ConfigErrorKind.
Proof. solve_decision. Defined.

#[global] Instance exn_eq_dec : EqDecision exn.
Proof. solve_decision. Defined.

#[global] Instance outcome_eq_dec {A} `{EqDecision A} : EqDecision (outcome A).
Proof. solve_decision. Defined.

#[global] Instance LLMOptions_eq_dec : EqDecision LLMOptions.
Proof. solve_decision. Defined.

#[global] Instance Client_eq_dec : EqDecision Client.
Proof. solve_decision. Defined.

#[global] Instance result_eq_dec : EqDecision result.
Proof. solve_decision. Defined.

#[global] Instance Response_eq_dec : EqDecision KeysRoute.Response.
Proof. solve_decision. Defined.

#[global] Instance MapperResult_eq_dec : EqDecision MapperResult.
Proof. solve_decision. Defined.

(** A computation that, when it answers, has left the state as it was. *)
Definition readonly {A} (m : M A) : Prop :=
  forall s a s', m s = Return a s' -> s' = s.

(** [grows s s']: every object of [s] is an object of [s'], unchanged, and
    the key store is the one of [s]. *)
Definition grows (s s' : state) : Prop :=
  heap s `prefix_of` heap s' /\ userKeys s' = userKeys s.

(** [stamps s s']: every object of [s] is an object of [s'] that differs at
    most in its [model] and [user] properties. *)
Definition stamps (s s' : state) : Prop :=
  userKeys s' = userKeys s /\
  forall l o, heap s !! l = Some o ->
    exists o', heap s' !! l = Some o' /\
      forall key, key <> "model" -> key <> "user" -> o' !! key = o !! key.

(** The outcome [o] with the key store replaced by [ks]. *)
Definition with_keys {T : Type} (ks : KeyStore) (o : outcome T) : outcome T :=
  match o with
  | Return a s => Return a (set_userKeys ks s)
  | Throw e s => Throw e (set_userKeys ks s)
  end.

(** A computation that runs the same whatever the key store holds, and
    leaves the key store alone. *)
Definition keyblind {A} (m : M A) : Prop :=
  forall s ks, m (set_userKeys ks s) = with_keys ks (m s).

(** No reference of the heap, and no argument, refers outside the heap. *)
Definition alive (h : list obj) (v : value) : Prop :=
  match v with
  | VRef l => l < length h
  | _ => True
  end.

(** Every reference held by an object of the heap is alive. *)
Definition closed (h : list obj) : Prop :=
  Forall (map_Forall (fun _ v => alive h v)) h.

#[global] Instance alive_dec h v : Decision (alive h v).
Proof. destruct v; cbn; apply _. Defined.

#[global] Instance closed_dec h : Decision (closed h).
Proof. unfold closed. apply _. Defined.

(** The request has a body, and the application its locals. *)
Definition wellFormed (s : state) (a : Args) : Prop :=
  closed (heap s) /\ alive (heap s) (endpointOption a) /\
  exists body locals,
    getprop (req a) "body" s = Return body s /\ nullish body = false /\
    appLocals a s = Return locals s /\ nullish locals = false.

(** The options of line 145 with the hook of lines 149-155 attached: the
    handler object and the one-element array are the two objects allocated
    behind [h0]. *)
Definition throttled (options : LLMOptions) (h0 : list obj) : LLMOptions :=
  {| llmConfig := <["callbacks" := VRef (length h0 + 1)]> (llmConfig options);
     configOptions := configOptions options |}.

(** The handler object [{ handleLLMNewToken }] that closes over the options
    object at [l], and the array that holds it alone. *)
Definition hookObjects (l : loc) (h0 : list obj) : list obj :=
  [ {["handleLLMNewToken" := VFun (ThrottleHook l)]};
    array_props 0 [VRef (length h0)] ].

(** Stream rate of the application's configuration for all endpoints, as
    read in the initial state. *)
Definition allStreamRate (a : Args) (s : state) (g : value) : Prop :=
  exists locals allConfig,
    appLocals a s = Return locals s /\
    getprop locals "all" s = Return allConfig s /\
    truthy allConfig = true /\
    getprop allConfig "streamRate" s = Return g s.

(** A credential as the configuration types it: a string, or nothing. *)
Definition credentialString (v : value) : Prop :=
  v = VUndef \/ exists key, v = VStr key.

Section Vocabulary.

Variable deps : Deps.
Variable env : gmap string string.

(** The reads of lines 73-83, made in the initial state. *)
Definition mapsTo (s : state) (c m : value) (r : MapperResult) : Prop :=
  exists modelGroupMap groupMap,
    getprop c "modelGroupMap" s = Return modelGroupMap s /\
    getprop c "groupMap" s = Return groupMap s /\
    mapModelToAzureConfig deps (heap s) m modelGroupMap groupMap = inr r.

(** The header object that line 86 builds and line 107 may extend. *)
Definition azureHeaders (r : MapperResult) (own : obj) (k : value) : obj :=
  let resolved := resolveHeaders deps (own ∪ default ∅ (headers r)) in
  if strict_eq (serverless r) (VBool true) then <["api-key" := k]> resolved
  else resolved.

(** [consumed r s' k l]: the result [r] is what the collaborator of the mode
    made of the credential [k] and of the options object at [l]. *)
Definition consumed (r : result) (s' : state) (k : value) (l : loc) : Prop :=
  match r with
  | ClientPair c key =>
      c = {| client_apiKey := k; client_options := VRef l |} /\ key = k
  | OptionsOnly opts =>
      exists h0, l < length h0 /\
        ((opts = getLLMConfig deps h0 k (VRef l) /\ heap s' = h0) \/
         (opts = throttled (getLLMConfig deps h0 k (VRef l)) h0 /\
          heap s' = h0 ++ hookObjects l h0))
  end.

(** The Azure collaborators answer credentials of that type. *)
Definition typedCredentials : Prop :=
  (forall h m g1 g2 r,
     mapModelToAzureConfig deps h m g1 g2 = inr r ->
     credentialString (field (azureOptions r) "azureOpenAIApiKey")) /\
  credentialString (field (getAzureCredentials deps env) "azureOpenAIApiKey").

(** No relay key: the variable is unset, or set to the empty string. *)
Definition relayKeyMissing : Prop :=
  env !! "OPENROUTER_KEY" = None \/ env !! "OPENROUTER_KEY" = Some "".

End Vocabulary.

#[global] Instance event_eq_dec : EqDecision Server.event.
Proof. solve_decision. Defined.

#[global] Instance Page_eq_dec : EqDecision Server.Page.
Proof. solve_decision. Defined.

(** The variables of the process environment that [initializeClient] reads
    itself. *)
Definition consultedVariables : list string :=
  ["PROXY"; "OPENAI_SUMMARIZE"; "DEBUG_OPENAI"; "OPENROUTER_KEY"].

(** Two environments that give the variables [names] the same values. *)
Definition agreeOn (names : list string) (env env' : gmap string string) : Prop :=
  Forall (fun name => env !! name = env' !! name) names.

(** A computation that only reads, and answers the same in every state that
    has grown from the one it answered in. *)
Definition stable {A} (m : M A) : Prop :=
  forall s a s', m s = Return a s' ->
    s' = s /\ forall s1, grows s s1 -> m s1 = Return a s1.

(** The group that lines 96-99 of initialize.js read the parameters of. *)
Definition groupOf (s : state) (c m groupName : value) : Prop :=
  exists modelGroupMap entry,
    getprop c "modelGroupMap" s = Return modelGroupMap s /\
    getprop modelGroupMap (to_string m) s = Return entry s /\
    getprop entry "group" s = Return groupName s.

(** No match of [pat] in [pre +:+ rest] starts inside [pre]. *)
Fixpoint noMatchWithin (pat pre rest : string) : bool :=
  match pre with
  | EmptyString => true
  | String c pre' =>
      negb (starts_with pat (pre +:+ rest)) && noMatchWithin pat pre' rest
  end.

(** The errors that the handler of [uncaughtException] lets the process
    survive: those whose message holds one of five texts. *)
Definition tolerated (m : string) : bool :=
  includes m "abort" || includes m "GoogleGenerativeAI" || includes m "fetch failed"
  || includes m "OpenAIError" || includes m "ChatCompletionMessage".

(** * Verification *)

(** ** Literal containment *)

Lemma starts_with_spec p s :
  starts_with p s = true <-> exists post, s = p +:+ post.
Proof.
  revert s. induction p as [|a p IH]; intros s; cbn.
  - split; [intros _; now exists s | reflexivity].
  - destruct s as [|b s]; cbn.
    + split; [discriminate | intros (post & H); discriminate H].
    + rewrite andb_true_iff, IH. split.
      * intros [Hab (post & ->)]. apply Ascii.eqb_eq in Hab as ->. now exists post.
      * intros (post & H). injection H as -> ->.
        split; [apply Ascii.eqb_refl | now exists post].
Qed.

(** [includes s sub] holds exactly when [sub] occurs in [s], character for
    character. *)
Lemma includes_spec s sub :
  includes s sub = true <-> exists pre post, s = pre +:+ sub +:+ post.
Proof.
  induction s as [|c s IH]; cbn [includes].
  - rewrite orb_false_r, starts_with_spec. split.
    + intros (post & H). now exists "", post.
    + intros (pre & post & H). destruct pre; [| discriminate H].
      now exists post.
  - rewrite orb_true_iff, starts_with_spec, IH. split.
    + intros [(post & H) | (pre & post & ->)].
      * now exists "", post.
      * now exists (String c pre), post.
    + intros (pre & post & H). destruct pre as [|c' pre].
      * left. now exists post.
      * right. injection H as -> ->. now exists pre, post.
Qed.

(** ** Runs of the monad *)

Lemma bind_Return {A B} (m : M A) (k : A -> M B) s b s' :
  bind m k s = Return b s' ->
  exists a s1, m s = Return a s1 /\ k a s1 = Return b s'.
Proof.
  unfold bind. destruct (m s) as [a s1|e s1]; [eauto | discriminate].
Qed.

Lemma bind_run {A B} (m : M A) (k : A -> M B) s a s1 :
  m s = Return a s1 -> bind m k s = k a s1.
Proof. unfold bind. now intros ->. Qed.

Lemma bind_Throw {A B} (m : M A) (k : A -> M B) s e s1 :
  m s = Throw e s1 -> bind m k s = Throw e s1.
Proof. unfold bind. now intros ->. Qed.

Lemma readonly_ret {A} (a : A) : readonly (ret a).
Proof. intros s b s' H. now inversion H. Qed.

Lemma readonly_throw {A} e : readonly (@throw A e).
Proof. intros s b s' H. discriminate H. Qed.

Lemma readonly_bind {A B} (m : M A) (k : A -> M B) :
  readonly m -> (forall a, readonly (k a)) -> readonly (bind m k).
Proof.
  intros Hm Hk s b s' H.
  apply bind_Return in H as (a & s1 & H1 & H2).
  apply Hm in H1 as ->. now apply Hk in H2.
Qed.

Lemma readonly_getprop v k : readonly (getprop v k).
Proof.
  intros s a s' H. unfold getprop in H.
  destruct v as [| | | | |l|]; try (now inversion H).
  destruct (heap s !! l); now inversion H.
Qed.

Lemma readonly_spread v : readonly (spread v).
Proof.
  intros s a s' H. unfold spread in H.
  destruct v as [| | | | |l|]; try (now inversion H).
  destruct (heap s !! l); now inversion H.
Qed.

Lemma readonly_call {A} (f : list obj -> exn + A) : readonly (call f).
Proof.
  intros s a s' H. unfold call in H.
  destruct (f (heap s)); now inversion H.
Qed.

Lemma readonly_coalesceM a m : readonly m -> readonly (coalesceM a m).
Proof.
  intros Hm. unfold coalesceM. destruct (nullish a); [exact Hm | apply readonly_ret].
Qed.

Lemma readonly_if {A} (c : bool) (m1 m2 : M A) :
  readonly m1 -> readonly m2 -> readonly (if c then m1 else m2).
Proof. now destruct c. Qed.

Create HintDb readonly.

#[export] Hint Resolve readonly_ret readonly_throw readonly_getprop readonly_spread
  readonly_call readonly_coalesceM readonly_if : readonly.

#[export] Hint Extern 2 (readonly (bind _ _)) =>
  apply readonly_bind; [ | intros ? ] : readonly.

Lemma grows_refl s : grows s s.
Proof. split; [reflexivity | reflexivity]. Qed.

Lemma grows_trans s1 s2 s3 : grows s1 s2 -> grows s2 s3 -> grows s1 s3.
Proof.
  intros [H1 K1] [H2 K2]. split; [now transitivity (heap s2) | congruence].
Qed.

Lemma grows_lookup s s' l o :
  grows s s' -> heap s !! l = Some o -> heap s' !! l = Some o.
Proof. intros [H _] Hl. exact (prefix_lookup_Some _ _ _ _ Hl H). Qed.

Lemma grows_length s s' : grows s s' -> length (heap s) <= length (heap s').
Proof. intros [H _]. now apply prefix_length. Qed.

Lemma alloc_Return o s v s' :
  alloc o s = Return v s' ->
  v = VRef (length (heap s)) /\ s' = set_heap (heap s ++ [o]) s.
Proof. unfold alloc. intros H. now inversion H. Qed.

Lemma alloc_at_Return o s l s' :
  alloc_at o s = Return l s' ->
  l = length (heap s) /\ s' = set_heap (heap s ++ [o]) s.
Proof. unfold alloc_at. intros H. now inversion H. Qed.

Lemma grows_append s o : grows s (set_heap (heap s ++ [o]) s).
Proof. split; [now apply prefix_app_r | reflexivity]. Qed.

Lemma prefix_snoc_heap (h t : list obj) : h `prefix_of` h ++ t.
Proof. now exists t. Qed.

(** A write to an object that [s0] does not hold keeps [s0]'s objects. *)
Lemma setprop_fresh_grows s0 s v k x s' :
  grows s0 s ->
  (forall l, v = VRef l -> length (heap s0) <= l) ->
  setprop v k x s = Return tt s' ->
  grows s0 s'.
Proof.
  intros [[t Ht] HK] Hv H. unfold setprop in H.
  destruct v as [| | | | |l|]; try discriminate H;
    try (injection H as <-; split; [now exists t | easy]).
  destruct (heap s !! l) as [o|] eqn:Hl; [|discriminate].
  injection H as <-. split; [|exact HK].
  simpl. rewrite Ht. specialize (Hv l eq_refl).
  rewrite insert_app_r_alt by lia. apply prefix_snoc_heap.
Qed.

Lemma getprop_grows v k s x s' :
  getprop v k s = Return x s -> grows s s' -> getprop v k s' = Return x s'.
Proof.
  intros H G. unfold getprop in *.
  destruct v as [| | | | |l|]; try (now inversion H).
  destruct (heap s !! l) as [o|] eqn:Hl; [|discriminate].
  rewrite (grows_lookup _ _ _ _ G Hl). now inversion H.
Qed.

Lemma spread_grows v s x s' :
  spread v s = Return x s -> grows s s' -> spread v s' = Return x s'.
Proof.
  intros H G. unfold spread in *.
  destruct v as [| | | | |l|]; try (now inversion H).
  destruct (heap s !! l) as [o|] eqn:Hl; [|discriminate].
  rewrite (grows_lookup _ _ _ _ G Hl). now inversion H.
Qed.

Lemma call_Return {A} (f : list obj -> exn + A) s a s' :
  call f s = Return a s' -> s' = s /\ f (heap s) = inr a.
Proof.
  unfold call. destruct (f (heap s)); intros H; inversion H; auto.
Qed.

Lemma setprop_Return v k x s u s' :
  setprop v k x s = Return u s' ->
  match v with
  | VRef l => exists o, heap s !! l = Some o /\
                        s' = set_heap (<[l := <[k := x]> o]> (heap s)) s
  | _ => s' = s
  end.
Proof.
  unfold setprop. destruct v as [| | | | |l|]; intros H; try discriminate H;
    try (now inversion H).
  destruct (heap s !! l) as [o|]; [|discriminate]. exists o. now inversion H.
Qed.

Lemma heap_set_heap h s : heap (set_heap h s) = h.
Proof. reflexivity. Qed.

Lemma set_heap_set_heap h1 h2 s : set_heap h2 (set_heap h1 s) = set_heap h2 s.
Proof. reflexivity. Qed.

Lemma grows_set_heap s t : grows s (set_heap (heap s ++ t) s).
Proof. split; [apply prefix_snoc_heap | reflexivity]. Qed.

Ltac readonly_tac :=
  repeat first
    [ apply readonly_ret | apply readonly_throw | apply readonly_getprop
    | apply readonly_spread | apply readonly_call | apply readonly_coalesceM
    | apply readonly_if | apply readonly_bind; [ | intros ? ] ].

(** Inversion of a run that answered: one hypothesis per step, and the
    state of every read identified with the state it read. *)
Ltac run_inv :=
  repeat match goal with
  | H : bind _ _ _ = Return _ _ |- _ =>
      let a := fresh "a" in let s1 := fresh "s" in let R := fresh "R" in
      apply bind_Return in H as (a & s1 & R & H); cbv beta in H
  | H : ret _ _ = Return _ _ |- _ => unfold ret in H; simplify_eq
  | H : throw _ _ = Return _ _ |- _ => discriminate H
  | H : (if ?c then _ else _) _ = Return _ _ |- _ => destruct c eqn:?
  | H : (let '(_, _) := ?p in _) _ = Return _ _ |- _ => destruct p
  | H : coalesceM ?a _ _ = Return _ _ |- _ => unfold coalesceM in H
  | H : alloc _ _ = Return _ _ |- _ =>
      apply alloc_Return in H as [? ?]; subst;
      rewrite ?set_heap_set_heap, ?heap_set_heap in *
  | H : alloc_at _ _ = Return _ _ |- _ =>
      apply alloc_at_Return in H as [? ?]; subst;
      rewrite ?set_heap_set_heap, ?heap_set_heap in *
  | H : ?m ?s = Return _ ?s1 |- _ =>
      is_var s1; assert_fails (constr_eq s s1);
      let E := fresh "E" in
      assert (E : readonly m) by (readonly_tac; auto with readonly);
      pose proof (E _ _ _ H); subst s1; clear E
  end.

(** ** The stages of [initializeClient] *)

Section Stages.

Variable deps : Deps.
Variable env : gmap string string.

Lemma readonly_appLocals a : readonly (appLocals a).
Proof. unfold appLocals. readonly_tac. Qed.

Lemma readonly_resolveModelName a : readonly (resolveModelName a).
Proof. unfold resolveModelName. readonly_tac. Qed.

Lemma readonly_resolveEndpoint a : readonly (resolveEndpoint deps a).
Proof. unfold resolveEndpoint. readonly_tac. Qed.

Lemma readonly_baseOptions a : readonly (baseOptions deps env a).
Proof. unfold baseOptions. readonly_tac. Qed.

Lemma readonly_groupField c g k : readonly (groupField c g k).
Proof. unfold groupField. readonly_tac. Qed.

Lemma readonly_requestHeaders co : readonly (requestHeaders co).
Proof. unfold requestHeaders. readonly_tac. Qed.

Lemma readonly_azureRate m : readonly (azureRate m).
Proof. unfold azureRate. destruct m; readonly_tac. Qed.

Lemma readonly_checkCredential e k : readonly (checkCredential deps e k).
Proof. unfold checkCredential. readonly_tac. Qed.

Lemma readonly_configLayers a b co : readonly (configLayers deps a b co).
Proof.
  unfold configLayers.
  repeat first [ apply readonly_appLocals | readonly_tac ].
Qed.

Lemma readonly_prologue a : readonly (prologue deps env a).
Proof.
  unfold prologue.
  repeat first [ apply readonly_resolveModelName | apply readonly_resolveEndpoint
               | apply readonly_baseOptions | readonly_tac ].
Qed.

End Stages.

#[export] Hint Resolve readonly_appLocals readonly_resolveModelName
  readonly_requestHeaders
  readonly_resolveEndpoint readonly_baseOptions readonly_groupField
  readonly_azureRate readonly_checkCredential readonly_configLayers
  readonly_prologue : readonly.

Lemma field_insert_eq (o : obj) k v : field (<[k := v]> o) k = v.
Proof. unfold field. now rewrite lookup_insert_eq. Qed.

Lemma field_insert_ne (o : obj) k k' v :
  k <> k' -> field (<[k := v]> o) k' = field o k'.
Proof. intros H. unfold field. now rewrite lookup_insert_ne. Qed.

Ltac field_simpl :=
  repeat first [ rewrite field_insert_eq
               | rewrite field_insert_ne by discriminate ].

Ltac field_simpl_in H :=
  repeat first [ rewrite field_insert_eq in H
               | rewrite field_insert_ne in H by discriminate ].

Lemma heap_lookup_fresh (h t : list obj) i : (h ++ t) !! (length h + i) = t !! i.
Proof. rewrite lookup_app_r by lia. f_equal. lia. Qed.

Lemma heap_lookup_first (h t : list obj) : (h ++ t) !! length h = t !! 0.
Proof. rewrite lookup_app_r by lia. f_equal. lia. Qed.

Lemma heap_insert_first (h t : list obj) x :
  <[length h := x]> (h ++ t) = h ++ <[0 := x]> t.
Proof. rewrite insert_app_r_alt by lia. do 2 f_equal. lia. Qed.

(** Heaps are brought to the form [h ++ t], and the addresses behind [h] to
    the form [length h + i]. *)
Ltac norm_heap :=
  rewrite ?set_heap_set_heap, ?heap_set_heap, <- ?app_assoc, ?length_app in *;
  cbn [length] in *;
  rewrite <- ?Nat.add_assoc in *; cbn [Nat.add] in *;
  rewrite ?insert_app_r, ?heap_insert_first in *;
  cbn [app insert list_insert] in *;
  rewrite ?heap_lookup_fresh, ?heap_lookup_first in *;
  cbn [app lookup list_lookup insert list_insert] in *.

(** Inversion of the one assignment to a property, into [R]. *)
Ltac setprop_inv R :=
  match goal with
  | H : setprop _ _ _ _ = Return _ _ |- _ =>
      field_simpl_in H; apply setprop_Return in H; cbn beta iota in H;
      rename H into R
  end.

Lemma run_det {A} (m : M A) s a1 s1 a2 s2 :
  m s = Return a1 s1 -> m s = Return a2 s2 -> a1 = a2 /\ s1 = s2.
Proof. intros H1 H2. rewrite H1 in H2. now inversion H2. Qed.

Lemma getprop_later v k s t x y s2 :
  getprop v k s = Return x s ->
  getprop v k (set_heap (heap s ++ t) s) = Return y s2 ->
  y = x.
Proof.
  intros H1 H2.
  rewrite (getprop_grows _ _ _ _ _ H1 (grows_set_heap s t)) in H2.
  now inversion H2.
Qed.

Lemma getprop_new s t k i o x s2 :
  getprop (VRef (length (heap s) + i)) k (set_heap (heap s ++ t) s) = Return x s2 ->
  t !! i = Some o ->
  x = field o k.
Proof.
  intros H Ht. unfold getprop in H. rewrite heap_set_heap, heap_lookup_fresh, Ht in H.
  now inversion H.
Qed.

Lemma getprop_new0 s t k o x s2 :
  getprop (VRef (length (heap s))) k (set_heap (heap s ++ t) s) = Return x s2 ->
  t !! 0 = Some o ->
  x = field o k.
Proof.
  intros H Ht. apply (getprop_new s t k 0 o x s2); [| exact Ht].
  now rewrite Nat.add_0_r.
Qed.

(** Reads of the objects that the run itself has allocated. *)
Ltac new_reads :=
  repeat match goal with
  | R : getprop (VRef (length (heap ?s))) _ (set_heap (heap ?s ++ _) ?s) = Return ?x _ |- _ =>
      is_var x; eapply getprop_new0 in R; [ | reflexivity ]; subst x
  | R : getprop (VRef (length (heap ?s) + _)) _ (set_heap (heap ?s ++ _) ?s) = Return ?x _ |- _ =>
      is_var x; eapply getprop_new in R; [ | reflexivity ]; subst x
  end.

Lemma requestHeaders_later co v s t own y s2 :
  requestHeaders co s = Return own s ->
  requestHeaders (<["reverseProxyUrl" := v]> co) (set_heap (heap s ++ t) s)
    = Return y s2 ->
  y = own.
Proof.
  unfold requestHeaders. rewrite field_insert_ne by discriminate.
  destruct (nullish (field co "headers")).
  - intros H1 H2. unfold ret in *. congruence.
  - intros H1 H2.
    rewrite (spread_grows _ _ _ _ H1 (grows_set_heap s t)) in H2.
    now inversion H2.
Qed.

Lemma strict_eq_true v : strict_eq v (VBool true) = true -> v = VBool true.
Proof. destruct v as [| |[]| | | |]; now intros H. Qed.

(** A read of the initial state, [HS], decides the same read made later. *)
Ltac later HS :=
  match type of HS with
  | getprop ?v ?k ?s = Return ?x ?s =>
      match goal with
      | R : getprop v k (set_heap (heap s ++ _) s) = Return ?y _ |- _ =>
          assert (y = x) by exact (getprop_later _ _ _ _ _ _ _ HS R); subst y
      | R : getprop v k s = Return ?y _ |- _ =>
          assert_fails (constr_eq R HS);
          assert (y = x) by (pose proof (run_det _ _ _ _ _ _ R HS); tauto);
          subst y
      end
  end.

(** The same for any computation, read again in the same state. *)
Ltac again HS :=
  match type of HS with
  | ?m ?s = Return ?x ?s =>
      repeat match goal with
      | R : m s = Return ?y _ |- _ =>
          assert_fails (constr_eq y x);
          assert (y = x) by (pose proof (run_det _ _ _ _ _ _ R HS); tauto);
          subst y
      end
  end.

(** ** The Azure layer (lines 68-112) *)

Section AzureLayer.

Variable deps : Deps.
Variable env : gmap string string.

Lemma azureMapped_grows c m co s k co' s' :
  azureMapped deps c m co s = Return (k, co') s' -> grows s s'.
Proof.
  unfold azureMapped. intros H. run_inv; norm_heap; try apply grows_set_heap.
  all: setprop_inv W; destruct W as (o & Ho & ->); norm_heap.
  all: apply grows_set_heap.
Qed.

Lemma azureDefault_grows co s k co' s' :
  azureDefault deps env co s = Return (k, co') s' -> grows s s'.
Proof.
  unfold azureDefault, userProvidesKey. intros H. run_inv; norm_heap.
  apply grows_set_heap.
Qed.

Lemma azureLayer_grows a m e co s b k co' s' :
  azureLayer deps env a m e co s = Return (b, k, co') s' -> grows s s'.
Proof.
  unfold azureLayer. intros H. run_inv; try apply grows_refl.
  - destruct a1. eapply azureMapped_grows; eassumption.
  - destruct a1. eapply azureDefault_grows; eassumption.
Qed.

Lemma azureLayer_isAzure a m e co s b k co' s' :
  azureLayer deps env a m e co s = Return (b, k, co') s' ->
  b = strict_eq e (VStr (EModelEndpoint_azureOpenAI deps)).
Proof. unfold azureLayer. intros H. run_inv; reflexivity. Qed.

(** A request for another endpoint: the relay key, and the options as they
    were. *)
Lemma azureLayer_relay a m e co s :
  strict_eq e (VStr (EModelEndpoint_azureOpenAI deps)) = false ->
  azureLayer deps env a m e co s = Return (false, relayKey env, co) s.
Proof. unfold azureLayer. intros ->. reflexivity. Qed.

(** An Azure request with an Azure configuration runs lines 73-108. *)
Lemma azureLayer_mapped a m e co s locals c b k co' s' :
  strict_eq e (VStr (EModelEndpoint_azureOpenAI deps)) = true ->
  appLocals a s = Return locals s ->
  getprop locals (EModelEndpoint_azureOpenAI deps) s = Return c s ->
  truthy c = true ->
  azureLayer deps env a m e co s = Return (b, k, co') s' ->
  b = true /\ azureMapped deps c m co s = Return (k, co') s'.
Proof.
  unfold azureLayer. intros -> HL HC HT H.
  apply bind_Return in H as (c' & s1 & R & H).
  rewrite (bind_run _ _ _ _ _ HL), HC in R. simplify_eq.
  rewrite HT in H. cbn [andb] in H.
  run_inv. destruct a0. now split.
Qed.

(** Line 92: the stream rate of the Azure layer. *)
Lemma azureMapped_streamRate c name co s k co' s' sr :
  azureMapped deps c (VStr name) co s = Return (k, co') s' ->
  getprop c "streamRate" s = Return sr s ->
  field co' "streamRate" =
    coalesce sr (VNum (if includes name "gpt-4" then 30 else 17)).
Proof.
  unfold azureMapped. intros H HS.
  run_inv; norm_heap; later HS.
  all: match goal with
       | R : azureRate _ _ = Return _ _ |- _ =>
           unfold azureRate, ret in R; simplify_eq
       end.
  all: now field_simpl.
Qed.

Ltac mapper_inv HM :=
  destruct HM as (mgm & gm & Hmgm & Hgm & Hmap);
  later Hmgm; later Hgm;
  match goal with
  | R : call _ _ = Return _ _ |- _ =>
      apply call_Return in R as [_ R]; rewrite Hmap in R; simplify_eq
  end.

Lemma azureMapped_credential c m co s k co' s' r :
  azureMapped deps c m co s = Return (k, co') s' ->
  mapsTo deps s c m r ->
  k = field (azureOptions r) "azureOpenAIApiKey".
Proof.
  unfold azureMapped. intros H HM.
  run_inv; mapper_inv HM; norm_heap; new_reads; reflexivity.
Qed.

(** Lines 85-108, for the group that the model maps to: the header object
    is the second object allocated, after the Azure options. *)
Lemma azureMapped_headers c m co s k co' s' r own :
  azureMapped deps c m co s = Return (k, co') s' ->
  mapsTo deps s c m r ->
  requestHeaders co s = Return own s ->
  field co' "headers" = VRef (length (heap s) + 1) /\
  heap s' !! (length (heap s) + 1) = Some (azureHeaders deps r own k).
Proof.
  unfold azureMapped. intros H HM HO.
  run_inv; mapper_inv HM; norm_heap; new_reads.
  all: match goal with
       | R : requestHeaders _ _ = Return ?y _ |- _ =>
           assert (y = own) by exact (requestHeaders_later _ _ _ _ _ _ _ HO R);
           subst y
       end.
  all: try (setprop_inv W; destruct W as (o & Ho & ->)); norm_heap.
  all: unfold azureHeaders; field_simpl;
    match goal with E : strict_eq _ _ = _ |- _ => rewrite E end.
  all: simplify_eq; split; reflexivity.
Qed.

(** Lines 102-106 for a serverless group. *)
Lemma azureMapped_serverless c m co s k co' s' r :
  azureMapped deps c m co s = Return (k, co') s' ->
  mapsTo deps s c m r ->
  serverless r = VBool true ->
  let version := field (azureOptions r) "azureOpenAIApiVersion" in
  field co' "azure" = VBool false /\
  field co' "defaultQuery" =
    (if truthy version then VRef (length (heap s) + 2) else VUndef) /\
  (truthy version = true ->
   heap s' !! (length (heap s) + 2) = Some {["api-version" := version]}).
Proof.
  unfold azureMapped. intros H HM HS.
  run_inv; mapper_inv HM; norm_heap; new_reads.
  all: try (rewrite HS in *; discriminate).
  all: setprop_inv W; destruct W as (o & Ho & ->); norm_heap.
  all: match goal with E : truthy _ = _ |- _ => cbn zeta; rewrite E end.
  all: field_simpl; rewrite HS.
  all: repeat split; try reflexivity; try discriminate.
Qed.

(** Line 107 for a serverless group: the header object holds the key. *)
Lemma azureMapped_api_key c m co s k co' s' r :
  azureMapped deps c m co s = Return (k, co') s' ->
  mapsTo deps s c m r ->
  serverless r = VBool true ->
  field co' "headers" = VRef (length (heap s) + 1) /\
  exists h, heap s' !! (length (heap s) + 1) = Some h /\ h !! "api-key" = Some k.
Proof.
  unfold azureMapped. intros H HM HS.
  run_inv; mapper_inv HM; norm_heap; new_reads.
  all: try (rewrite HS in *; discriminate).
  all: setprop_inv W; destruct W as (o & Ho & ->); norm_heap.
  all: field_simpl; split; [reflexivity |].
  all: eexists; split; [reflexivity | apply lookup_insert_eq].
Qed.

(** Line 102 for a group that is not serverless: the Azure options of the
    group are attached. *)
Lemma azureMapped_azure c m co s k co' s' r :
  azureMapped deps c m co s = Return (k, co') s' ->
  mapsTo deps s c m r ->
  truthy (serverless r) = false ->
  field co' "azure" = VRef (length (heap s)) /\
  heap s' !! length (heap s) = Some (azureOptions r).
Proof.
  unfold azureMapped. intros H HM HS.
  run_inv; mapper_inv HM; norm_heap; new_reads.
  all: try (match goal with
            | E : strict_eq _ (VBool true) = true |- _ =>
                apply strict_eq_true in E; rewrite E in HS; discriminate HS
            end).
  field_simpl. unfold js_and, js_not. rewrite HS. cbn. split; reflexivity.
Qed.


(** Every run of lines 73-108 has called the mapper on the maps of the
    Azure configuration. *)
Lemma azureMapped_mapsTo c m co s k co' s' :
  azureMapped deps c m co s = Return (k, co') s' ->
  exists r, mapsTo deps s c m r.
Proof.
  unfold azureMapped. intros H.
  apply bind_Return in H as (mgm & s0 & R1 & H).
  assert (s0 = s) by exact (readonly_getprop _ _ _ _ _ R1). subst s0.
  apply bind_Return in H as (gm & s0 & R2 & H).
  assert (s0 = s) by exact (readonly_getprop _ _ _ _ _ R2). subst s0.
  apply bind_Return in H as (r & s0 & R3 & H).
  apply call_Return in R3 as [-> R3].
  exists r, mgm, gm. auto.
Qed.

Lemma azureDefault_credential co s k co' s' :
  azureDefault deps env co s = Return (k, co') s' ->
  k = field (getAzureCredentials deps env) "azureOpenAIApiKey".
Proof.
  unfold azureDefault, userProvidesKey. intros H.
  run_inv. field_simpl_in R1. norm_heap. new_reads. reflexivity.
Qed.

(** The three sources of the credential: the relay key, the Azure options
    of the mapped group, the Azure credentials of the environment. *)
Lemma azureLayer_credential a m e co s b k co' s' :
  azureLayer deps env a m e co s = Return (b, k, co') s' ->
  (b = false /\ k = relayKey env) \/
  (exists h mm g1 g2 r, mapModelToAzureConfig deps h mm g1 g2 = inr r /\
                        k = field (azureOptions r) "azureOpenAIApiKey") \/
  k = field (getAzureCredentials deps env) "azureOpenAIApiKey".
Proof.
  unfold azureLayer. intros H. run_inv.
  all: first
    [ solve [left; auto]
    | match goal with
      | R : azureMapped _ _ _ _ _ = Return ?p _ |- _ =>
          right; left; destruct p as [k' co''];
          destruct (azureMapped_mapsTo _ _ _ _ _ _ _ R) as (r & HM);
          pose proof (azureMapped_credential _ _ _ _ _ _ _ _ R HM) as ->;
          destruct HM as (mgm & gm & _ & _ & HM); eauto 10
      | R : azureDefault _ _ _ _ = Return ?p _ |- _ =>
          right; right; destruct p as [k' co''];
          eapply azureDefault_credential; eassumption
      end ].
Qed.

End AzureLayer.

(** ** The configuration layers and the credential check (lines 114-138) *)

Section Resolution.

Variable deps : Deps.
Variable env : gmap string string.

Lemma appLocals_grows a s locals s' :
  appLocals a s = Return locals s -> grows s s' ->
  appLocals a s' = Return locals s'.
Proof.
  unfold appLocals. intros H G. run_inv.
  rewrite (bind_run _ _ _ _ _ (getprop_grows _ _ _ _ _ R G)).
  eapply getprop_grows; eassumption.
Qed.

(** Lines 122-126: where the application configures all endpoints, the
    stream rate is the one of that configuration. *)
Lemma configLayers_all a b co s co' s' locals allConfig g :
  appLocals a s = Return locals s ->
  getprop locals "all" s = Return allConfig s ->
  truthy allConfig = true ->
  getprop allConfig "streamRate" s = Return g s ->
  configLayers deps a b co s = Return co' s' ->
  co' !! "streamRate" = Some g.
Proof.
  unfold configLayers. intros HL HA HT HG H.
  run_inv; again HL; again HA; try congruence; again HG.
  all: apply lookup_insert_eq.
Qed.

(** Lines 114-126 assign [streamRate] and [titleModel] only. *)
Lemma configLayers_other a b co s co' s' key :
  configLayers deps a b co s = Return co' s' ->
  key <> "streamRate" -> key <> "titleModel" ->
  co' !! key = co !! key.
Proof.
  unfold configLayers. intros H N1 N2. run_inv.
  all: now rewrite ?lookup_insert_ne by congruence.
Qed.

(** Lines 114-126 for an Azure request, where the application does not
    configure all endpoints: nothing is assigned. *)
Lemma configLayers_azure a co s co' s' locals allConfig :
  appLocals a s = Return locals s ->
  getprop locals "all" s = Return allConfig s ->
  truthy allConfig = false ->
  configLayers deps a true co s = Return co' s' ->
  co' = co.
Proof.
  unfold configLayers. intros HL HA HT H.
  run_inv; again HL; again HA; try congruence; reflexivity.
Qed.

(** Lines 60-66: the merged options start as the request-level endpoint
    options, completed by four defaults. *)
Lemma baseOptions_Return a s co s' :
  baseOptions deps env a s = Return co s' ->
  exists ep, spread (endpointOption a) s = Return ep s /\
    forall key, key <> "contextStrategy" -> key <> "proxy" -> key <> "debug" ->
                key <> "reverseProxyUrl" -> co !! key = ep !! key.
Proof.
  unfold baseOptions. intros H. run_inv.
  eexists. split; [eassumption |]. intros key N1 N2 N3 N4.
  destruct (a0 !! key) as [v|] eqn:E.
  - now apply lookup_union_Some_l.
  - apply lookup_union_None_2; [exact E |].
    now rewrite !lookup_insert_ne by congruence.
Qed.

Lemma checkCredential_Return e k s u s' :
  checkCredential deps e k s = Return u s' -> truthy k = true.
Proof.
  unfold checkCredential, userProvidesKey, bit_and. cbn.
  destruct (truthy k); [reflexivity | discriminate].
Qed.

Lemma prologue_Return a s m e co s' :
  prologue deps env a s = Return (m, e, co) s' ->
  s' = s /\ resolveModelName a s = Return m s /\
  resolveEndpoint deps a s = Return e s /\
  baseOptions deps env a s = Return co s.
Proof.
  unfold prologue. intros H. run_inv. auto.
Qed.

(** The run of lines 21-138, stage by stage. *)
Lemma resolveOptions_Return a s m k co s1 :
  resolveOptions deps env a s = Return (m, k, co) s1 ->
  exists e co0 b co1,
    prologue deps env a s = Return (m, e, co0) s /\
    azureLayer deps env a m e co0 s = Return (b, k, co1) s1 /\
    configLayers deps a b co1 s1 = Return co s1 /\
    truthy k = true /\
    grows s s1.
Proof.
  unfold resolveOptions. intros H.
  apply bind_Return in H as ([[m' e] co0] & s0 & R & H).
  assert (s0 = s) by exact (readonly_prologue _ _ _ _ _ _ R). subst s0.
  apply bind_Return in H as ([[b k'] co1] & s2 & R0 & H).
  run_inv.
  exists e, co0, b, co1. repeat split; try assumption.
  - eapply checkCredential_Return; eassumption.
  - eapply azureLayer_grows; eassumption.
  - eapply azureLayer_grows; eassumption.
Qed.

End Resolution.

(** ** The two modes (lines 140-163) *)

Lemma stamps_refl s : stamps s s.
Proof. split; [reflexivity | eauto]. Qed.

Lemma stamps_trans s1 s2 s3 : stamps s1 s2 -> stamps s2 s3 -> stamps s1 s3.
Proof.
  intros [K1 H1] [K2 H2]. split; [congruence |].
  intros l o Hl. destruct (H1 l o Hl) as (o' & Hl' & E1).
  destruct (H2 l o' Hl') as (o'' & Hl'' & E2).
  exists o''. split; [exact Hl'' |]. intros key N1 N2.
  now rewrite E2, E1.
Qed.

Lemma grows_stamps s s' : grows s s' -> stamps s s'.
Proof.
  intros G. split; [apply G |].
  intros l o Hl. exists o. split; [eapply grows_lookup; eassumption | auto].
Qed.

Lemma setprop_stamps v k x s u s' :
  k = "model" \/ k = "user" ->
  setprop v k x s = Return u s' -> stamps s s'.
Proof.
  intros Hk H. apply setprop_Return in H.
  destruct v as [| | | | |l|]; try (subst; apply stamps_refl).
  destruct H as (o & Ho & ->). split; [reflexivity |].
  intros l0 o0 Hl0. cbn [heap set_heap].
  destruct (decide (l0 = l)) as [->|N].
  - exists (<[k := x]> o). split.
    + apply list_lookup_insert_eq. eapply lookup_lt_Some; eassumption.
    + intros key N1 N2. rewrite lookup_insert_ne by (destruct Hk; congruence).
      congruence.
  - exists o0. split; [now rewrite list_lookup_insert_ne | auto].
Qed.

Lemma setprop_length v k x s u s' :
  setprop v k x s = Return u s' -> length (heap s') = length (heap s).
Proof.
  intros H. apply setprop_Return in H.
  destruct v as [| | | | |l|]; try (now subst).
  destruct H as (o & Ho & ->). cbn [heap set_heap]. apply length_insert.
Qed.

Section Modes.

Variable deps : Deps.
Variable env : gmap string string.

(** Lines 141-144: the new options object is the first object behind the
    heap of [s]; it holds the merged options and, under [modelOptions], the
    model parameters of the caller unless the merged options have a
    [modelOptions] of their own. *)
Lemma stampModelOptions_Return a m co s l s' :
  stampModelOptions a m co s = Return l s' ->
  l = length (heap s) /\ stamps s s' /\
  exists mp o,
    getprop (endpointOption a) "model_parameters" s = Return mp s /\
    heap s' !! l = Some o /\
    forall key, key <> "user" -> o !! key = (co ∪ {["modelOptions" := mp]}) !! key.
Proof.
  unfold stampModelOptions. intros H.
  apply bind_Return in H as (mp & s0 & Rmp & H).
  assert (s0 = s) by exact (readonly_getprop _ _ _ _ _ Rmp). subst s0.
  apply bind_Return in H as ([] & s2 & Rset & H).
  pose proof (setprop_length _ _ _ _ _ _ Rset) as Hlen.
  pose proof (setprop_stamps _ _ _ _ _ _ (or_introl eq_refl) Rset) as St2.
  apply bind_Return in H as (l' & s3 & Ral & H).
  apply alloc_at_Return in Ral as [-> ->].
  apply bind_Return in H as (stamped & s4 & Rst & H).
  assert (s4 = set_heap (heap s2 ++ [co ∪ {["modelOptions" := mp]}]) s2)
    by exact (readonly_getprop _ _ _ _ _ Rst). subst s4.
  apply bind_Return in H as (user & s5 & Ru & H).
  assert (s5 = set_heap (heap s2 ++ [co ∪ {["modelOptions" := mp]}]) s2)
    by exact (readonly_getprop _ _ _ _ _ Ru). subst s5.
  apply bind_Return in H as (id & s6 & Rid & H).
  assert (s6 = set_heap (heap s2 ++ [co ∪ {["modelOptions" := mp]}]) s2)
    by exact (readonly_getprop _ _ _ _ _ Rid). subst s6.
  apply bind_Return in H as ([] & s7 & Rset2 & H).
  unfold ret in H. simplify_eq.
  pose proof (setprop_stamps _ _ _ _ _ _ (or_intror eq_refl) Rset2) as St3.
  split; [exact Hlen |]. split.
  { eapply stamps_trans; [exact St2 |].
    eapply stamps_trans; [| exact St3].
    apply grows_stamps, grows_set_heap. }
  exists mp. destruct St3 as [_ St3].
  destruct (St3 (length (heap s2)) (co ∪ {["modelOptions" := mp]})) as (o & Ho & Eo).
  { cbn [heap set_heap]. now rewrite heap_lookup_first. }
  exists o. split; [exact Rmp |]. split; [exact Ho |].
  intros key Nk.
  destruct (decide (key = "model")) as [->|Nm]; [| now apply Eo].
  (* the second write is to [user], so [model] is as allocated *)
  apply setprop_Return in Rset2.
  destruct stamped as [| | | | |ls|]; try (subst s'; cbn [heap set_heap] in Ho;
    rewrite heap_lookup_first in Ho; cbn in Ho; now simplify_eq).
  destruct Rset2 as (o2 & Ho2 & ->). cbn [heap set_heap] in *.
  destruct (decide (ls = length (heap s2))) as [->|N].
  - rewrite list_lookup_insert_eq in Ho
      by (rewrite length_app; cbn; lia).
    rewrite heap_lookup_first in Ho2. cbn in Ho2. simplify_eq.
    now rewrite lookup_insert_ne by discriminate.
  - rewrite list_lookup_insert_ne in Ho by congruence.
    rewrite heap_lookup_first in Ho. cbn in Ho. now simplify_eq.
Qed.



(** Lines 145-156, as a function of the stream rate of the options object. *)
Lemma throttledOptions_Return k l s r s' :
  throttledOptions deps k l s = Return r s' ->
  exists o, heap s !! l = Some o /\
    if truthy (field o "streamRate") then
      s' = set_heap (heap s ++ hookObjects l (heap s)) s /\
      r = OptionsOnly (throttled (getLLMConfig deps (heap s) k (VRef l)) (heap s))
    else
      s' = s /\ r = OptionsOnly (getLLMConfig deps (heap s) k (VRef l)).
Proof.
  unfold throttledOptions, attachThrottle. intros H.
  apply bind_Return in H as (opts & s0 & Rc & H).
  apply call_Return in Rc as [-> Rc]. simplify_eq.
  apply bind_Return in H as (sr & s0 & Rs & H).
  assert (s0 = s) by exact (readonly_getprop _ _ _ _ _ Rs). subst s0.
  unfold getprop in Rs. destruct (heap s !! l) as [o|] eqn:Hl; [|discriminate].
  exists o. split; [reflexivity |]. simplify_eq. fold (field o "streamRate") in *.
  destruct (truthy (field o "streamRate")); cbn [negb] in H.
  - run_inv. norm_heap. split; reflexivity.
  - run_inv. split; reflexivity.
Qed.

Lemma throttledOptions_grows k l s r s' :
  throttledOptions deps k l s = Return r s' -> grows s s'.
Proof.
  intros H. apply throttledOptions_Return in H as (o & _ & H).
  destruct (truthy (field o "streamRate")); destruct H as [-> _].
  - apply grows_set_heap.
  - apply grows_refl.
Qed.

(** Lines 159-163. *)
Lemma fullClientMode_run a k co s :
  fullClientMode a k co s =
    Return (ClientPair {| client_apiKey := k;
                          client_options := VRef (length (heap s)) |} k)
           (set_heap (heap s ++ [co ∪ <["req" := req a]> (<["res" := res a]> ∅)]) s).
Proof. reflexivity. Qed.

(** The hook sleeps for the stream rate of the object it closes over. *)
Lemma call_closure_run l s o :
  heap s !! l = Some o ->
  call_closure (ThrottleHook l) s = Return [Sleep (field o "streamRate")] s.
Proof. intros H. unfold call_closure, bind, getprop. now rewrite H. Qed.

Lemma onTokens_run n l s o :
  heap s !! l = Some o ->
  onTokens n (ThrottleHook l) s = Return (repeat (Sleep (field o "streamRate")) n) s.
Proof.
  intros H. induction n as [|n IH]; [reflexivity |].
  cbn [onTokens repeat].
  rewrite (bind_run _ _ _ _ _ (call_closure_run _ _ _ H)).
  now rewrite (bind_run _ _ _ _ _ IH).
Qed.

Lemma initializeClient_optionsOnly a s r s' :
  truthy (optionsOnly a) = true ->
  initializeClient deps env a s = Return r s' ->
  exists m k co s1 l s2,
    resolveOptions deps env a s = Return (m, k, co) s1 /\
    stampModelOptions a m co s1 = Return l s2 /\
    throttledOptions deps k l s2 = Return r s'.
Proof.
  unfold initializeClient, optionsOnlyMode. intros Ho H.
  apply bind_Return in H as ([[m k] co] & s1 & R & H).
  rewrite Ho in H.
  apply bind_Return in H as (l & s2 & R2 & H).
  exists m, k, co, s1, l, s2. auto.
Qed.

Lemma initializeClient_fullClient a s r s' :
  truthy (optionsOnly a) = false ->
  initializeClient deps env a s = Return r s' ->
  exists m k co s1,
    resolveOptions deps env a s = Return (m, k, co) s1 /\
    fullClientMode a k co s1 = Return r s'.
Proof.
  unfold initializeClient. intros Ho H.
  apply bind_Return in H as ([[m k] co] & s1 & R & H).
  rewrite Ho in H.
  exists m, k, co, s1. auto.
Qed.

(** Every answer of [initializeClient]: the merged options of lines 21-138
    were copied into a fresh object, which the collaborator of the mode
    consumed together with the credential. *)
Lemma initializeClient_Return a s r s' :
  initializeClient deps env a s = Return r s' ->
  exists m k co s1 o,
    resolveOptions deps env a s = Return (m, k, co) s1 /\
    stamps s1 s' /\
    heap s' !! length (heap s1) = Some o /\
    (forall key, key <> "user" -> key <> "modelOptions" ->
                 key <> "req" -> key <> "res" -> o !! key = co !! key) /\
    consumed deps r s' k (length (heap s1)).
Proof.
  intros H. destruct (truthy (optionsOnly a)) eqn:Ho.
  - apply (initializeClient_optionsOnly _ _ _ _ Ho) in H
      as (m & k & co & s1 & l & s2 & R & Rst & Rth).
    apply stampModelOptions_Return in Rst as (-> & St & mp & o & _ & Hl & Eo).
    pose proof (throttledOptions_grows _ _ _ _ _ Rth) as G.
    exists m, k, co, s1, o. split; [exact R |]. split.
    { eapply stamps_trans; [exact St | now apply grows_stamps]. }
    split; [eapply grows_lookup; eassumption |]. split.
    { intros key N1 N2 N3 N4. rewrite (Eo key N1).
      rewrite lookup_union_l; [reflexivity |].
      now apply lookup_singleton_ne. }
    apply throttledOptions_Return in Rth as (o' & Hl' & Rth).
    assert (Hlt : length (heap s1) < length (heap s2))
      by (eapply lookup_lt_Some; eassumption).
    destruct (truthy (field o' "streamRate")); destruct Rth as [-> ->]; cbn.
    + exists (heap s2). split; [exact Hlt |]. right. split; reflexivity.
    + exists (heap s2). split; [exact Hlt |]. left. split; reflexivity.
  - apply (initializeClient_fullClient _ _ _ _ Ho) in H
      as (m & k & co & s1 & R & H).
    rewrite fullClientMode_run in H. simplify_eq.
    eexists m, k, co, s1, _. split; [exact R |]. split.
    { apply grows_stamps, grows_set_heap. }
    split; [cbn [heap set_heap]; now rewrite heap_lookup_first |]. split.
    { intros key N1 N2 N3 N4. rewrite lookup_union_l; [reflexivity |].
      rewrite lookup_insert_ne by congruence.
      now rewrite lookup_insert_ne by congruence. }
    cbn. split; reflexivity.
Qed.

End Modes.

(** ** Well-formed requests: the run reaches the credential check *)

Lemma getprop_closed v k s x :
  closed (heap s) -> getprop v k s = Return x s -> alive (heap s) x.
Proof.
  intros HC H. unfold getprop in H.
  destruct v as [| | | | |l|]; simplify_eq; try exact I.
  destruct (heap s !! l) as [o|] eqn:Hl; [|discriminate]. simplify_eq.
  destruct (o !! k) as [x|] eqn:Hk; [|exact I]. cbn.
  unfold closed in HC. rewrite Forall_lookup in HC.
  exact (HC l o Hl k x Hk).
Qed.

Lemma getprop_alive v k s :
  nullish v = false -> alive (heap s) v ->
  exists x, getprop v k s = Return x s.
Proof.
  intros HN HA. unfold getprop.
  destruct v as [| | | | |l|]; try discriminate HN; eauto.
  cbn in HA. destruct (lookup_lt_is_Some_2 _ _ HA) as [o ->]. eauto.
Qed.

Lemma getprop_truthy_alive v k s :
  truthy v = true -> alive (heap s) v ->
  exists x, getprop v k s = Return x s.
Proof.
  intros HT. apply getprop_alive. now destruct v.
Qed.

Lemma spread_alive v s :
  alive (heap s) v -> exists o, spread v s = Return o s.
Proof.
  intros HA. unfold spread.
  destruct v as [| | | | |l|]; eauto.
  cbn in HA. destruct (lookup_lt_is_Some_2 _ _ HA) as [o ->]. eauto.
Qed.

Section Progress.

Variable deps : Deps.
Variable env : gmap string string.

Lemma prologue_progress a s :
  wellFormed s a ->
  exists m e co, prologue deps env a s = Return (m, e, co) s.
Proof.
  intros (HC & HE & body & locals & HB & HNB & HL & HNL).
  pose proof (getprop_closed _ _ _ _ HC HB) as HAB.
  destruct (getprop_alive body "key" s HNB HAB) as (x1 & H1).
  destruct (getprop_alive body "model" s HNB HAB) as (x2 & H2).
  destruct (getprop_alive body "endpoint" s HNB HAB) as (x3 & H3).
  destruct (spread_alive _ _ HE) as (ep & H4).
  assert (exists m, resolveModelName a s = Return m s) as (m & Hm).
  { unfold resolveModelName, coalesceM. destruct (nullish (overrideModel a)).
    - exists x2. now rewrite (bind_run _ _ _ _ _ HB).
    - eexists. reflexivity. }
  assert (exists e, resolveEndpoint deps a s = Return e s) as (e & He).
  { unfold resolveEndpoint, coalesceM. destruct (nullish (overrideEndpoint a)).
    - assert ((body <- getprop (req a) "body";; getprop body "endpoint") s
              = Return x3 s) as Hin
        by (now rewrite (bind_run _ _ _ _ _ HB)).
      eexists. rewrite (bind_run _ _ _ _ _ Hin). reflexivity.
    - eexists. reflexivity. }
  assert (exists co, baseOptions deps env a s = Return co s) as (co & Hco).
  { eexists. unfold baseOptions. rewrite (bind_run _ _ _ _ _ H4). reflexivity. }
  exists m, e, co. unfold prologue.
  rewrite (bind_run _ _ _ _ _ HB), (bind_run _ _ _ _ _ H1),
    (bind_run _ _ _ _ _ Hm), (bind_run _ _ _ _ _ He), (bind_run _ _ _ _ _ Hco).
  reflexivity.
Qed.

Lemma configLayers_progress a b co s :
  wellFormed s a ->
  exists co', configLayers deps a b co s = Return co' s.
Proof.
  intros (HC & HE & body & locals & HB & HNB & HL & HNL).
  assert (HAL : alive (heap s) locals).
  { unfold appLocals in HL. apply bind_Return in HL as (app & s0 & R & HL).
    assert (s0 = s) by exact (readonly_getprop _ _ _ _ _ R). subst s0.
    exact (getprop_closed _ _ _ _ HC HL). }
  destruct (getprop_alive locals (EModelEndpoint_openAI deps) s HNL HAL) as (oc & Hoc).
  destruct (getprop_alive locals "all" s HNL HAL) as (ac & Hac).
  pose proof (getprop_closed _ _ _ _ HC Hoc) as HAoc.
  pose proof (getprop_closed _ _ _ _ HC Hac) as HAac.
  unfold configLayers.
  rewrite (bind_run _ _ _ _ _ HL), (bind_run _ _ _ _ _ Hoc).
  assert (exists co1,
    (if negb b && truthy oc
     then streamRate <- getprop oc "streamRate";;
          titleModel <- getprop oc "titleModel";;
          ret (<["titleModel" := titleModel]> (<["streamRate" := streamRate]> co))
     else ret co) s = Return co1 s) as (co1 & H1).
  { destruct (negb b && truthy oc) eqn:E; [| eexists; reflexivity].
    apply andb_true_iff in E as [_ E].
    destruct (getprop_truthy_alive oc "streamRate" s E HAoc) as (x1 & Hx1).
    destruct (getprop_truthy_alive oc "titleModel" s E HAoc) as (x2 & Hx2).
    eexists. rewrite (bind_run _ _ _ _ _ Hx1), (bind_run _ _ _ _ _ Hx2).
    reflexivity. }
  rewrite (bind_run _ _ _ _ _ H1), (bind_run _ _ _ _ _ HL),
    (bind_run _ _ _ _ _ Hac).
  destruct (truthy ac) eqn:E; [| eexists; reflexivity].
  destruct (getprop_truthy_alive ac "streamRate" s E HAac) as (x & Hx).
  eexists. rewrite (bind_run _ _ _ _ _ Hx). reflexivity.
Qed.

End Progress.

(** ** The key store is never read *)

Lemma keyblind_ret {A} (a : A) : keyblind (ret a).
Proof. intros s ks. reflexivity. Qed.

Lemma keyblind_throw {A} e : keyblind (@throw A e).
Proof. intros s ks. reflexivity. Qed.

Lemma keyblind_bind {A B} (m : M A) (k : A -> M B) :
  keyblind m -> (forall a, keyblind (k a)) -> keyblind (bind m k).
Proof.
  intros Hm Hk s ks. unfold bind. rewrite Hm.
  destruct (m s) as [a s1|e s1]; cbn; [apply Hk | reflexivity].
Qed.

Lemma keyblind_getprop v k : keyblind (getprop v k).
Proof.
  intros s ks. unfold getprop. cbn.
  destruct v as [| | | | |l|]; try reflexivity.
  now destruct (heap s !! l).
Qed.

Lemma keyblind_setprop v k x : keyblind (setprop v k x).
Proof.
  intros s ks. unfold setprop. cbn.
  destruct v as [| | | | |l|]; try reflexivity.
  now destruct (heap s !! l).
Qed.

Lemma keyblind_spread v : keyblind (spread v).
Proof.
  intros s ks. unfold spread. cbn.
  destruct v as [| | | | |l|]; try reflexivity.
  now destruct (heap s !! l).
Qed.

Lemma keyblind_alloc o : keyblind (alloc o).
Proof. intros s ks. reflexivity. Qed.

Lemma keyblind_alloc_at o : keyblind (alloc_at o).
Proof. intros s ks. reflexivity. Qed.

Lemma keyblind_call {A} (f : list obj -> exn + A) : keyblind (call f).
Proof. intros s ks. unfold call. cbn. now destruct (f (heap s)). Qed.

Ltac keyblind_tac :=
  repeat first
    [ apply keyblind_ret | apply keyblind_throw | apply keyblind_getprop
    | apply keyblind_setprop | apply keyblind_spread | apply keyblind_alloc
    | apply keyblind_alloc_at | apply keyblind_call
    | apply keyblind_bind; [ | intros ? ]
    | match goal with
      | |- keyblind (if ?c then _ else _) => destruct c
      | |- keyblind (match ?p with (_, _) => _ end) => destruct p
      | |- keyblind (match ?v with VStr _ => _ | _ => _ end) => destruct v
      end ].

Section KeyBlind.

Variable deps : Deps.
Variable env : gmap string string.

Lemma keyblind_resolveOptions a : keyblind (resolveOptions deps env a).
Proof.
  unfold resolveOptions, prologue, resolveModelName, resolveEndpoint, baseOptions,
    azureLayer, azureMapped, azureDefault, requestHeaders, azureRate, groupField,
    configLayers, checkCredential, appLocals, coalesceM.
  keyblind_tac.
Qed.

Lemma keyblind_initializeClient a : keyblind (initializeClient deps env a).
Proof.
  unfold initializeClient. apply keyblind_bind; [apply keyblind_resolveOptions |].
  intros [[m k] co].
  unfold optionsOnlyMode, stampModelOptions, throttledOptions, attachThrottle,
    fullClientMode.
  keyblind_tac.
Qed.

End KeyBlind.

(** * The claims *)

Section Claims.

Variable deps : Deps.
Variable env : gmap string string.

Lemma resolveOptions_allStreamRate a s g m k co s1 :
  allStreamRate a s g ->
  resolveOptions deps env a s = Return (m, k, co) s1 ->
  co !! "streamRate" = Some g.
Proof.
  intros (locals & allConfig & HL & HA & HT & HG) H.
  apply resolveOptions_Return in H as (e & co0 & b & co1 & _ & _ & HC & _ & G).
  eapply configLayers_all; [| | exact HT | | exact HC].
  - eapply appLocals_grows; eassumption.
  - eapply getprop_grows; eassumption.
  - eapply getprop_grows; eassumption.
Qed.

(** C1: whatever stream rates the request-level endpoint options, the Azure
    configuration and the endpoint configuration of the application supply,
    when the application's configuration for all endpoints exists and holds
    the stream rate [g], every answer of [initializeClient] was built from
    merged options whose [streamRate] is [g]: the merged options of lines
    21-138 and the options object handed to the collaborator both carry it. *)
Theorem streamRate_global_precedence a s g r s' :
  allStreamRate a s g ->
  initializeClient deps env a s = Return r s' ->
  exists m k co s1 o,
    resolveOptions deps env a s = Return (m, k, co) s1 /\
    co !! "streamRate" = Some g /\
    consumed deps r s' k (length (heap s1)) /\
    heap s' !! length (heap s1) = Some o /\
    o !! "streamRate" = Some g.
Proof.
  intros HA H.
  apply initializeClient_Return in H as (m & k & co & s1 & o & R & _ & Hl & Eo & Hc).
  pose proof (resolveOptions_allStreamRate _ _ _ _ _ _ _ HA R) as Hg.
  exists m, k, co, s1, o. repeat split; try assumption.
  rewrite Eo by discriminate. exact Hg.
Qed.

(** C9: when the application's configuration for all endpoints exists and
    has no [streamRate], the merged options hold [streamRate: undefined],
    whatever the Azure layer or the endpoint configuration had assigned, and
    options-only mode answers the plain result of [getLLMConfig], with no
    hook attached. *)
Theorem global_config_without_rate_disables_hook a s r s' :
  allStreamRate a s VUndef ->
  initializeClient deps env a s = Return r s' ->
  exists m k co s1,
    resolveOptions deps env a s = Return (m, k, co) s1 /\
    co !! "streamRate" = Some VUndef /\
    (truthy (optionsOnly a) = true ->
     r = OptionsOnly (getLLMConfig deps (heap s') k (VRef (length (heap s1))))).
Proof.
  intros HA H.
  destruct (truthy (optionsOnly a)) eqn:Ho.
  - apply (initializeClient_optionsOnly _ _ _ _ _ _ Ho) in H
      as (m & k & co & s1 & l & s2 & R & Rst & Rth).
    pose proof (resolveOptions_allStreamRate _ _ _ _ _ _ _ HA R) as Hg.
    exists m, k, co, s1. split; [exact R |]. split; [exact Hg |]. intros _.
    apply stampModelOptions_Return in Rst as (-> & _ & mp & o & _ & Hl & Eo).
    apply throttledOptions_Return in Rth as (o' & Hl' & Rth).
    simplify_eq.
    assert (field o "streamRate" = VUndef) as E.
    { unfold field. rewrite Eo by discriminate.
      rewrite lookup_union_l by (now apply lookup_singleton_ne).
      now rewrite Hg. }
    rewrite E in Rth. cbn in Rth. destruct Rth as [-> ->]. reflexivity.
  - apply initializeClient_Return in H as (m & k & co & s1 & o & R & _).
    pose proof (resolveOptions_allStreamRate _ _ _ _ _ _ _ HA R) as Hg.
    exists m, k, co, s1. split; [exact R |]. split; [exact Hg |]. discriminate.
Qed.

(** C4: in options-only mode the stream rate of the merged options decides
    the hook.  When it is set (truthy: the test of line 146, so a rate of 0
    counts as not configured), the [callbacks] of the answered configuration
    are an array of exactly one handler, whose [handleLLMNewToken] sleeps
    for exactly that rate at every token; the rest of the configuration is
    what [getLLMConfig] built.  When it is not set, the answer is the plain
    result of [getLLMConfig]: nothing is attached and the heap is as
    [getLLMConfig] saw it. *)
Theorem optionsOnly_throttle_hook a s m k co s1 r s' :
  truthy (optionsOnly a) = true ->
  resolveOptions deps env a s = Return (m, k, co) s1 ->
  initializeClient deps env a s = Return r s' ->
  let rate := field co "streamRate" in
  let l := length (heap s1) in
  if truthy rate then
    exists h0 lc lh,
      let plain := getLLMConfig deps h0 k (VRef l) in
      r = OptionsOnly {| llmConfig := <["callbacks" := VRef lc]> (llmConfig plain);
                         configOptions := configOptions plain |} /\
      heap s' = h0 ++ [ {["handleLLMNewToken" := VFun (ThrottleHook l)]};
                        {["0" := VRef lh]} ] /\
      lh = length h0 /\ lc = length h0 + 1 /\
      forall n, onTokens n (ThrottleHook l) s' = Return (repeat (Sleep rate) n) s'
  else
    r = OptionsOnly (getLLMConfig deps (heap s') k (VRef l)).
Proof.
  intros Ho R H rate l.
  apply (initializeClient_optionsOnly _ _ _ _ _ _ Ho) in H
    as (m' & k' & co' & s1' & l' & s2 & R' & Rst & Rth).
  rewrite R in R'. simplify_eq.
  apply stampModelOptions_Return in Rst as (-> & _ & mp & o & _ & Hl & Eo).
  pose proof (throttledOptions_grows _ _ _ _ _ _ Rth) as G.
  apply throttledOptions_Return in Rth as (o' & Hl' & Rth).
  simplify_eq.
  assert (field o "streamRate" = rate) as E.
  { unfold field, rate. rewrite Eo by discriminate.
    rewrite lookup_union_l by (now apply lookup_singleton_ne). reflexivity. }
  rewrite E in Rth. fold l in Rth, Hl, G |- *.
  destruct (truthy rate); destruct Rth as [-> ->]; [| reflexivity].
  exists (heap s2), (length (heap s2) + 1), (length (heap s2)).
  cbn zeta. split; [reflexivity |]. split; [reflexivity |].
  split; [reflexivity |]. split; [reflexivity |].
  intros n. rewrite <- E. apply onTokens_run.
  eapply grows_lookup; [apply grows_set_heap | exact Hl].
Qed.

Lemma relayKeyMissing_falsy : relayKeyMissing env -> truthy (relayKey env) = false.
Proof. unfold relayKey, env_get. now intros [-> | ->]. Qed.

Lemma truthy_credentialString k :
  credentialString k -> truthy k = true -> exists key, k = VStr key /\ key <> "".
Proof.
  intros [-> | (key & ->)] HT; [discriminate |].
  exists key. split; [reflexivity |]. intros ->. discriminate.
Qed.

(** C3: a well-formed request for an endpoint other than Azure (the default
    endpoint in particular) fails, when no relay key is configured, with the
    error that names the endpoint, whatever Azure key is configured; and
    whenever [initializeClient] answers, the credential that the client or
    the options were built from is a string that is not empty (the Azure
    collaborators answering strings, as their types say). *)
Theorem missing_credential_fails a s e :
  (wellFormed s a ->
   resolveEndpoint deps a s = Return e s ->
   strict_eq e (VStr (EModelEndpoint_azureOpenAI deps)) = false ->
   relayKeyMissing env ->
   initializeClient deps env a s
     = Throw (Error (to_string e +:+ " API Key not provided.")) s) /\
  (typedCredentials deps env ->
   forall r s', initializeClient deps env a s = Return r s' ->
   exists key l, key <> "" /\ consumed deps r s' (VStr key) l).
Proof.
  split.
  - intros WF He Hna Hk.
    destruct (prologue_progress deps env a s WF) as (m & e' & co & Hp).
    pose proof (prologue_Return _ _ _ _ _ _ _ _ Hp) as (_ & _ & He' & _).
    rewrite He in He'. simplify_eq.
    destruct (configLayers_progress deps a false co s WF) as (co' & Hc).
    unfold initializeClient. apply bind_Throw.
    unfold resolveOptions.
    rewrite (bind_run _ _ _ _ _ Hp).
    rewrite (bind_run _ _ _ _ _ (azureLayer_relay deps env a m _ co s Hna)).
    rewrite (bind_run _ _ _ _ _ Hc).
    apply bind_Throw.
    unfold checkCredential, userProvidesKey, bit_and.
    rewrite (relayKeyMissing_falsy Hk). reflexivity.
  - intros [HT1 HT2] r s' H.
    apply initializeClient_Return in H as (m & k & co & s1 & o & R & _ & _ & _ & Hc).
    apply resolveOptions_Return in R as (e' & co0 & b & co1 & _ & HA & _ & Hk & _).
    assert (credentialString k) as HS.
    { apply azureLayer_credential in HA
        as [[_ ->] | [(h & mm & g1 & g2 & r0 & Hm & ->) | ->]].
      - unfold relayKey, env_get, credentialString.
        destruct (env !! "OPENROUTER_KEY"); eauto.
      - eapply HT1; eassumption.
      - exact HT2. }
    destruct (truthy_credentialString _ HS Hk) as (key & -> & Hne).
    exists key, (length (heap s1)). auto.
Qed.

(** C7: on the relay-backed path (a request for any endpoint other than
    Azure) the resolved credential is the value of the variable
    OPENROUTER_KEY of the process environment, and the run does not depend
    on the key store: with any other content of the store, resolution and
    [initializeClient] answer the same credential, the same options and the
    same result, and leave the store as they found it. *)
Theorem relay_credential_ignores_user_keys a s e r s' :
  resolveEndpoint deps a s = Return e s ->
  strict_eq e (VStr (EModelEndpoint_azureOpenAI deps)) = false ->
  initializeClient deps env a s = Return r s' ->
  exists key m co s1 l,
    env !! "OPENROUTER_KEY" = Some key /\ key <> "" /\
    resolveOptions deps env a s = Return (m, VStr key, co) s1 /\
    consumed deps r s' (VStr key) l /\
    forall ks,
      resolveOptions deps env a (set_userKeys ks s)
        = Return (m, VStr key, co) (set_userKeys ks s1) /\
      initializeClient deps env a (set_userKeys ks s)
        = Return r (set_userKeys ks s').
Proof.
  intros He Hna H.
  pose proof H as H0.
  apply initializeClient_Return in H0 as (m & k & co & s1 & o & R & _ & _ & _ & Hc).
  pose proof R as R0.
  apply resolveOptions_Return in R0 as (e' & co0 & b & co1 & Hp & HA & _ & Hk & _).
  apply prologue_Return in Hp as (_ & _ & He' & _).
  rewrite He in He'. simplify_eq.
  rewrite (azureLayer_relay deps env a m _ co0 s Hna) in HA. simplify_eq.
  unfold relayKey, env_get in *.
  destruct (env !! "OPENROUTER_KEY") as [key|]; [| discriminate Hk].
  exists key, m, co, s1, (length (heap s1)).
  split; [reflexivity |]. split; [intros ->; discriminate Hk |].
  split; [exact R |]. split; [exact Hc |]. intros ks. split.
  - rewrite keyblind_resolveOptions, R. reflexivity.
  - rewrite keyblind_initializeClient, H. reflexivity.
Qed.

(** C2, as the code has it: the stream rate that line 92 consults is the
    one of the Azure configuration of the application, not one of the
    deployment group.  When that is null or undefined, for a model name
    that is a string the Azure layer assigns 30 where the name contains
    "gpt-4" and 17 where it does not; and this is the stream rate of the
    merged options where the application does not configure all
    endpoints. *)
Theorem azure_default_streamRate a s e locals c sr name :
  resolveEndpoint deps a s = Return e s ->
  strict_eq e (VStr (EModelEndpoint_azureOpenAI deps)) = true ->
  appLocals a s = Return locals s ->
  getprop locals (EModelEndpoint_azureOpenAI deps) s = Return c s ->
  truthy c = true ->
  getprop c "streamRate" s = Return sr s ->
  nullish sr = true ->
  resolveModelName a s = Return (VStr name) s ->
  (forall co0 b k co1 s1,
     azureLayer deps env a (VStr name) e co0 s = Return (b, k, co1) s1 ->
     field co1 "streamRate" = VNum (if includes name "gpt-4" then 30 else 17)) /\
  (forall allConfig m k co s1,
     getprop locals "all" s = Return allConfig s ->
     truthy allConfig = false ->
     resolveOptions deps env a s = Return (m, k, co) s1 ->
     m = VStr name /\
     field co "streamRate" = VNum (if includes name "gpt-4" then 30 else 17)).
Proof.
  intros He Haz HL HC HT HS HN Hm.
  assert (forall co0 b k co1 s1,
     azureLayer deps env a (VStr name) e co0 s = Return (b, k, co1) s1 ->
     b = true /\
     field co1 "streamRate" = VNum (if includes name "gpt-4" then 30 else 17))
    as Layer.
  { intros co0 b k co1 s1 H.
    destruct (azureLayer_mapped _ _ _ _ _ _ _ _ _ _ _ _ _ Haz HL HC HT H) as [-> HM].
    split; [reflexivity |].
    rewrite (azureMapped_streamRate _ _ _ _ _ _ _ _ _ HM HS).
    unfold coalesce. now rewrite HN. }
  split.
  - intros co0 b k co1 s1 H. now apply Layer in H as [_ H].
  - intros allConfig m k co s1 HA HF R.
    apply resolveOptions_Return in R as (e' & co0 & b & co1 & Hp & HAz & Hc & _ & G).
    apply prologue_Return in Hp as (_ & Hm' & He' & _).
    rewrite He in He'. rewrite Hm in Hm'. simplify_eq.
    destruct (Layer _ _ _ _ _ HAz) as (-> & E).
    split; [reflexivity |].
    rewrite <- E. f_equal.
    eapply configLayers_azure; [| | exact HF | exact Hc].
    + eapply appLocals_grows; eassumption.
    + eapply getprop_grows; eassumption.
Qed.

(** C5, as the code has it: line 86 spreads the request-level headers after
    the headers of the Azure group, so where both supply a header of the
    same name the request-level value is the one resolved, and the Azure
    value is dropped before [resolveHeaders] sees it.  (For a serverless
    group line 107 then sets [api-key], the one name the Azure layer wins.)
    [f] is what [resolveHeaders] does to each value. *)
Theorem request_headers_override_azure a s e locals c m r0 ep own f :
  (forall o, resolveHeaders deps o = f <$> o) ->
  resolveEndpoint deps a s = Return e s ->
  strict_eq e (VStr (EModelEndpoint_azureOpenAI deps)) = true ->
  appLocals a s = Return locals s ->
  getprop locals (EModelEndpoint_azureOpenAI deps) s = Return c s ->
  truthy c = true ->
  resolveModelName a s = Return m s ->
  mapsTo deps s c m r0 ->
  spread (endpointOption a) s = Return ep s ->
  requestHeaders ep s = Return own s ->
  forall m' k co s1,
    resolveOptions deps env a s = Return (m', k, co) s1 ->
    exists lh merged,
      field co "headers" = VRef lh /\ heap s1 !! lh = Some merged /\
      forall name, name <> "api-key" ->
        merged !! name =
          f <$> (match own !! name with
                 | Some v => Some v
                 | None => default ∅ (headers r0) !! name
                 end).
Proof.
  intros Hf He Haz HL HC HT Hm HM Hep Hown m' k co s1 R.
  apply resolveOptions_Return in R as (e' & co0 & b & co1 & Hp & HA & Hc & _ & _).
  apply prologue_Return in Hp as (_ & Hm' & He' & Hb).
  rewrite He in He'. rewrite Hm in Hm'. simplify_eq.
  apply baseOptions_Return in Hb as (ep' & Hep' & Eb).
  rewrite Hep in Hep'. simplify_eq.
  destruct (azureLayer_mapped _ _ _ _ _ _ _ _ _ _ _ _ _ Haz HL HC HT HA) as [-> HAm].
  assert (requestHeaders co0 s = Return own s) as Hown0.
  { unfold requestHeaders, field in *. now rewrite Eb by discriminate. }
  destruct (azureMapped_headers _ _ _ _ _ _ _ _ _ _ HAm HM Hown0) as [Hh Hl].
  exists (length (heap s) + 1), (azureHeaders deps r0 own k).
  split.
  { unfold field in *.
    now rewrite (configLayers_other _ _ _ _ _ _ _ "headers" Hc) by discriminate. }
  split; [exact Hl |].
  intros name Hn. unfold azureHeaders.
  assert ((f <$> own ∪ default ∅ (headers r0)) !! name =
          f <$> match own !! name with
                | Some v => Some v
                | None => default ∅ (headers r0) !! name
                end) as E.
  { rewrite lookup_fmap. f_equal. rewrite lookup_union.
    destruct (own !! name), (default ∅ (headers r0) !! name); reflexivity. }
  rewrite Hf. destruct (strict_eq (serverless r0) (VBool true)).
  - now rewrite lookup_insert_ne by congruence.
  - exact E.
Qed.

(** C6, as the code has it: for an Azure request whose model maps to a
    serverless group, every answer of [initializeClient] was built from
    options in which the header object holds the resolved key under
    [api-key], [azure] is [false] (no Azure credential block), and
    [defaultQuery] is [{ api-version }] when the Azure options have an API
    version (truthy, the test of line 104) and [undefined] otherwise.  The
    key is in the header as well as, not instead of, the credential: the
    same key is the credential that the client or the options were built
    from (lines 145 and 159-162). *)
Theorem serverless_key_in_header a s e locals c m r0 r s' :
  resolveEndpoint deps a s = Return e s ->
  strict_eq e (VStr (EModelEndpoint_azureOpenAI deps)) = true ->
  appLocals a s = Return locals s ->
  getprop locals (EModelEndpoint_azureOpenAI deps) s = Return c s ->
  truthy c = true ->
  resolveModelName a s = Return m s ->
  mapsTo deps s c m r0 ->
  serverless r0 = VBool true ->
  initializeClient deps env a s = Return r s' ->
  let k := field (azureOptions r0) "azureOpenAIApiKey" in
  let version := field (azureOptions r0) "azureOpenAIApiVersion" in
  exists l o lh h,
    consumed deps r s' k l /\ heap s' !! l = Some o /\
    field o "azure" = VBool false /\
    field o "headers" = VRef lh /\ heap s' !! lh = Some h /\
    h !! "api-key" = Some k /\
    if truthy version then
      exists lq q, field o "defaultQuery" = VRef lq /\ heap s' !! lq = Some q /\
                   q !! "api-version" = Some version
    else field o "defaultQuery" = VUndef.
Proof.
  intros He Haz HL HC HT Hm HM HS H k version.
  apply initializeClient_Return in H
    as (m' & k' & co & s1 & o & R & [_ St] & Hl & Eo & Hc).
  apply resolveOptions_Return in R as (e' & co0 & b & co1 & Hp & HA & Hcl & _ & _).
  apply prologue_Return in Hp as (_ & Hm' & He' & _).
  rewrite He in He'. rewrite Hm in Hm'. simplify_eq.
  destruct (azureLayer_mapped _ _ _ _ _ _ _ _ _ _ _ _ _ Haz HL HC HT HA) as [-> HAm].
  pose proof (azureMapped_credential _ _ _ _ _ _ _ _ _ HAm HM) as ->.
  destruct (azureMapped_api_key _ _ _ _ _ _ _ _ _ HAm HM HS) as (Hh & h & Hlh & Hk).
  destruct (azureMapped_serverless _ _ _ _ _ _ _ _ _ HAm HM HS) as (Haz' & Hdq & Hq).
  assert (forall key, key <> "user" -> key <> "modelOptions" -> key <> "req" ->
            key <> "res" -> key <> "streamRate" -> key <> "titleModel" ->
            field o key = field co1 key) as E.
  { intros key N1 N2 N3 N4 N5 N6. unfold field. rewrite Eo by assumption.
    now rewrite (configLayers_other _ _ _ _ _ _ _ key Hcl). }
  destruct (St _ _ Hlh) as (h' & Hlh' & Eh).
  exists (length (heap s1)), o, (length (heap s) + 1), h'.
  split; [exact Hc |]. split; [exact Hl |].
  split; [rewrite E by discriminate; exact Haz' |].
  split; [rewrite E by discriminate; exact Hh |].
  split; [exact Hlh' |].
  split; [rewrite Eh by discriminate; exact Hk |].
  fold k version in Hdq, Hq |- *.
  rewrite E by discriminate. rewrite Hdq.
  destruct (truthy version); [| reflexivity].
  destruct (St _ _ (Hq eq_refl)) as (q & Hlq & Eq).
  exists (length (heap s) + 2), q. split; [reflexivity |]. split; [exact Hlq |].
  rewrite Eq by discriminate. apply lookup_singleton_eq.
Qed.


End Claims.

(** ** The [PUT /] handler of routes/keys.js *)

Section KeysRouteFacts.

Import KeysRoute.

(** A request that names the locked provider is answered 403 with the
    explanation, whatever the key service is: the service is not called and
    the key store is left as it was. *)
Theorem putKey_locked svc req s body :
  getprop req "body" s = Return body s ->
  getprop body "name" s = Return (VStr lockedProvider) s ->
  putKey svc req s =
    Return {| status := 403; payload := VRef (length (heap s)) |}
      (set_heap
         (heap s ++
          [ {["error" := VStr "OpenAI API keys are managed by the system administrator"]} ])
         s).
Proof.
  intros Hb Hn. unfold putKey.
  rewrite (bind_run _ _ _ _ _ Hb), (bind_run _ _ _ _ _ Hn).
  reflexivity.
Qed.

(** A request for another provider whose body is an object with no
    [userId] of its own: the record of the caller for that provider is
    upserted and the answer is 201 with an empty body. *)
Theorem putKey_upserts_caller req s lb fields user id :
  getprop req "body" s = Return (VRef lb) s ->
  heap s !! lb = Some fields ->
  strict_eq (field fields "name") (VStr lockedProvider) = false ->
  getprop req "user" s = Return user s ->
  getprop user "id" s = Return id s ->
  fields !! "userId" = None ->
  putKey userService_spec req s =
    Return {| status := 201; payload := VUndef |}
      (set_userKeys
         (<[(to_string id, to_string (field fields "name")) :=
              {| key_value := field fields "value";
                 key_expiresAt := field fields "expiresAt" |}]> (userKeys s)) s).
Proof.
  intros Hb Hl Hne Hu Hid Hno. unfold putKey.
  assert (getprop (VRef lb) "name" s = Return (field fields "name") s) as Hn
    by (unfold getprop; now rewrite Hl).
  assert (spread (VRef lb) s = Return fields s) as Hsp
    by (unfold spread; now rewrite Hl).
  rewrite (bind_run _ _ _ _ _ Hb), (bind_run _ _ _ _ _ Hn), Hne.
  rewrite (bind_run _ _ _ _ _ Hu), (bind_run _ _ _ _ _ Hid),
    (bind_run _ _ _ _ _ Hb), (bind_run _ _ _ _ _ Hsp).
  unfold bind, userService_spec, updateUserKey, updateUserKey_spec, ret.
  assert (forall k, k <> "userId" ->
            field (fields ∪ {["userId" := id]}) k = field fields k) as E.
  { intros k N. unfold field. rewrite lookup_union_l; [reflexivity |].
    now apply lookup_singleton_ne. }
  assert (field (fields ∪ {["userId" := id]}) "userId" = id) as ->.
  { unfold field. rewrite lookup_union_r by exact Hno.
    now rewrite lookup_singleton_eq. }
  now rewrite !E by discriminate.
Qed.

End KeysRouteFacts.

(** * Further properties of [initializeClient] *)

Lemma stable_ret {A} (a : A) : stable (ret a).
Proof. intros s x s' H. unfold ret in *. simplify_eq. auto. Qed.

Lemma stable_throw {A} e : stable (@throw A e).
Proof. intros s x s' H. discriminate H. Qed.

Lemma stable_getprop v k : stable (getprop v k).
Proof.
  intros s x s' H.
  assert (s' = s) by exact (readonly_getprop _ _ _ _ _ H). subst s'.
  split; [reflexivity |]. intros s1 G. eapply getprop_grows; eassumption.
Qed.

Lemma stable_bind {A B} (m : M A) (k : A -> M B) :
  stable m -> (forall a, stable (k a)) -> stable (bind m k).
Proof.
  intros Hm Hk s b s' H.
  apply bind_Return in H as (a & s0 & R & H).
  destruct (Hm _ _ _ R) as [-> Hm1].
  destruct (Hk a _ _ _ H) as [-> Hk1].
  split; [reflexivity |]. intros s1 G.
  rewrite (bind_run _ _ _ _ _ (Hm1 s1 G)). now apply Hk1.
Qed.

Ltac stable_tac :=
  repeat first
    [ apply stable_ret | apply stable_throw | apply stable_getprop
    | apply stable_bind; [ | intros ? ]
    | match goal with
      | |- stable (if ?c then _ else _) => destruct c
      end ].

Lemma stable_groupField c g k : stable (groupField c g k).
Proof. unfold groupField. stable_tac. Qed.

(** A read of a group parameter in the initial state, [HS], decides the
    same read made later. *)
Ltac later_group HS :=
  match type of HS with
  | groupField ?c ?g ?k ?s = Return ?x ?s =>
      match goal with
      | R : groupField c g k (set_heap (heap s ++ ?t) s) = Return ?y _ |- _ =>
          let E := fresh "E" in
          destruct (stable_groupField _ _ _ _ _ _ HS) as [_ E];
          specialize (E _ (grows_set_heap s t));
          assert (y = x) by (pose proof (run_det _ _ _ _ _ _ R E); tauto);
          subst y; clear E
      end
  end.

(** The reads of [mapsTo], [HM], decide what the run read and what the
    mapper answered. *)
Ltac mapped_inv HM :=
  let mgm := fresh "mgm" in let gm := fresh "gm" in
  let Hmgm := fresh "Hmgm" in let Hgm := fresh "Hgm" in let Hmap := fresh "Hmap" in
  destruct HM as (mgm & gm & Hmgm & Hgm & Hmap);
  later Hmgm; later Hgm;
  match goal with
  | R : call _ _ = Return _ _ |- _ =>
      apply call_Return in R as [_ R]; rewrite Hmap in R; simplify_eq
  end.

Section MoreInitialize.

Variable deps : Deps.
Variable env : gmap string string.

Lemma stable_configLayers a b co : stable (configLayers deps a b co).
Proof. unfold configLayers, appLocals. stable_tac. Qed.

(** Lines 60-66 in full: the request-level endpoint options over the four
    members written before the spread. *)
Lemma baseOptions_lookup a s ep co s' key :
  spread (endpointOption a) s = Return ep s ->
  baseOptions deps env a s = Return co s' ->
  co !! key =
    match ep !! key with
    | Some v => Some v
    | None =>
        (<["contextStrategy" :=
             if isEnabled deps (env_get env "OPENAI_SUMMARIZE")
             then VStr "summarize" else VNull]>
           (<["proxy" := coalesce (env_get env "PROXY") VNull]>
           (<["debug" := VBool (isEnabled deps (env_get env "DEBUG_OPENAI"))]>
           (<["reverseProxyUrl" := VStr "https://openrouter.ai/api/v1"]> (∅ : obj)))))
        !! key
    end.
Proof.
  unfold baseOptions. intros Hep H. rewrite (bind_run _ _ _ _ _ Hep) in H.
  unfold ret in H. simplify_eq. rewrite lookup_union.
  destruct (ep !! key) as [v|].
  - now destruct (_ !! key).
  - unfold relayURL. now destruct (_ !! key).
Qed.

(** Lines 115-120 for a request that is not for Azure. *)
Lemma configLayers_endpoint a co s co' s' locals c sr tm :
  appLocals a s = Return locals s ->
  getprop locals (EModelEndpoint_openAI deps) s = Return c s ->
  truthy c = true ->
  getprop c "streamRate" s = Return sr s ->
  getprop c "titleModel" s = Return tm s ->
  configLayers deps a false co s = Return co' s' ->
  co' !! "titleModel" = Some tm /\
  forall allConfig,
    getprop locals "all" s = Return allConfig s -> truthy allConfig = false ->
    co' !! "streamRate" = Some sr.
Proof.
  unfold configLayers. intros HL HC HT HS HM H.
  run_inv; again HL; again HC; try (cbn in *; congruence); again HS; again HM.
  - split.
    + rewrite lookup_insert_ne by discriminate. apply lookup_insert_eq.
    + intros allConfig HA HF. again HA. congruence.
  - split.
    + apply lookup_insert_eq.
    + intros allConfig HA HF. rewrite lookup_insert_ne by discriminate.
      apply lookup_insert_eq.
Qed.

(** Lines 114-126 for an Azure request assign the stream rate only. *)
Lemma configLayers_azure_other a co s co' s' key :
  configLayers deps a true co s = Return co' s' ->
  key <> "streamRate" ->
  co' !! key = co !! key.
Proof.
  unfold configLayers. intros H N. run_inv; try discriminate.
  all: now rewrite ?lookup_insert_ne by congruence.
Qed.

(** Lines 109-112, run. *)
Lemma azureDefault_run co s :
  let creds := getAzureCredentials deps env in
  azureDefault deps env co s =
    Return (field creds "azureOpenAIApiKey", <["azure" := VRef (length (heap s))]> co)
           (set_heap (heap s ++ [creds]) s).
Proof.
  cbn zeta. unfold azureDefault, userProvidesKey, bind, ret, alloc.
  rewrite field_insert_eq. unfold getprop. cbn [heap set_heap].
  now rewrite heap_lookup_first.
Qed.

(** An Azure request without an Azure configuration runs lines 109-112. *)
Lemma azureLayer_default a m e co s locals c :
  strict_eq e (VStr (EModelEndpoint_azureOpenAI deps)) = true ->
  appLocals a s = Return locals s ->
  getprop locals (EModelEndpoint_azureOpenAI deps) s = Return c s ->
  truthy c = false ->
  let creds := getAzureCredentials deps env in
  azureLayer deps env a m e co s =
    Return (true, field creds "azureOpenAIApiKey",
            <["azure" := VRef (length (heap s))]> co)
           (set_heap (heap s ++ [creds]) s).
Proof.
  intros He HL HC HT. cbn zeta. unfold azureLayer. rewrite He.
  assert ((locals <- appLocals a;; getprop locals (EModelEndpoint_azureOpenAI deps)) s
          = Return c s) as Hc
    by (now rewrite (bind_run _ _ _ _ _ HL)).
  rewrite (bind_run _ _ _ _ _ Hc). rewrite HT. cbn [andb].
  rewrite (bind_run _ _ _ _ _ (azureDefault_run co s)). reflexivity.
Qed.

(** Lines 88-99: the title settings of the Azure configuration and the
    parameters of the group, whatever the options held before. *)
Lemma azureMapped_settings c m co s k co' s' g tc tm tmeth ap dp fp :
  azureMapped deps c m co s = Return (k, co') s' ->
  getprop c "titleConvo" s = Return tc s ->
  getprop c "titleModel" s = Return tm s ->
  getprop c "titleMethod" s = Return tmeth s ->
  groupOf s c m g ->
  groupField c g "addParams" s = Return ap s ->
  groupField c g "dropParams" s = Return dp s ->
  groupField c g "forcePrompt" s = Return fp s ->
  field co' "titleConvo" = tc /\ field co' "titleModel" = tm /\
  field co' "titleMethod" = coalesce tmeth (VStr "completion") /\
  field co' "addParams" = ap /\ field co' "dropParams" = dp /\
  field co' "forcePrompt" = fp.
Proof.
  unfold azureMapped. intros H H1 H2 H3 (mgm & entry & Hmgm & He & Hg) H4 H5 H6.
  run_inv; norm_heap; later Hmgm; later H1; later H2; later H3; later He; later Hg.
  all: later_group H4; later_group H5; later_group H6.
  all: field_simpl; repeat split; reflexivity.
Qed.

(** Lines 101-108 for a group whose flag is not the boolean [true]. *)
Lemma azureMapped_dedicated c m co s k co' s' r :
  azureMapped deps c m co s = Return (k, co') s' ->
  mapsTo deps s c m r ->
  strict_eq (serverless r) (VBool true) = false ->
  field co' "azure" = js_and (js_not (serverless r)) (VRef (length (heap s))) /\
  heap s' !! length (heap s) = Some (azureOptions r) /\
  co' !! "defaultQuery" = co !! "defaultQuery".
Proof.
  unfold azureMapped. intros H HM HS.
  run_inv; mapped_inv HM; norm_heap; new_reads; try congruence.
  field_simpl. split; [reflexivity |]. split; [reflexivity |].
  now rewrite !lookup_insert_ne by discriminate.
Qed.

(** On the relay path (a request for any endpoint other than Azure), what
    lines 21-138 resolve rests on four variables of the process environment
    and on no other: under two environments that agree on the four, the
    model name, the credential and the merged options are the same.  The
    keys and base URLs of a direct provider that lines 21-30 destructure
    (OPENAI_API_KEY, OPENAI_REVERSE_PROXY and the like) are no credential
    and no base URL.  The one collaborator called on this path is
    [isEnabled], on the value it is given; what the collaborators of the
    Azure path and of the two modes read of the environment is not
    covered. *)
Theorem relay_path_reads_four_variables env' a s e :
  agreeOn consultedVariables env env' ->
  resolveEndpoint deps a s = Return e s ->
  strict_eq e (VStr (EModelEndpoint_azureOpenAI deps)) = false ->
  resolveOptions deps env a s = resolveOptions deps env' a s.
Proof.
  unfold agreeOn, consultedVariables. intros HA He Hna.
  repeat (apply Forall_cons in HA as [? HA]).
  assert (prologue deps env a = prologue deps env' a) as Ep.
  { unfold prologue, baseOptions, env_get.
    repeat match goal with E : env !! _ = env' !! _ |- _ => rewrite E; clear E end.
    reflexivity. }
  assert (relayKey env = relayKey env') as Ek.
  { unfold relayKey, env_get.
    repeat match goal with E : env !! _ = env' !! _ |- _ => rewrite E; clear E end.
    reflexivity. }
  unfold resolveOptions. rewrite <- Ep. unfold bind.
  destruct (prologue deps env a s) as [[[m e'] co] s0|err s0] eqn:Hp; [| reflexivity].
  apply prologue_Return in Hp as (-> & _ & He' & _).
  rewrite He in He'. simplify_eq.
  rewrite (azureLayer_relay deps env a m _ co s Hna),
    (azureLayer_relay deps env' a m _ co s Hna), Ek.
  reflexivity.
Qed.

(** When a full client is asked for, no object that existed before the call
    is changed and the key store is left alone: the heap only grows, and
    the options object of the client is one of the new objects.  (Options-
    only mode, by contrast, writes to the model parameters of the caller.) *)
Theorem fullClient_mutates_nothing a s r s' :
  truthy (optionsOnly a) = false ->
  initializeClient deps env a s = Return r s' ->
  grows s s' /\
  exists k l,
    r = ClientPair {| client_apiKey := k; client_options := VRef l |} k /\
    length (heap s) <= l < length (heap s').
Proof.
  intros Ho H.
  apply (initializeClient_fullClient _ _ _ _ _ _ Ho) in H as (m & k & co & s1 & R & H).
  apply resolveOptions_Return in R as (e & co0 & b & co1 & _ & _ & _ & _ & G).
  rewrite fullClientMode_run in H. simplify_eq. split.
  - eapply grows_trans; [exact G | apply grows_set_heap].
  - exists k, (length (heap s1)). split; [reflexivity |].
    pose proof (grows_length _ _ G). cbn [heap set_heap].
    rewrite length_app. cbn. lia.
Qed.

(** Options-only mode needs model parameters: where the request-level
    endpoint options are null or undefined, or hold no [model_parameters]
    (or a null one), the call fails with a TypeError at lines 141-142, after
    the options and the credential were resolved; nothing is answered. *)
Theorem optionsOnly_needs_model_parameters a s m k co s1 :
  truthy (optionsOnly a) = true ->
  resolveOptions deps env a s = Return (m, k, co) s1 ->
  (nullish (endpointOption a) = true \/
   exists mp, getprop (endpointOption a) "model_parameters" s = Return mp s /\
              nullish mp = true) ->
  initializeClient deps env a s = Throw TypeError s1.
Proof.
  intros Ho R Hmp. unfold initializeClient.
  rewrite (bind_run _ _ _ _ _ R). cbv beta iota. rewrite Ho.
  unfold optionsOnlyMode. apply bind_Throw.
  unfold stampModelOptions.
  destruct Hmp as [Hn | (mp & Hmp & Hn)].
  - apply bind_Throw. unfold getprop. now destruct (endpointOption a).
  - apply resolveOptions_Return in R as (e & co0 & b & co1 & _ & _ & _ & _ & G).
    rewrite (bind_run _ _ _ _ _ (getprop_grows _ _ _ _ _ Hmp G)).
    apply bind_Throw. unfold setprop. now destruct mp.
Qed.

(** For a request that is not for Azure, every own property of the
    request-level endpoint options other than [streamRate] and [titleModel]
    is in the merged options as the request gave it: the spread of line 65
    comes last, so it also overrides [reverseProxyUrl], [proxy], [debug] and
    [contextStrategy].  Where the request gives no [reverseProxyUrl], the
    merged one is the URL of the relay, whatever the environment holds. *)
Theorem request_options_override_defaults a s e ep m k co s1 :
  resolveEndpoint deps a s = Return e s ->
  strict_eq e (VStr (EModelEndpoint_azureOpenAI deps)) = false ->
  spread (endpointOption a) s = Return ep s ->
  resolveOptions deps env a s = Return (m, k, co) s1 ->
  (forall key v, ep !! key = Some v ->
     key <> "streamRate" -> key <> "titleModel" -> co !! key = Some v) /\
  (ep !! "reverseProxyUrl" = None ->
   co !! "reverseProxyUrl" = Some (VStr "https://openrouter.ai/api/v1")).
Proof.
  intros He Hna Hep R.
  apply resolveOptions_Return in R as (e' & co0 & b & co1 & Hp & HA & Hc & _ & _).
  apply prologue_Return in Hp as (_ & _ & He' & Hb).
  rewrite He in He'. simplify_eq.
  rewrite (azureLayer_relay deps env a m _ co0 s Hna) in HA. simplify_eq.
  split.
  - intros key v Hk N1 N2.
    rewrite (configLayers_other _ _ _ _ _ _ _ key Hc N1 N2).
    rewrite (baseOptions_lookup _ _ _ _ _ key Hep Hb). now rewrite Hk.
  - intros Hno.
    rewrite (configLayers_other _ _ _ _ _ _ _ "reverseProxyUrl" Hc) by discriminate.
    rewrite (baseOptions_lookup _ _ _ _ _ "reverseProxyUrl" Hep Hb). rewrite Hno.
    reflexivity.
Qed.

(** The configuration of the endpoint openAI applies to every request that
    is not for Azure, whatever endpoint it names: where it exists, the
    merged [titleModel] is the one of that configuration, also when that is
    undefined, and so is the merged [streamRate] unless the application
    configures all endpoints; the request-level values are overwritten. *)
Theorem endpoint_config_overwrites a s e locals c sr tm m k co s1 :
  resolveEndpoint deps a s = Return e s ->
  strict_eq e (VStr (EModelEndpoint_azureOpenAI deps)) = false ->
  appLocals a s = Return locals s ->
  getprop locals (EModelEndpoint_openAI deps) s = Return c s ->
  truthy c = true ->
  getprop c "streamRate" s = Return sr s ->
  getprop c "titleModel" s = Return tm s ->
  resolveOptions deps env a s = Return (m, k, co) s1 ->
  co !! "titleModel" = Some tm /\
  forall allConfig,
    getprop locals "all" s = Return allConfig s -> truthy allConfig = false ->
    co !! "streamRate" = Some sr.
Proof.
  intros He Hna HL HC HT HS HM R.
  apply resolveOptions_Return in R as (e' & co0 & b & co1 & Hp & HA & Hc & _ & _).
  apply prologue_Return in Hp as (_ & _ & He' & _).
  rewrite He in He'. simplify_eq.
  rewrite (azureLayer_relay deps env a m _ co0 s Hna) in HA. simplify_eq.
  eapply configLayers_endpoint; eassumption.
Qed.

(** An Azure request where the application has no Azure configuration: a
    well-formed request fails with the error that names the endpoint when
    the Azure credentials of the environment hold no key, whether or not a
    relay key is configured; the relay key is no fallback for Azure. *)
Theorem azure_unconfigured_missing_key_fails a s e locals c :
  wellFormed s a ->
  resolveEndpoint deps a s = Return e s ->
  strict_eq e (VStr (EModelEndpoint_azureOpenAI deps)) = true ->
  appLocals a s = Return locals s ->
  getprop locals (EModelEndpoint_azureOpenAI deps) s = Return c s ->
  truthy c = false ->
  let creds := getAzureCredentials deps env in
  truthy (field creds "azureOpenAIApiKey") = false ->
  initializeClient deps env a s
    = Throw (Error (to_string e +:+ " API Key not provided."))
            (set_heap (heap s ++ [creds]) s).
Proof.
  intros WF He Haz HL HC HT creds Hk.
  destruct (prologue_progress deps env a s WF) as (m & e' & co & Hp).
  pose proof (prologue_Return _ _ _ _ _ _ _ _ Hp) as (_ & _ & He' & _).
  rewrite He in He'. simplify_eq.
  destruct (configLayers_progress deps a true (<["azure" := VRef (length (heap s))]> co)
              s WF) as (co' & Hc).
  destruct (stable_configLayers _ _ _ _ _ _ Hc) as [_ Hc1].
  specialize (Hc1 (set_heap (heap s ++ [creds]) s) (grows_set_heap s [creds])).
  unfold initializeClient. apply bind_Throw.
  unfold resolveOptions.
  rewrite (bind_run _ _ _ _ _ Hp).
  rewrite (bind_run _ _ _ _ _ (azureLayer_default a m _ co s locals c Haz HL HC HT)).
  rewrite (bind_run _ _ _ _ _ Hc1).
  apply bind_Throw.
  unfold checkCredential, userProvidesKey, bit_and. fold creds.
  rewrite Hk. reflexivity.
Qed.

(** An Azure request where the application has no Azure configuration:
    every answer was built from the key of the Azure credentials of the
    environment, not from the relay key, and from options whose [azure] is
    a new object holding those credentials. *)
Theorem azure_unconfigured_uses_environment a s e locals c r s' :
  resolveEndpoint deps a s = Return e s ->
  strict_eq e (VStr (EModelEndpoint_azureOpenAI deps)) = true ->
  appLocals a s = Return locals s ->
  getprop locals (EModelEndpoint_azureOpenAI deps) s = Return c s ->
  truthy c = false ->
  initializeClient deps env a s = Return r s' ->
  let creds := getAzureCredentials deps env in
  exists l o stored,
    consumed deps r s' (field creds "azureOpenAIApiKey") l /\
    heap s' !! l = Some o /\
    field o "azure" = VRef (length (heap s)) /\
    heap s' !! length (heap s) = Some stored /\
    forall key, key <> "model" -> key <> "user" -> stored !! key = creds !! key.
Proof.
  intros He Haz HL HC HT H creds.
  apply initializeClient_Return in H
    as (m & k & co & s1 & o & R & [_ St] & Hl & Eo & Hc).
  apply resolveOptions_Return in R as (e' & co0 & b & co1 & Hp & HA & Hcl & _ & _).
  apply prologue_Return in Hp as (_ & _ & He' & _).
  rewrite He in He'. simplify_eq.
  rewrite (azureLayer_default a m _ co0 s locals c Haz HL HC HT) in HA.
  simplify_eq. fold creds in Hc, Hcl, St |- *.
  destruct (St (length (heap s)) creds) as (stored & Hst & Est).
  { cbn [heap set_heap]. now rewrite heap_lookup_first. }
  exists (length (heap (set_heap (heap s ++ [creds]) s))), o, stored.
  split; [exact Hc |]. split; [exact Hl |]. split.
  { unfold field. rewrite Eo by discriminate.
    rewrite (configLayers_other _ _ _ _ _ _ _ "azure" Hcl) by discriminate.
    now rewrite lookup_insert_eq. }
  split; [exact Hst | exact Est].
Qed.

(** An error of [mapModelToAzureConfig] (an unknown model or group) is the
    error of [initializeClient]: for a well-formed Azure request it is
    thrown at line 79, before anything is allocated or checked, and the
    state is as it was. *)
Theorem azure_mapper_error_propagates a s e locals c m mgm gm err :
  wellFormed s a ->
  resolveEndpoint deps a s = Return e s ->
  strict_eq e (VStr (EModelEndpoint_azureOpenAI deps)) = true ->
  resolveModelName a s = Return m s ->
  appLocals a s = Return locals s ->
  getprop locals (EModelEndpoint_azureOpenAI deps) s = Return c s ->
  truthy c = true ->
  getprop c "modelGroupMap" s = Return mgm s ->
  getprop c "groupMap" s = Return gm s ->
  mapModelToAzureConfig deps (heap s) m mgm gm = inl err ->
  initializeClient deps env a s = Throw err s.
Proof.
  intros WF He Haz Hm HL HC HT Hmgm Hgm Herr.
  destruct (prologue_progress deps env a s WF) as (m' & e' & co & Hp).
  pose proof (prologue_Return _ _ _ _ _ _ _ _ Hp) as (_ & Hm' & He' & _).
  rewrite He in He'. rewrite Hm in Hm'. simplify_eq.
  unfold initializeClient. apply bind_Throw.
  unfold resolveOptions. rewrite (bind_run _ _ _ _ _ Hp).
  apply bind_Throw. unfold azureLayer. rewrite Haz.
  assert ((locals <- appLocals a;; getprop locals (EModelEndpoint_azureOpenAI deps)) s
          = Return c s) as Hc
    by (now rewrite (bind_run _ _ _ _ _ HL)).
  rewrite (bind_run _ _ _ _ _ Hc). rewrite HT. cbn [andb].
  apply bind_Throw. unfold azureMapped.
  rewrite (bind_run _ _ _ _ _ Hmgm), (bind_run _ _ _ _ _ Hgm).
  apply bind_Throw. unfold call. now rewrite Herr.
Qed.

(** For an Azure request with an Azure configuration, the title settings of
    that configuration and the parameters of the group of the model are the
    merged ones, whatever the request-level endpoint options hold under the
    same names: [titleConvo], [titleModel], [titleMethod] (with the default
    completion), [addParams], [dropParams] and [forcePrompt]. *)
Theorem azure_settings_override_request a s e locals c m g tc tm tmeth ap dp fp :
  resolveEndpoint deps a s = Return e s ->
  strict_eq e (VStr (EModelEndpoint_azureOpenAI deps)) = true ->
  appLocals a s = Return locals s ->
  getprop locals (EModelEndpoint_azureOpenAI deps) s = Return c s ->
  truthy c = true ->
  resolveModelName a s = Return m s ->
  getprop c "titleConvo" s = Return tc s ->
  getprop c "titleModel" s = Return tm s ->
  getprop c "titleMethod" s = Return tmeth s ->
  groupOf s c m g ->
  groupField c g "addParams" s = Return ap s ->
  groupField c g "dropParams" s = Return dp s ->
  groupField c g "forcePrompt" s = Return fp s ->
  forall m' k co s1,
    resolveOptions deps env a s = Return (m', k, co) s1 ->
    field co "titleConvo" = tc /\ field co "titleModel" = tm /\
    field co "titleMethod" = coalesce tmeth (VStr "completion") /\
    field co "addParams" = ap /\ field co "dropParams" = dp /\
    field co "forcePrompt" = fp.
Proof.
  intros He Haz HL HC HT Hm H1 H2 H3 HG H4 H5 H6 m' k co s1 R.
  apply resolveOptions_Return in R as (e' & co0 & b & co1 & Hp & HA & Hc & _ & _).
  apply prologue_Return in Hp as (_ & Hm' & He' & _).
  rewrite He in He'. rewrite Hm in Hm'. simplify_eq.
  destruct (azureLayer_mapped _ _ _ _ _ _ _ _ _ _ _ _ _ Haz HL HC HT HA) as [-> HAm].
  assert (forall key, key <> "streamRate" -> field co key = field co1 key) as E.
  { intros key N. unfold field.
    now rewrite (configLayers_azure_other _ _ _ _ _ key Hc N). }
  rewrite !E by discriminate.
  eapply azureMapped_settings; eassumption.
Qed.

(** For an Azure request whose group is not serverless (its flag is not
    the boolean [true]), the credential is the key of the Azure options of
    the group; the header object is what [resolveHeaders] answered, with no
    [api-key] added; [defaultQuery] is as the request gave it; and [azure]
    is a new object holding the Azure options when the flag is falsy.  A
    flag that is truthy without being [true] leaves [azure] at [false]. *)
Theorem azure_dedicated_attaches_credentials a s e locals c m r0 ep own :
  resolveEndpoint deps a s = Return e s ->
  strict_eq e (VStr (EModelEndpoint_azureOpenAI deps)) = true ->
  appLocals a s = Return locals s ->
  getprop locals (EModelEndpoint_azureOpenAI deps) s = Return c s ->
  truthy c = true ->
  resolveModelName a s = Return m s ->
  mapsTo deps s c m r0 ->
  strict_eq (serverless r0) (VBool true) = false ->
  spread (endpointOption a) s = Return ep s ->
  requestHeaders ep s = Return own s ->
  forall m' k co s1,
    resolveOptions deps env a s = Return (m', k, co) s1 ->
    k = field (azureOptions r0) "azureOpenAIApiKey" /\
    field co "azure" =
      (if truthy (serverless r0) then VBool false else VRef (length (heap s))) /\
    heap s1 !! length (heap s) = Some (azureOptions r0) /\
    co !! "defaultQuery" = ep !! "defaultQuery" /\
    exists lh,
      field co "headers" = VRef lh /\
      heap s1 !! lh = Some (resolveHeaders deps (own ∪ default ∅ (headers r0))).
Proof.
  intros He Haz HL HC HT Hm HM HS Hep Hown m' k co s1 R.
  apply resolveOptions_Return in R as (e' & co0 & b & co1 & Hp & HA & Hc & _ & _).
  apply prologue_Return in Hp as (_ & Hm' & He' & Hb).
  rewrite He in He'. rewrite Hm in Hm'. simplify_eq.
  apply baseOptions_Return in Hb as (ep' & Hep' & Eb).
  rewrite Hep in Hep'. simplify_eq.
  destruct (azureLayer_mapped _ _ _ _ _ _ _ _ _ _ _ _ _ Haz HL HC HT HA) as [-> HAm].
  assert (requestHeaders co0 s = Return own s) as Hown0.
  { unfold requestHeaders, field in *. now rewrite Eb by discriminate. }
  destruct (azureMapped_headers _ _ _ _ _ _ _ _ _ _ HAm HM Hown0) as [Hh Hl].
  destruct (azureMapped_dedicated _ _ _ _ _ _ _ _ HAm HM HS) as (Hz & Hzo & Hq).
  pose proof (azureMapped_credential _ _ _ _ _ _ _ _ _ HAm HM) as ->.
  assert (forall key, key <> "streamRate" -> co !! key = co1 !! key) as E
    by (intros key N; exact (configLayers_azure_other _ _ _ _ _ key Hc N)).
  split; [reflexivity |]. split.
  { unfold field in *. rewrite E by discriminate. rewrite Hz.
    unfold js_and, js_not. now destruct (truthy (serverless r0)). }
  split; [exact Hzo |]. split.
  { rewrite E by discriminate. rewrite Hq. now apply Eb. }
  exists (length (heap s) + 1). split.
  { unfold field in *. now rewrite E by discriminate. }
  rewrite Hl. unfold azureHeaders. now rewrite HS.
Qed.

(** The overrides of the caller come before the request body: an
    [overrideModel] that is not null or undefined is the resolved model
    name, and an [overrideEndpoint] that is not null or undefined decides
    the path, so with one that is not the Azure endpoint the credential is
    the relay key even where the body names the Azure endpoint. *)
Theorem overrides_precede_request_body a s m k co s1 :
  resolveOptions deps env a s = Return (m, k, co) s1 ->
  (nullish (overrideModel a) = false -> m = overrideModel a) /\
  (nullish (overrideEndpoint a) = false ->
   strict_eq (overrideEndpoint a) (VStr (EModelEndpoint_azureOpenAI deps)) = false ->
   k = relayKey env /\ s1 = s).
Proof.
  intros R.
  apply resolveOptions_Return in R as (e & co0 & b & co1 & Hp & HA & _ & _ & _).
  apply prologue_Return in Hp as (_ & Hm & He & _).
  split.
  - intros Hn. unfold resolveModelName, coalesceM in Hm. rewrite Hn in Hm.
    unfold ret in Hm. now simplify_eq.
  - intros Hn Hna. unfold resolveEndpoint, coalesceM in He. rewrite Hn in He.
    unfold bind, ret, coalesce in He. rewrite Hn in He. simplify_eq.
    rewrite (azureLayer_relay deps env a m _ co0 s Hna) in HA. now simplify_eq.
Qed.

End MoreInitialize.

(** * The other handlers of routes/keys.js *)

Section KeyHandlersFacts.

Import KeysRoute.

Lemma strict_eq_VStr_false v x : v <> VStr x -> strict_eq v (VStr x) = false.
Proof.
  intros N. destruct v as [| | | |y| |]; try reflexivity.
  cbn. apply String.eqb_neq. congruence.
Qed.

(** [DELETE /] deletes nothing unless the query says so: where [all] is
    not the string true (it is missing, another text, or not a string), the
    answer is 400 with the explanation, and the key service is not called,
    whatever it is. *)
Theorem deleteAllKeys_requires_flag queries req s query all :
  getprop req "query" s = Return query s ->
  getprop query "all" s = Return all s ->
  all <> VStr "true" ->
  deleteAllKeys queries req s =
    Return {| status := 400; payload := VRef (length (heap s)) |}
      (set_heap
         (heap s ++ [ {["error" := VStr "Specify either all=true to delete."]} ]) s).
Proof.
  intros Hq Ha Hne. unfold deleteAllKeys.
  rewrite (bind_run _ _ _ _ _ Hq), (bind_run _ _ _ _ _ Ha).
  rewrite (strict_eq_VStr_false _ _ Hne). reflexivity.
Qed.

(** The [DELETE] and [GET] handlers address the caller: whatever the key
    service is, it is called with the identifier of the authenticated user
    and one more member (the name of the route or of the query, or
    [all: true]), and nothing else of the request reaches it; the answers
    are 204, 204 and 200 with what the service answered. *)
Theorem key_queries_address_caller queries req s user id :
  getprop req "user" s = Return user s ->
  getprop user "id" s = Return id s ->
  (forall params name,
     getprop req "params" s = Return params s ->
     getprop params "name" s = Return name s ->
     deleteKey queries req s =
       (_ <- deleteUserKey queries (<["userId" := id]> (<["name" := name]> ∅));;
        ret {| status := 204; payload := VUndef |}) s) /\
  (forall query,
     getprop req "query" s = Return query s ->
     (getprop query "all" s = Return (VStr "true") s ->
      deleteAllKeys queries req s =
        (_ <- deleteUserKey queries (<["userId" := id]> (<["all" := VBool true]> ∅));;
         ret {| status := 204; payload := VUndef |}) s) /\
     (forall name,
        getprop query "name" s = Return name s ->
        getKeyExpiry queries req s =
          (response <- getUserKeyExpiry queries
                         (<["userId" := id]> (<["name" := name]> ∅));;
           ret {| status := 200; payload := response |}) s)).
Proof.
  intros Hu Hid. split; [| intros query Hq; split].
  - intros params name Hp Hn. unfold deleteKey.
    rewrite (bind_run _ _ _ _ _ Hp), (bind_run _ _ _ _ _ Hn),
      (bind_run _ _ _ _ _ Hu), (bind_run _ _ _ _ _ Hid).
    reflexivity.
  - intros Ha. unfold deleteAllKeys.
    rewrite (bind_run _ _ _ _ _ Hq), (bind_run _ _ _ _ _ Ha).
    change (strict_eq (VStr "true") (VStr "true")) with true. cbn [negb].
    rewrite (bind_run _ _ _ _ _ Hu), (bind_run _ _ _ _ _ Hid).
    reflexivity.
  - intros name Hn. unfold getKeyExpiry.
    rewrite (bind_run _ _ _ _ _ Hq), (bind_run _ _ _ _ _ Hn),
      (bind_run _ _ _ _ _ Hu), (bind_run _ _ _ _ _ Hid).
    reflexivity.
Qed.

(** [PUT /] forwards the body: for a provider that is not locked, whatever
    the key service is, it is called with every own property of the body as
    the body gave it, a [userId] included; the identifier of the caller is
    passed only where the body has no [userId].  The answer is 201 with an
    empty body when the service answers. *)
Theorem putKey_forwards_body svc req s lb fields user id :
  getprop req "body" s = Return (VRef lb) s ->
  heap s !! lb = Some fields ->
  strict_eq (field fields "name") (VStr lockedProvider) = false ->
  getprop req "user" s = Return user s ->
  getprop user "id" s = Return id s ->
  exists sent,
    putKey svc req s =
      (_ <- updateUserKey svc sent;;
       ret {| status := 201; payload := VUndef |}) s /\
    (forall key v, fields !! key = Some v -> sent !! key = Some v) /\
    (fields !! "userId" = None -> sent !! "userId" = Some id) /\
    (forall key, key <> "userId" -> sent !! key = fields !! key).
Proof.
  intros Hb Hl Hne Hu Hid. exists (fields ∪ {["userId" := id]}).
  split; [| split; [| split]].
  - unfold putKey.
    assert (getprop (VRef lb) "name" s = Return (field fields "name") s) as Hn
      by (unfold getprop; now rewrite Hl).
    assert (spread (VRef lb) s = Return fields s) as Hsp
      by (unfold spread; now rewrite Hl).
    rewrite (bind_run _ _ _ _ _ Hb), (bind_run _ _ _ _ _ Hn), Hne.
    rewrite (bind_run _ _ _ _ _ Hu), (bind_run _ _ _ _ _ Hid),
      (bind_run _ _ _ _ _ Hb), (bind_run _ _ _ _ _ Hsp).
    reflexivity.
  - intros key v Hk. now apply lookup_union_Some_l.
  - intros Hno. rewrite lookup_union_r by exact Hno. apply lookup_singleton_eq.
  - intros key N. rewrite lookup_union_l; [reflexivity |].
    now apply lookup_singleton_ne.
Qed.

End KeyHandlersFacts.

(** * The page handler and the handler of uncaught errors (server/index.js) *)

Section ServerFacts.

Import Server.

Lemma append_nil y : EmptyString +:+ y = y.
Proof. reflexivity. Qed.

Lemma append_cons c x y : String c x +:+ y = String c (x +:+ y).
Proof. reflexivity. Qed.

Lemma includes_char c d s :
  includes (String d s) (String c EmptyString)
  = Ascii.eqb c d || includes s (String c EmptyString).
Proof. cbn. now rewrite andb_true_r. Qed.

Lemma includes_char_app c x y :
  includes (x +:+ y) (String c EmptyString)
  = includes x (String c EmptyString) || includes y (String c EmptyString).
Proof.
  induction x as [|d x IH].
  - rewrite append_nil. reflexivity.
  - rewrite append_cons, !includes_char, IH. now rewrite orb_assoc.
Qed.

Lemma escapeQuotes_no_quote s : includes (escapeQuotes s) dquote = false.
Proof.
  unfold dquote. fold quote. induction s as [|c s IH]; [reflexivity |].
  cbn [escapeQuotes]. destruct (Ascii.eqb c quote) eqn:E.
  - rewrite includes_char_app, IH. reflexivity.
  - rewrite includes_char, IH, Ascii.eqb_sym, E. reflexivity.
Qed.

Lemma escapeQuotes_keeps c s :
  Ascii.eqb c quote = false ->
  includes "&quot;" (String c EmptyString) = false ->
  includes s (String c EmptyString) = false ->
  includes (escapeQuotes s) (String c EmptyString) = false.
Proof.
  intros Hq Ha. induction s as [|d s IH]; [reflexivity |].
  rewrite includes_char. intros H. apply orb_false_iff in H as [H1 H2].
  cbn [escapeQuotes]. destruct (Ascii.eqb d quote) eqn:E.
  - rewrite includes_char_app, Ha, (IH H2). reflexivity.
  - rewrite includes_char, H1, (IH H2). reflexivity.
Qed.

(** A replacement text without dollar signs is inserted as it is. *)
Lemma getSubstitution_literal matched before after t :
  includes t (String dollar EmptyString) = false ->
  getSubstitution matched before after t = t.
Proof.
  induction t as [|c t IH]; [reflexivity |].
  rewrite includes_char. intros H. apply orb_false_iff in H as [H1 H2].
  cbn [getSubstitution]. rewrite Ascii.eqb_sym, H1. now rewrite (IH H2).
Qed.

Lemma dropChars_app x y : dropChars (String.length x) (x +:+ y) = y.
Proof.
  induction x as [|c x IH]; [now destruct y |].
  rewrite append_cons. exact IH.
Qed.

Lemma starts_with_app p post : starts_with p (p +:+ post) = true.
Proof. apply starts_with_spec. now exists post. Qed.

Lemma replaceFrom_no_match pat t before rest :
  includes rest pat = false ->
  replaceFrom pat t 0 before rest = rest.
Proof.
  revert before. induction rest as [|c rest IH]; intros before H; [reflexivity |].
  cbn [includes] in H. apply orb_false_iff in H as [H1 H2].
  cbn [replaceFrom]. rewrite H1. now rewrite (IH _ H2).
Qed.

Lemma replaceFrom_skip pat t x : forall before y,
  exists before',
    replaceFrom pat t (String.length x) before (x +:+ y) = replaceFrom pat t 0 before' y.
Proof.
  induction x as [|c x IH]; intros before y.
  - exists before. reflexivity.
  - rewrite append_cons. cbn [String.length replaceFrom]. apply IH.
Qed.

(** Where every match is replaced by the pattern itself, the text is as it
    was. *)
Lemma replaceFrom_identity pat t :
  pat <> EmptyString ->
  (forall before after, getSubstitution pat before after t = pat) ->
  forall rest skip before, replaceFrom pat t skip before rest = dropChars skip rest.
Proof.
  intros Hne Ht. induction rest as [|c rest IH]; intros skip before.
  - now destruct skip.
  - destruct skip as [|skip]; cbn [replaceFrom dropChars]; [| apply IH].
    destruct (starts_with pat (String c rest)) eqn:E.
    + rewrite Ht, IH. apply starts_with_spec in E as (post & E).
      destruct pat as [|p0 pat']; [congruence |].
      rewrite append_cons in E. injection E as -> ->.
      replace (String.length (String p0 pat') - 1) with (String.length pat')
        by (cbn [String.length]; lia).
      rewrite dropChars_app. reflexivity.
    + now rewrite IH.
Qed.

(** One match, behind [pre], replaced by a text without dollar signs. *)
Lemma replaceFrom_single pat t post :
  pat <> EmptyString ->
  includes t (String dollar EmptyString) = false ->
  includes post pat = false ->
  forall pre before,
    noMatchWithin pat pre (pat +:+ post) = true ->
    replaceFrom pat t 0 before (pre +:+ pat +:+ post) = pre +:+ t +:+ post.
Proof.
  intros Hne Ht Hpost. induction pre as [|c pre IH]; intros before Hpre.
  - rewrite !append_nil.
    pose proof (starts_with_app pat post) as E.
    destruct pat as [|p0 pat']; [congruence |].
    rewrite append_cons in *. cbn [replaceFrom]. rewrite E.
    rewrite getSubstitution_literal by exact Ht. f_equal.
    replace (String.length (String p0 pat') - 1) with (String.length pat')
      by (cbn [String.length]; lia).
    destruct (replaceFrom_skip (String p0 pat') t pat'
                (before +:+ String p0 EmptyString) post) as (b' & ->).
    now apply replaceFrom_no_match.
  - cbn [noMatchWithin] in Hpre. apply andb_true_iff in Hpre as [H1 H2].
    apply negb_true_iff in H1. rewrite !append_cons in *.
    cbn [replaceFrom]. rewrite H1. f_equal. now apply IH.
Qed.

Lemma marker_not_empty : marker <> EmptyString.
Proof. discriminate. Qed.

Lemma marker_replaces_itself before after :
  getSubstitution marker before after (langAttribute "en-US") = marker.
Proof. apply getSubstitution_literal. reflexivity. Qed.

(** Every answer of the handler: the state is as it was, and the page is
    index.html with the chosen language, escaped, in place of the marker. *)
Lemma serveIndex_Return env html req s page s' :
  serveIndex env html req s = Return page s' ->
  s' = s /\ contentType page = "html" /\
  exists l,
    body page = replaceGlobal marker (langAttribute (escapeQuotes l)) html.
Proof.
  unfold serveIndex. intros H.
  apply bind_Return in H as (cookies & s0 & R1 & H).
  assert (s0 = s) by exact (readonly_getprop _ _ _ _ _ R1). subst s0.
  apply bind_Return in H as (cookie & s0 & R2 & H).
  assert (s0 = s) by exact (readonly_getprop _ _ _ _ _ R2). subst s0.
  apply bind_Return in H as (lang & s0 & R3 & H).
  assert (s0 = s) as ->.
  { destruct (truthy cookie); [unfold ret in R3; now simplify_eq |].
    apply bind_Return in R3 as (hs & s2 & R4 & R3).
    assert (s2 = s) by exact (readonly_getprop _ _ _ _ _ R4). subst s2.
    apply bind_Return in R3 as (accept & s2 & R5 & R3).
    assert (s2 = s) by exact (readonly_getprop _ _ _ _ _ R5). subst s2.
    apply bind_Return in R3 as (first & s2 & R6 & R3).
    unfold ret in R3. simplify_eq.
    destruct accept; unfold ret, throw in R6; now simplify_eq. }
  destruct lang; try discriminate H. unfold ret in H. simplify_eq.
  split; [reflexivity |]. split; [reflexivity |]. eexists. reflexivity.
Qed.

(** Whatever the request holds, the language that the page handler puts
    into the template of line 146 was escaped first: the text between the
    two quotes of the template holds no double quote.  (The template is
    then read by [replace], which gives dollar signs their meaning.) *)
Theorem served_language_is_escaped env html req s page s' :
  serveIndex env html req s = Return page s' ->
  exists l,
    body page = replaceGlobal marker (langAttribute (escapeQuotes l)) html /\
    includes (escapeQuotes l) dquote = false.
Proof.
  intros H. apply serveIndex_Return in H as (_ & _ & l & H).
  exists l. split; [exact H | apply escapeQuotes_no_quote].
Qed.

(** A page without the marker is served as it is, whatever language the
    request asks for. *)
Theorem page_without_marker_unchanged env html req s page s' :
  includes html marker = false ->
  serveIndex env html req s = Return page s' ->
  body page = html.
Proof.
  intros Hm H. apply serveIndex_Return in H as (_ & _ & l & ->).
  unfold replaceGlobal. now apply replaceFrom_no_match.
Qed.

(** A request without a language (no cookie, or an empty one, and no
    Accept-Language header, or one whose first element is empty) is served
    index.html as line 53 read it, however many markers it holds. *)
Theorem default_language_serves_index_unchanged env html req s
    cookies cookie headers accept :
  getprop req "cookies" s = Return cookies s ->
  getprop cookies "lang" s = Return cookie s ->
  truthy cookie = false ->
  getprop req "headers" s = Return headers s ->
  getprop headers "accept-language" s = Return accept s ->
  (nullish accept = true \/ exists a, accept = VStr a /\ firstSegment a = EmptyString) ->
  exists page,
    serveIndex env html req s = Return page s /\ body page = html.
Proof.
  intros Hc Hl Hf Hh Ha Hacc. unfold serveIndex.
  rewrite (bind_run _ _ _ _ _ Hc), (bind_run _ _ _ _ _ Hl), Hf.
  assert ((headers <- getprop req "headers";;
           accept <- getprop headers "accept-language";;
           first <- match accept with
                    | VUndef | VNull => ret VUndef
                    | VStr a => ret (VStr (firstSegment a))
                    | _ => throw TypeError
                    end;;
           ret (js_or first (VStr "en-US"))) s = Return (VStr "en-US") s) as E.
  { rewrite (bind_run _ _ _ _ _ Hh), (bind_run _ _ _ _ _ Ha).
    destruct Hacc as [Hn | (a & -> & Hn)].
    - destruct accept; try discriminate Hn; reflexivity.
    - unfold bind, ret. rewrite Hn. reflexivity. }
  rewrite (bind_run _ _ _ _ _ E). eexists. split; [reflexivity |].
  cbn [body]. unfold replaceGlobal.
  change (escapeQuotes "en-US") with "en-US".
  rewrite (replaceFrom_identity marker (langAttribute "en-US") marker_not_empty
             marker_replaces_itself).
  reflexivity.
Qed.

(** A language cookie without a dollar sign, and a page whose one marker
    stands behind [pre]: the page served is the page with the marker
    replaced by the [lang] attribute of the cookie, in which every double
    quote of the cookie has become [&quot;]. *)
Theorem single_marker_replaced_literally env pre post req s cookies c :
  getprop req "cookies" s = Return cookies s ->
  getprop cookies "lang" s = Return (VStr c) s ->
  c <> EmptyString ->
  includes c (String dollar EmptyString) = false ->
  noMatchWithin marker pre (marker +:+ post) = true ->
  includes post marker = false ->
  exists page,
    serveIndex env (pre +:+ marker +:+ post) req s = Return page s /\
    body page = pre +:+ langAttribute (escapeQuotes c) +:+ post.
Proof.
  intros Hc Hl Hne Hd Hpre Hpost. unfold serveIndex.
  rewrite (bind_run _ _ _ _ _ Hc), (bind_run _ _ _ _ _ Hl).
  assert (truthy (VStr c) = true) as ->.
  { cbn. destruct c; [congruence | reflexivity]. }
  unfold bind at 1, ret at 1. eexists. split; [reflexivity |].
  cbn [body]. unfold replaceGlobal.
  apply replaceFrom_single; try assumption; [apply marker_not_empty |].
  unfold langAttribute, dquote. rewrite !includes_char_app.
  rewrite (escapeQuotes_keeps dollar c eq_refl eq_refl Hd). reflexivity.
Qed.

(** The handler of uncaught errors ends the process, with code 1, exactly
    for the errors whose message holds none of the five tolerated texts; and
    it logs the error as uncaught exactly when the message does not hold
    the text fetch failed. *)
Theorem uncaught_exits_unless_tolerated m count :
  exists events count',
    onUncaughtException (VStr m) count = inr (events, count') /\
    (Exit 1 ∈ events <-> tolerated m = false) /\
    (forall code, Exit code ∈ events -> code = 1%Z) /\
    (ErrorUncaught ∈ events <-> includes m "fetch failed" = false).
Proof.
  unfold onUncaughtException, tolerated.
  destruct (includes m "abort"), (includes m "GoogleGenerativeAI"),
    (includes m "fetch failed"), (includes m "OpenAIError"),
    (includes m "ChatCompletionMessage"), (Z.eqb count 0);
    cbn; eexists _, _; (split; [reflexivity |]);
    repeat split; intros; try discriminate; try congruence;
    repeat match goal with
    | H : _ ∈ _ :: _ |- _ => apply elem_of_cons in H as [H | H]; try discriminate H
    | H : _ ∈ [] |- _ => apply elem_of_nil in H; destruct H
    | H : Exit _ = Exit _ |- _ => injection H as ->
    end; try reflexivity; set_solver.
Qed.

Lemma uncaughtErrors_meilisearch messages : forall count,
  (0 <= count)%Z ->
  length (filter (fun e => e = WarnMeilisearch) (uncaughtErrors messages count))
  <= (if Z.eqb count 0 then 1 else 0).
Proof.
  induction messages as [|message messages IH]; intros count Hc.
  - cbn. destruct (Z.eqb count 0); lia.
  - cbn [uncaughtErrors]. unfold onUncaughtException.
    destruct message as [| | | |m| |]; try (cbn; destruct (Z.eqb count 0); lia).
    pose proof (IH count Hc) as IHc.
    pose proof (IH (count + 1)%Z ltac:(lia)) as IH1.
    assert (Z.eqb (count + 1) 0 = false) as E1 by lia.
    rewrite E1 in IH1.
    destruct (includes m "abort"), (includes m "GoogleGenerativeAI"),
      (includes m "fetch failed"), (includes m "OpenAIError"),
      (includes m "ChatCompletionMessage"), (Z.eqb count 0) eqn:E0;
      cbn [negb orb app existsb exits];
      rewrite ?filter_cons, ?filter_nil;
      repeat case_decide; try discriminate; cbn [length]; try lia.
Qed.

(** Over the whole life of a process, whatever errors it meets, the
    warning that search is disabled is logged at most once. *)
Theorem meilisearch_warned_once messages :
  length (filter (fun e => e = WarnMeilisearch) (processEvents messages)) <= 1.
Proof.
  unfold processEvents.
  exact (uncaughtErrors_meilisearch messages 0%Z ltac:(lia)).
Qed.

End ServerFacts.

(** * Worked instances *)

(** A closed, decidable statement, decided by evaluation. *)
Ltac computed := apply (bool_decide_unpack _); vm_compute; exact I.

Lemma scenario_typedCredentials env : typedCredentials Scenario.deps env.
Proof.
  split.
  - intros h m g1 g2 r H. cbn in H. unfold Scenario.mapModelToAzureConfig_spec in H.
    destruct (Scenario.own h g1 (to_string m)); [| discriminate].
    destruct (Scenario.own h g2 _) as [g|]; [| discriminate].
    simplify_eq. cbn. field_simpl.
    destruct (default VUndef (Scenario.own h g "apiKey"));
      unfold credentialString; cbn; eauto.
  - cbn. field_simpl. unfold env_get, credentialString.
    destruct (env !! "AZURE_API_KEY"); eauto.
Qed.

Lemma fourLayers_allStreamRate o :
  allStreamRate (Scenario.args (VRef 8) o) Scenario.fourLayers (VNum 40).
Proof. exists (VRef 3), (VRef 7). repeat split; computed. Qed.

(** C1 at a request with the stream rates 5, 10, 20 and 40 in the four
    layers: the merged options and the options of the client hold 40. *)
Lemma streamRate_global_precedence_witness :
  let a := Scenario.args (VRef 8) (VBool false) in
  let s := Scenario.fourLayers in
  let run := initializeClient Scenario.deps Scenario.relayEnv a s in
  exists m k co s1 o,
    resolveOptions Scenario.deps Scenario.relayEnv a s = Return (m, k, co) s1 /\
    co !! "streamRate" = Some (VNum 40) /\
    consumed Scenario.deps (Scenario.answer Scenario.noResult run) (Scenario.final run)
      k (length (heap s1)) /\
    heap (Scenario.final run) !! length (heap s1) = Some o /\
    o !! "streamRate" = Some (VNum 40).
Proof.
  intros a s run.
  apply (streamRate_global_precedence Scenario.deps Scenario.relayEnv a s (VNum 40)
           (Scenario.answer Scenario.noResult run) (Scenario.final run)).
  - apply fourLayers_allStreamRate.
  - computed.
Defined.

(** C9 at a request whose configuration for all endpoints has a title model
    and no stream rate, while the request and the endpoint configuration
    have one. *)
Lemma global_config_without_rate_disables_hook_witness :
  let a := Scenario.args (VRef 8) (VBool true) in
  let s := Scenario.allWithoutRate in
  let run := initializeClient Scenario.deps Scenario.relayEnv a s in
  exists m k co s1,
    resolveOptions Scenario.deps Scenario.relayEnv a s = Return (m, k, co) s1 /\
    co !! "streamRate" = Some VUndef /\
    (truthy (optionsOnly a) = true ->
     Scenario.answer Scenario.noResult run =
       OptionsOnly (getLLMConfig Scenario.deps (heap (Scenario.final run)) k
                      (VRef (length (heap s1))))).
Proof.
  intros a s run.
  apply (global_config_without_rate_disables_hook Scenario.deps Scenario.relayEnv a s
           (Scenario.answer Scenario.noResult run) (Scenario.final run)).
  - exists (VRef 3), (VRef 7). repeat split; computed.
  - computed.
Defined.

(** C4 at the request of the four layers, in options-only mode: one hook,
    which sleeps 40 milliseconds at every token. *)
Lemma optionsOnly_throttle_hook_witness :
  let a := Scenario.args (VRef 8) (VBool true) in
  let s := Scenario.fourLayers in
  let resolved := resolveOptions Scenario.deps Scenario.relayEnv a s in
  let co := Scenario.merged resolved in
  let l := length (heap (Scenario.final resolved)) in
  let run := initializeClient Scenario.deps Scenario.relayEnv a s in
  field co "streamRate" = VNum 40 /\
  exists h0 lc lh,
    let plain := getLLMConfig Scenario.deps h0 (VStr "sk-or-1") (VRef l) in
    Scenario.answer Scenario.noResult run =
      OptionsOnly {| llmConfig := <["callbacks" := VRef lc]> (llmConfig plain);
                     configOptions := configOptions plain |} /\
    heap (Scenario.final run) =
      h0 ++ [ {["handleLLMNewToken" := VFun (ThrottleHook l)]};
              {["0" := VRef lh]} ] /\
    lh = length h0 /\ lc = length h0 + 1 /\
    forall n, onTokens n (ThrottleHook l) (Scenario.final run)
              = Return (repeat (Sleep (VNum 40)) n) (Scenario.final run).
Proof.
  intros a s resolved co l run.
  assert (E : field co "streamRate" = VNum 40) by computed.
  split; [exact E |].
  pose proof (optionsOnly_throttle_hook Scenario.deps Scenario.relayEnv a s
                (VStr "gpt-4o") (VStr "sk-or-1") co (Scenario.final resolved)
                (Scenario.answer Scenario.noResult run) (Scenario.final run)) as W.
  cbv zeta in W. fold l in W. rewrite E in W. cbn [truthy Z.eqb negb] in W.
  apply W; computed.
Defined.

(** C3 at the request of the four layers: without a relay key the default
    endpoint fails with the error that names it, and with one the client is
    built from a key that is not empty. *)
Lemma missing_credential_fails_witness :
  let a := Scenario.args (VRef 8) (VBool false) in
  let s := Scenario.fourLayers in
  let run := initializeClient Scenario.deps Scenario.relayEnv a s in
  initializeClient Scenario.deps ∅ a s
    = Throw (Error "openAI API Key not provided.") s /\
  exists key l, key <> "" /\
    consumed Scenario.deps (Scenario.answer Scenario.noResult run)
      (Scenario.final run) (VStr key) l.
Proof.
  intros a s run. split.
  - apply (proj1 (missing_credential_fails Scenario.deps ∅ a s (VStr "openAI"))).
    + split; [computed |]. split; [computed |].
      exists (VRef 1), (VRef 3). repeat split; computed.
    + computed.
    + computed.
    + left. computed.
  - apply (proj2 (missing_credential_fails Scenario.deps Scenario.relayEnv a s VUndef)
             (scenario_typedCredentials _)).
    computed.
Defined.

(** C7 at the request of the four layers, where OPENROUTER_KEY is sk-or-1:
    the credential is sk-or-1, whatever the key store holds. *)
Lemma relay_credential_ignores_user_keys_witness :
  let a := Scenario.args (VRef 8) (VBool false) in
  let s := Scenario.fourLayers in
  let run := initializeClient Scenario.deps Scenario.relayEnv a s in
  let r := Scenario.answer Scenario.noResult run in
  exists m co s1 l,
    resolveOptions Scenario.deps Scenario.relayEnv a s
      = Return (m, VStr "sk-or-1", co) s1 /\
    consumed Scenario.deps r (Scenario.final run) (VStr "sk-or-1") l /\
    forall ks,
      resolveOptions Scenario.deps Scenario.relayEnv a (set_userKeys ks s)
        = Return (m, VStr "sk-or-1", co) (set_userKeys ks s1) /\
      initializeClient Scenario.deps Scenario.relayEnv a (set_userKeys ks s)
        = Return r (set_userKeys ks (Scenario.final run)).
Proof.
  intros a s run r.
  destruct (relay_credential_ignores_user_keys Scenario.deps Scenario.relayEnv a s
              (VStr "openAI") r (Scenario.final run)
              ltac:(computed) ltac:(computed) ltac:(computed))
    as (key & m & co & s1 & l & Hk & _ & H).
  assert (Scenario.relayEnv !! "OPENROUTER_KEY" = Some "sk-or-1") as E by computed.
  rewrite E in Hk. injection Hk as <-.
  exists m, co, s1, l. exact H.
Defined.

(** C2 as the spec states it fails: the group g1 of the model gpt-4-turbo
    holds no stream rate, the model name contains "gpt-4", the run answers,
    and the derived stream rate is the 50 of the Azure configuration. *)
Lemma azure_group_rate_counterexample :
  let a := Scenario.args (VRef 10) (VBool false) in
  let run := resolveOptions Scenario.deps ∅ a Scenario.azureRate50 in
  Scenario.own (heap Scenario.azureRate50) (VRef 9) "streamRate" = None /\
  includes "gpt-4-turbo" "gpt-4" = true /\
  run = Return (VStr "gpt-4-turbo", VStr "az-key", Scenario.merged run)
               (Scenario.final run) /\
  field (Scenario.merged run) "streamRate" = VNum 50.
Proof. cbv zeta. repeat split; computed. Qed.

(** C2 as amended, at the same request without a stream rate in the Azure
    configuration: 30 for gpt-4-turbo. *)
Lemma azure_default_streamRate_witness :
  let a := Scenario.args (VRef 10) (VBool false) in
  let run := resolveOptions Scenario.deps ∅ a Scenario.azureNoRate in
  field (Scenario.merged run) "streamRate" = VNum 30.
Proof.
  intros a run.
  destruct (proj2 (azure_default_streamRate Scenario.deps ∅ a Scenario.azureNoRate
                     (VStr "azureOpenAI") (VRef 3) (VRef 5) VUndef "gpt-4-turbo"
                     ltac:(computed) ltac:(computed) ltac:(computed)
                     ltac:(computed) ltac:(computed) ltac:(computed)
                     ltac:(computed) ltac:(computed))
              VUndef (VStr "gpt-4-turbo") (VStr "az-key") (Scenario.merged run)
              (Scenario.final run) ltac:(computed) ltac:(computed)
              ltac:(computed))
    as [_ E].
  exact E.
Defined.

(** C5 as the spec states it fails: the group g1 supplies X-Team: azure, the
    request-level endpoint options supply X-Team: request, and the header
    map of the merged options holds X-Team: request. *)
Lemma azure_header_precedence_counterexample :
  let a := Scenario.args (VRef 10) (VBool false) in
  let run := resolveOptions Scenario.deps ∅ a Scenario.azureHeaderClash in
  Scenario.own (heap Scenario.azureHeaderClash) (VRef 12) "X-Team"
    = Some (VStr "azure") /\
  Scenario.own (heap Scenario.azureHeaderClash) (VRef 13) "X-Team"
    = Some (VStr "request") /\
  run = Return (VStr "gpt-4-turbo", VStr "az-key", Scenario.merged run)
               (Scenario.final run) /\
  Scenario.own (heap (Scenario.final run))
    (field (Scenario.merged run) "headers") "X-Team" = Some (VStr "request").
Proof. cbv zeta. repeat split; computed. Qed.

(** C5 as amended, at the same request. *)
Lemma request_headers_override_azure_witness :
  let a := Scenario.args (VRef 10) (VBool false) in
  let run := resolveOptions Scenario.deps ∅ a Scenario.azureHeaderClash in
  exists lh merged,
    field (Scenario.merged run) "headers" = VRef lh /\
    heap (Scenario.final run) !! lh = Some merged /\
    merged !! "X-Team" = Some (VStr "request").
Proof.
  intros a run.
  destruct (request_headers_override_azure Scenario.deps ∅ a Scenario.azureHeaderClash
              (VStr "azureOpenAI") (VRef 3) (VRef 5) (VStr "gpt-4-turbo")
              Scenario.mappedClash
              (<["model_parameters" := VRef 11]> (<["headers" := VRef 13]> ∅))
              (<["X-Team" := VStr "request"]> ∅)
              (fun v => v))
    with (m' := VStr "gpt-4-turbo") (k := VStr "az-key")
         (co := Scenario.merged run) (s1 := Scenario.final run)
    as (lh & merged & H1 & H2 & H3).
  - intros o. cbn. symmetry. apply map_fmap_id.
  - computed.
  - computed.
  - computed.
  - computed.
  - computed.
  - computed.
  - exists (VRef 6), (VRef 7). repeat split; computed.
  - computed.
  - computed.
  - computed.
  - exists lh, merged. split; [exact H1 |]. split; [exact H2 |].
    rewrite (H3 "X-Team") by discriminate. vm_compute. reflexivity.
Defined.

(** C6 as the spec states it fails: the group g1 is serverless, the key
    az-key is in the header object (cell 15) of the options of the client
    (cell 17) and [azure] is [false], and yet az-key is the credential that
    the client was constructed with and the one answered beside it. *)
Lemma serverless_key_as_credential_counterexample :
  let a := Scenario.args (VRef 10) (VBool false) in
  let s := Scenario.azureServerless in
  let run := initializeClient Scenario.deps ∅ a s in
  let options := VRef 17 in
  Scenario.own (heap s) (VRef 9) "serverless" = Some (VBool true) /\
  run = Return (ClientPair {| client_apiKey := VStr "az-key";
                              client_options := options |} (VStr "az-key"))
               (Scenario.final run) /\
  Scenario.own (heap (Scenario.final run)) options "azure" = Some (VBool false) /\
  Scenario.own (heap (Scenario.final run)) options "headers" = Some (VRef 15) /\
  Scenario.own (heap (Scenario.final run)) (VRef 15) "api-key" = Some (VStr "az-key").
Proof. cbv zeta. repeat split; computed. Qed.

(** C6 as amended, at a request whose group g1 is serverless with the API
    version 2024-02-01. *)
Lemma serverless_key_in_header_witness :
  let a := Scenario.args (VRef 10) (VBool false) in
  let s := Scenario.azureServerless in
  let run := initializeClient Scenario.deps ∅ a s in
  exists l o lh h,
    consumed Scenario.deps (Scenario.answer Scenario.noResult run) (Scenario.final run)
      (VStr "az-key") l /\
    heap (Scenario.final run) !! l = Some o /\
    field o "azure" = VBool false /\
    field o "headers" = VRef lh /\ heap (Scenario.final run) !! lh = Some h /\
    h !! "api-key" = Some (VStr "az-key") /\
    exists lq q, field o "defaultQuery" = VRef lq /\
                 heap (Scenario.final run) !! lq = Some q /\
                 q !! "api-version" = Some (VStr "2024-02-01").
Proof.
  intros a s run.
  unshelve epose proof
    (serverless_key_in_header Scenario.deps ∅ a s
       (VStr "azureOpenAI") (VRef 3) (VRef 5) (VStr "gpt-4-turbo")
       Scenario.mappedServerless
       (Scenario.answer Scenario.noResult run) (Scenario.final run)
       _ _ _ _ _ _ _ _ _) as W.
  1-6, 8-9: computed.
  - exists (VRef 6), (VRef 7). repeat split; computed.
  - exact W.
Defined.



(** C8, second half, fails at a body that carries a [userId]: the spread of
    the body overrides the identifier of the caller.  The caller is user-1,
    and whatever the key service is, line 11 calls it with the [userId]
    victim; with the upsert of the spec the record of the user victim is
    overwritten and the caller has no record, while the answer is 201. *)
Lemma putKey_foreign_userId :
  let s := Scenario.foreignUserId in
  let sent := <["userId" := VStr "victim"]>
                (<["name" := VStr "anthropic"]> (<["value" := VStr "sk-sent"]> ∅)) in
  let run := KeysRoute.putKey KeysRoute.userService_spec (VRef 0) s in
  (user <- getprop (VRef 0) "user";; getprop user "id") s = Return (VStr "user-1") s /\
  (forall svc,
     KeysRoute.putKey svc (VRef 0) s =
       (_ <- KeysRoute.updateUserKey svc sent;;
        ret {| KeysRoute.status := 201; KeysRoute.payload := VUndef |}) s) /\
  run = Return {| KeysRoute.status := 201; KeysRoute.payload := VUndef |}
               (Scenario.final run) /\
  userKeys (Scenario.final run) !! ("victim", "anthropic")
    = Some {| key_value := VStr "sk-sent"; key_expiresAt := VUndef |} /\
  userKeys (Scenario.final run) !! ("user-1", "anthropic") = None.
Proof.
  cbv zeta. split; [computed |]. split; [| repeat split; computed].
  intros svc. unfold KeysRoute.putKey.
  assert (getprop (VRef 0) "body" Scenario.foreignUserId
          = Return (VRef 1) Scenario.foreignUserId) as Hb by computed.
  assert (getprop (VRef 1) "name" Scenario.foreignUserId
          = Return (VStr "anthropic") Scenario.foreignUserId) as Hn by computed.
  assert (getprop (VRef 0) "user" Scenario.foreignUserId
          = Return (VRef 2) Scenario.foreignUserId) as Hu by computed.
  assert (getprop (VRef 2) "id" Scenario.foreignUserId
          = Return (VStr "user-1") Scenario.foreignUserId) as Hid by computed.
  assert (spread (VRef 1) Scenario.foreignUserId
          = Return (<["userId" := VStr "victim"]>
                      (<["name" := VStr "anthropic"]> (<["value" := VStr "sk-sent"]> ∅)))
                   Scenario.foreignUserId) as Hsp by computed.
  rewrite (bind_run _ _ _ _ _ Hb), (bind_run _ _ _ _ _ Hn).
  change (strict_eq (VStr "anthropic") (VStr KeysRoute.lockedProvider)) with false.
  cbv iota.
  rewrite (bind_run _ _ _ _ _ Hu), (bind_run _ _ _ _ _ Hid),
    (bind_run _ _ _ _ _ Hb), (bind_run _ _ _ _ _ Hsp).
  replace (<["userId" := VStr "victim"]>
             (<["name" := VStr "anthropic"]> (<["value" := VStr "sk-sent"]> ∅))
           ∪ {["userId" := VStr "user-1"]})
    with (<["userId" := VStr "victim"]>
            (<["name" := VStr "anthropic"]> (<["value" := VStr "sk-sent"]> (∅ : obj))))
    by computed.
  reflexivity.
Qed.

(** The locked provider at a request of user-1: 403, and the record that
    the store held stays. *)
Lemma putKey_locked_witness :
  let run := KeysRoute.putKey KeysRoute.userService_spec (VRef 0) Scenario.lockedKey in
  run = Return {| KeysRoute.status := 403; KeysRoute.payload := VRef 3 |}
          (set_heap
             (heap Scenario.lockedKey ++
              [ {["error" := VStr "OpenAI API keys are managed by the system administrator"]} ])
             Scenario.lockedKey) /\
  userKeys (Scenario.final run) = userKeys Scenario.lockedKey.
Proof.
  intros run.
  assert (run = Return {| KeysRoute.status := 403; KeysRoute.payload := VRef 3 |}
          (set_heap
             (heap Scenario.lockedKey ++
              [ {["error" := VStr "OpenAI API keys are managed by the system administrator"]} ])
             Scenario.lockedKey)) as E.
  { apply (putKey_locked KeysRoute.userService_spec (VRef 0) Scenario.lockedKey
             (VRef 1)); computed. }
  split; [exact E |]. rewrite E. reflexivity.
Defined.

(** Another provider at a request of user-1 without a [userId]: the record
    of user-1 is upserted. *)
Lemma putKey_upserts_caller_witness :
  KeysRoute.putKey KeysRoute.userService_spec (VRef 0) Scenario.ownKey =
    Return {| KeysRoute.status := 201; KeysRoute.payload := VUndef |}
      (set_userKeys
         (<[("user-1", "anthropic") :=
              {| key_value := VStr "sk-sent"; key_expiresAt := VUndef |}]> ∅)
         Scenario.ownKey).
Proof.
  etransitivity.
  - apply (putKey_upserts_caller (VRef 0) Scenario.ownKey 1%nat
             (<["name" := VStr "anthropic"]> (<["value" := VStr "sk-sent"]> ∅))
             (VRef 2) (VStr "user-1")); computed.
  - computed.
Defined.

(** ** Instances of the further properties *)

(** The request of the four layers, for the endpoint openAI: the key and
    the proxy of a direct provider change nothing of what is resolved. *)
Lemma relay_path_reads_four_variables_witness :
  let a := Scenario.args (VRef 8) (VBool false) in
  resolveOptions Scenario.deps Scenario.relayEnv a Scenario.fourLayers
  = resolveOptions Scenario.deps Scenario.directEnv a Scenario.fourLayers.
Proof.
  intros a.
  apply (relay_path_reads_four_variables Scenario.deps Scenario.relayEnv
           Scenario.directEnv a Scenario.fourLayers (VStr "openAI")); computed.
Defined.

(** The request of the four layers, asked for a full client. *)
Lemma fullClient_mutates_nothing_witness :
  let a := Scenario.args (VRef 8) (VBool false) in
  let s := Scenario.fourLayers in
  let run := initializeClient Scenario.deps Scenario.relayEnv a s in
  grows s (Scenario.final run) /\
  exists k l,
    Scenario.answer Scenario.noResult run
      = ClientPair {| client_apiKey := k; client_options := VRef l |} k /\
    length (heap s) <= l < length (heap (Scenario.final run)).
Proof.
  intros a s run.
  apply (fullClient_mutates_nothing Scenario.deps Scenario.relayEnv a s
           (Scenario.answer Scenario.noResult run) (Scenario.final run)); computed.
Defined.

(** Request-level endpoint options without model parameters, in
    options-only mode. *)
Lemma optionsOnly_needs_model_parameters_witness :
  let a := Scenario.args (VRef 8) (VBool true) in
  let s := Scenario.noModelParameters in
  let resolved := resolveOptions Scenario.deps Scenario.relayEnv a s in
  initializeClient Scenario.deps Scenario.relayEnv a s
    = Throw TypeError (Scenario.final resolved).
Proof.
  intros a s resolved.
  apply (optionsOnly_needs_model_parameters Scenario.deps Scenario.relayEnv a s
           (VStr "gpt-4o") (VStr "sk-or-1") (Scenario.merged resolved)
           (Scenario.final resolved)).
  - computed.
  - computed.
  - right. exists VUndef. split; computed.
Defined.

(** The request of the four layers: its endpoint options have no
    [reverseProxyUrl], so the merged one is the URL of the relay although
    the environment names a proxy. *)
Lemma request_options_override_defaults_witness :
  let a := Scenario.args (VRef 8) (VBool false) in
  let s := Scenario.fourLayers in
  let ep : obj := <["streamRate" := VNum 5]> (<["model_parameters" := VRef 9]> ∅) in
  let co := Scenario.merged (resolveOptions Scenario.deps Scenario.directEnv a s) in
  (forall key v, ep !! key = Some v ->
     key <> "streamRate" -> key <> "titleModel" -> co !! key = Some v) /\
  (ep !! "reverseProxyUrl" = None ->
   co !! "reverseProxyUrl" = Some (VStr "https://openrouter.ai/api/v1")).
Proof.
  intros a s ep co.
  apply (request_options_override_defaults Scenario.deps Scenario.directEnv a s
           (VStr "openAI") ep (VStr "gpt-4o") (VStr "sk-or-1") co
           (Scenario.final (resolveOptions Scenario.deps Scenario.directEnv a s)));
    computed.
Defined.

(** A request for the endpoint anthropic: the stream rate 20 of the
    configuration of openAI replaces the 5 of the request, and its missing
    title model erases the one of the request. *)
Lemma endpoint_config_overwrites_witness :
  let a := Scenario.args (VRef 8) (VBool false) in
  let s := Scenario.endpointConfigOnly in
  let co := Scenario.merged (resolveOptions Scenario.deps Scenario.relayEnv a s) in
  co !! "titleModel" = Some VUndef /\ co !! "streamRate" = Some (VNum 20).
Proof.
  intros a s co.
  destruct (endpoint_config_overwrites Scenario.deps Scenario.relayEnv a s
              (VStr "anthropic") (VRef 3) (VRef 6) (VNum 20) VUndef
              (VStr "claude-3") (VStr "sk-or-1") co
              (Scenario.final (resolveOptions Scenario.deps Scenario.relayEnv a s))
              ltac:(computed) ltac:(computed) ltac:(computed) ltac:(computed)
              ltac:(computed) ltac:(computed) ltac:(computed) ltac:(computed))
    as [H1 H2].
  split; [exact H1 |].
  apply (H2 VUndef); computed.
Defined.

(** An Azure request without an Azure configuration and without an Azure
    key: the relay key is configured, and the call fails. *)
Lemma azure_unconfigured_missing_key_fails_witness :
  let a := Scenario.args (VRef 8) (VBool false) in
  let s := Scenario.azureUnconfigured in
  initializeClient Scenario.deps Scenario.relayEnv a s
    = Throw (Error "azureOpenAI API Key not provided.")
            (set_heap (heap s ++ [getAzureCredentials Scenario.deps Scenario.relayEnv]) s).
Proof.
  intros a s.
  apply (azure_unconfigured_missing_key_fails Scenario.deps Scenario.relayEnv a s
           (VStr "azureOpenAI") (VRef 3) VUndef).
  - split; [computed |]. split; [computed |].
    exists (VRef 1), (VRef 3). repeat split; computed.
  - computed.
  - computed.
  - computed.
  - computed.
  - computed.
  - computed.
Defined.

(** The same request with an Azure key in the environment. *)
Lemma azure_unconfigured_uses_environment_witness :
  let a := Scenario.args (VRef 8) (VBool false) in
  let s := Scenario.azureUnconfigured in
  let run := initializeClient Scenario.deps Scenario.azureEnv a s in
  exists l o stored,
    consumed Scenario.deps (Scenario.answer Scenario.noResult run) (Scenario.final run)
      (VStr "az-env") l /\
    heap (Scenario.final run) !! l = Some o /\
    field o "azure" = VRef (length (heap s)) /\
    heap (Scenario.final run) !! length (heap s) = Some stored /\
    forall key, key <> "model" -> key <> "user" ->
      stored !! key = getAzureCredentials Scenario.deps Scenario.azureEnv !! key.
Proof.
  intros a s run.
  apply (azure_unconfigured_uses_environment Scenario.deps Scenario.azureEnv a s
           (VStr "azureOpenAI") (VRef 3) VUndef
           (Scenario.answer Scenario.noResult run) (Scenario.final run)); computed.
Defined.

(** The model gpt-5, which the Azure configuration does not map. *)
Lemma azure_mapper_error_propagates_witness :
  initializeClient Scenario.deps Scenario.relayEnv Scenario.unknownModel
    Scenario.azureNoRate
  = Throw (ConfigError UnknownModel) Scenario.azureNoRate.
Proof.
  apply (azure_mapper_error_propagates Scenario.deps Scenario.relayEnv
           Scenario.unknownModel Scenario.azureNoRate
           (VStr "azureOpenAI") (VRef 3) (VRef 5) (VStr "gpt-5") (VRef 6) (VRef 7)).
  - split; [computed |]. split; [computed |].
    exists (VRef 1), (VRef 3). repeat split; computed.
  - computed.
  - computed.
  - computed.
  - computed.
  - computed.
  - computed.
  - computed.
  - computed.
  - computed.
Defined.

(** The title settings of the Azure configuration and the forced prompt of
    the group g1 replace what the request asked for. *)
Lemma azure_settings_override_request_witness :
  let a := Scenario.args (VRef 10) (VBool false) in
  let s := Scenario.azureSettings in
  let co := Scenario.merged (resolveOptions Scenario.deps ∅ a s) in
  field co "titleConvo" = VBool true /\ field co "titleModel" = VStr "current_model" /\
  field co "titleMethod" = coalesce VUndef (VStr "completion") /\
  field co "addParams" = VUndef /\ field co "dropParams" = VUndef /\
  field co "forcePrompt" = VBool true.
Proof.
  intros a s co.
  unshelve eapply (azure_settings_override_request Scenario.deps ∅ a s
           (VStr "azureOpenAI") (VRef 3) (VRef 5) (VStr "gpt-4-turbo") (VStr "g1")
           (VBool true) (VStr "current_model") VUndef VUndef VUndef (VBool true)
           _ _ _ _ _ _ _ _ _ _ _ _ _
           (VStr "gpt-4-turbo") (VStr "az-key") co
           (Scenario.final (resolveOptions Scenario.deps ∅ a s)) _).
  1-9, 11-14: computed.
  exists (VRef 6), (VRef 8). repeat split; computed.
Defined.

(** The group g1 of the header clash is not serverless. *)
Lemma azure_dedicated_attaches_credentials_witness :
  let a := Scenario.args (VRef 10) (VBool false) in
  let s := Scenario.azureHeaderClash in
  let run := resolveOptions Scenario.deps ∅ a s in
  let co := Scenario.merged run in
  VStr "az-key" = field (azureOptions Scenario.mappedClash) "azureOpenAIApiKey" /\
  field co "azure" = VRef (length (heap s)) /\
  heap (Scenario.final run) !! length (heap s)
    = Some (azureOptions Scenario.mappedClash) /\
  co !! "defaultQuery" = None /\
  exists lh,
    field co "headers" = VRef lh /\
    heap (Scenario.final run) !! lh = Some (<["X-Team" := VStr "request"]> ∅).
Proof.
  intros a s run co.
  unshelve epose proof
    (azure_dedicated_attaches_credentials Scenario.deps ∅ a s
       (VStr "azureOpenAI") (VRef 3) (VRef 5) (VStr "gpt-4-turbo")
       Scenario.mappedClash
       (<["model_parameters" := VRef 11]> (<["headers" := VRef 13]> ∅))
       (<["X-Team" := VStr "request"]> ∅)
       _ _ _ _ _ _ _ _ _ _
       (VStr "gpt-4-turbo") (VStr "az-key") co (Scenario.final run) _)
    as (H1 & H2 & H3 & H4 & lh & H5 & H6).
  1-6, 8-11: computed.
  - exists (VRef 6), (VRef 7). repeat split; computed.
  - split; [exact H1 |]. split; [exact H2 |]. split; [exact H3 |].
    split; [rewrite H4; computed |].
    exists lh. split; [exact H5 |]. rewrite H6. computed.
Defined.

(** [DELETE /?all=yes] of user-1: 400, and both keys of the store stay. *)
Lemma deleteAllKeys_requires_flag_witness :
  let s := Scenario.bulkWithoutFlag in
  let run := KeysRoute.deleteAllKeys KeysRoute.userKeyQueries_spec (VRef 0) s in
  run = Return {| KeysRoute.status := 400; KeysRoute.payload := VRef 4 |}
          (set_heap
             (heap s ++ [ {["error" := VStr "Specify either all=true to delete."]} ]) s) /\
  userKeys (Scenario.final run) = userKeys s.
Proof.
  intros s run.
  assert (run = Return {| KeysRoute.status := 400; KeysRoute.payload := VRef 4 |}
          (set_heap
             (heap s ++ [ {["error" := VStr "Specify either all=true to delete."]} ]) s))
    as E.
  { apply (deleteAllKeys_requires_flag KeysRoute.userKeyQueries_spec (VRef 0) s
             (VRef 3) (VStr "yes")); [computed | computed | discriminate]. }
  split; [exact E |]. rewrite E. reflexivity.
Defined.

(** The three handlers at a request of user-1 for the key anthropic: the
    key of user-1 is deleted and the one of user-2 stays; the expiry
    answered is the one of the key of user-1. *)
Lemma key_queries_address_caller_witness :
  let s := Scenario.namedKey in
  let queries := KeysRoute.userKeyQueries_spec in
  let deleted := KeysRoute.deleteKey queries (VRef 0) s in
  let cleared := KeysRoute.deleteAllKeys queries (VRef 0) s in
  let expiry := KeysRoute.getKeyExpiry queries (VRef 0) s in
  (deleted =
     (_ <- KeysRoute.deleteUserKey queries
             (<["userId" := VStr "user-1"]> (<["name" := VStr "anthropic"]> ∅));;
      ret {| KeysRoute.status := 204; KeysRoute.payload := VUndef |}) s /\
   cleared =
     (_ <- KeysRoute.deleteUserKey queries
             (<["userId" := VStr "user-1"]> (<["all" := VBool true]> ∅));;
      ret {| KeysRoute.status := 204; KeysRoute.payload := VUndef |}) s /\
   expiry =
     (response <- KeysRoute.getUserKeyExpiry queries
                    (<["userId" := VStr "user-1"]> (<["name" := VStr "anthropic"]> ∅));;
      ret {| KeysRoute.status := 200; KeysRoute.payload := response |}) s) /\
  userKeys (Scenario.final deleted) !! ("user-1", "anthropic") = None /\
  userKeys (Scenario.final cleared) !! ("user-1", "anthropic") = None /\
  userKeys (Scenario.final deleted) !! ("user-2", "anthropic")
    = userKeys s !! ("user-2", "anthropic") /\
  userKeys (Scenario.final cleared) !! ("user-2", "anthropic")
    = userKeys s !! ("user-2", "anthropic") /\
  Scenario.own (heap (Scenario.final expiry))
    (KeysRoute.payload (Scenario.answer Scenario.noResponse expiry)) "expiresAt"
    = Some (VNum 1767225600000).
Proof.
  intros s queries deleted cleared expiry.
  destruct (key_queries_address_caller queries (VRef 0) s (VRef 2) (VStr "user-1")
              ltac:(computed) ltac:(computed)) as [H1 H2].
  destruct (H2 (VRef 3) ltac:(computed)) as [H3 H4].
  split.
  { split; [| split].
    - apply (H1 (VRef 1) (VStr "anthropic")); computed.
    - apply H3; computed.
    - apply (H4 (VStr "anthropic")); computed. }
  repeat split; computed.
Defined.

(** A request of user-1 whose body holds the [userId] victim: that is what
    the service receives. *)
Lemma putKey_forwards_body_witness :
  let s := Scenario.foreignUserId in
  exists sent,
    KeysRoute.putKey KeysRoute.userService_spec (VRef 0) s =
      (_ <- KeysRoute.updateUserKey KeysRoute.userService_spec sent;;
       ret {| KeysRoute.status := 201; KeysRoute.payload := VUndef |}) s /\
    sent !! "userId" = Some (VStr "victim").
Proof.
  intros s.
  destruct (putKey_forwards_body KeysRoute.userService_spec (VRef 0) s 1%nat
              (<["name" := VStr "anthropic"]>
                 (<["value" := VStr "sk-sent"]> (<["userId" := VStr "victim"]> ∅)))
              (VRef 2) (VStr "user-1")
              ltac:(computed) ltac:(computed) ltac:(computed) ltac:(computed)
              ltac:(computed))
    as (sent & H1 & H2 & _).
  exists sent. split; [exact H1 |]. apply H2. computed.
Defined.

(** A cookie with a double quote: what the page handler inserts has
    none. *)
Lemma served_language_is_escaped_witness :
  let s := Scenario.browser (<["lang" := VStr ("fr" +:+ dquote +:+ "x")]> ∅) ∅ in
  let run := Server.serveIndex ∅ Scenario.indexPage (VRef 0) s in
  exists l,
    Server.body (Scenario.answer Scenario.noPage run)
      = Server.replaceGlobal Server.marker
          (Server.langAttribute (Server.escapeQuotes l)) Scenario.indexPage /\
    includes (Server.escapeQuotes l) dquote = false.
Proof.
  intros s run.
  apply (served_language_is_escaped ∅ Scenario.indexPage (VRef 0) s
           (Scenario.answer Scenario.noPage run) (Scenario.final run)).
  computed.
Defined.

(** A page without the marker, asked for in French. *)
Lemma page_without_marker_unchanged_witness :
  let s := Scenario.browser (<["lang" := VStr "fr-FR"]> ∅) ∅ in
  let run := Server.serveIndex ∅ Scenario.plainPage (VRef 0) s in
  Server.body (Scenario.answer Scenario.noPage run) = Scenario.plainPage.
Proof.
  intros s run.
  apply (page_without_marker_unchanged ∅ Scenario.plainPage (VRef 0) s
           (Scenario.answer Scenario.noPage run) (Scenario.final run)); computed.
Defined.

(** A request without a cookie whose Accept-Language header starts with a
    comma. *)
Lemma default_language_serves_index_unchanged_witness :
  let s := Scenario.browser ∅ (<["accept-language" := VStr ",fr;q=0.8"]> ∅) in
  exists page,
    Server.serveIndex ∅ Scenario.indexPage (VRef 0) s = Return page s /\
    Server.body page = Scenario.indexPage.
Proof.
  intros s.
  apply (default_language_serves_index_unchanged ∅ Scenario.indexPage (VRef 0) s
           (VRef 1) VUndef (VRef 2) (VStr ",fr;q=0.8")).
  - computed.
  - computed.
  - computed.
  - computed.
  - computed.
  - right. eexists. split; [reflexivity | computed].
Defined.

(** The page with one marker, asked for with a cookie that holds a double
    quote. *)
Lemma single_marker_replaced_literally_witness :
  let c := "fr" +:+ dquote +:+ "x" in
  let s := Scenario.browser (<["lang" := VStr c]> ∅) ∅ in
  let pre := "<!DOCTYPE html><html " in
  let post := "><body></body></html>" in
  exists page,
    Server.serveIndex ∅ (pre +:+ Server.marker +:+ post) (VRef 0) s = Return page s /\
    Server.body page = pre +:+ Server.langAttribute "fr&quot;x" +:+ post.
Proof.
  intros c s pre post.
  apply (single_marker_replaced_literally ∅ pre post (VRef 0) s (VRef 1) c).
  - computed.
  - computed.
  - discriminate.
  - computed.
  - computed.
  - computed.
Defined.

(** The Azure request of [azureNoRate] with both overrides: the model is
    the override and the credential is the relay key. *)
Lemma overrides_precede_request_body_witness :
  let a := Scenario.overridden in
  let s := Scenario.azureNoRate in
  let run := resolveOptions Scenario.deps Scenario.relayEnv a s in
  Scenario.own (heap s) (VRef 1) "endpoint" = Some (VStr "azureOpenAI") /\
  run = Return (VStr "gpt-4o-mini", VStr "sk-or-1", Scenario.merged run) s.
Proof.
  intros a s run.
  destruct (overrides_precede_request_body Scenario.deps Scenario.relayEnv a s
              (Scenario.answer (VUndef, VUndef, ∅) run).1.1
              (Scenario.answer (VUndef, VUndef, ∅) run).1.2
              (Scenario.merged run) (Scenario.final run) ltac:(computed))
    as [H1 H2].
  specialize (H1 ltac:(computed)).
  destruct (H2 ltac:(computed) ltac:(computed)) as [H3 H4].
  split; [computed |].
  assert (run = Return ((Scenario.answer (VUndef, VUndef, ∅) run).1.1,
                        (Scenario.answer (VUndef, VUndef, ∅) run).1.2,
                        Scenario.merged run) (Scenario.final run)) as E by computed.
  rewrite E, H1, H3, H4. reflexivity.
Defined.
